(** * Noise-monitoring ETL: Row Builder, Upsert Writer and Day Walker

    A shallow embedding of [supabase_common.py] ([build_rows],
    [upsert_rows], [yesterday_sgt]) and of the backward walk of
    [supabase_backfill_all.py] ([main]), with the properties the
    specification states about them.

    Conventions.
    - A [date] is its proleptic Gregorian ordinal ([date.toordinal()]),
      1 for 0001-01-01 up to [MAXORDINAL] for 9999-12-31.
    - A [datetime] is the number of microseconds between
      0001-01-01T00:00:00 and its wall-clock fields; for a UTC datetime this
      is the absolute instant.
    - Python exceptions are values of [PyExn]; code that can raise returns
      a [Res]. *)

From Stdlib Require Import ZArith List Bool Ascii String DecimalString Lia.
From stdpp Require Import base tactics option list gmap strings.

Local Open Scope string_scope.
Local Open Scope list_scope.
Local Open Scope Z_scope.

Set Warnings "-register-all".

(** ** Exceptions and results *)

Inductive PyExn : Type :=
| OverflowError            (* date or timedelta out of range *)
| TypeError                (* iterating a JSON value that is not iterable *)
| ValueError (s : string)  (* int() of a string that is no integer literal *)
| KeyError (k : string)    (* os.environ[k] with k unset *)
| ClientError (m : string) (* create_client refuses the credentials *)
| StoreError (m : string). (* the store client raises on execute() *)

Inductive Res (A : Type) : Type :=
| Ok (a : A)
| Raise (e : PyExn).
Arguments Ok {A} a.
Arguments Raise {A} e.

(** ** The calendar of [datetime] *)

Module Calendar.

Definition MINYEAR : Z := 1.
Definition MAXYEAR : Z := 9999.
Definition MAXORDINAL : Z := 3652059.

Definition _DI400Y : Z := 146097.
Definition _DI100Y : Z := 36524.
Definition _DI4Y : Z := 1461.

Definition _is_leap (year : Z) : bool :=
  (year mod 4 =? 0) && (negb (year mod 100 =? 0) || (year mod 400 =? 0)).

Definition _days_before_year (year : Z) : Z :=
  let y := year - 1 in
  y * 365 + y / 4 - y / 100 + y / 400.

(** [_DAYS_IN_MONTH[month]], index 0 being the placeholder -1. *)
Definition _DAYS_IN_MONTH (month : Z) : Z :=
  nth (Z.to_nat month) [-1; 31; 28; 31; 30; 31; 30; 31; 31; 30; 31; 30; 31] 0.

Definition _DAYS_BEFORE_MONTH (month : Z) : Z :=
  nth (Z.to_nat month)
      [-1; 0; 31; 59; 90; 120; 151; 181; 212; 243; 273; 304; 334] 0.

Definition _days_in_month (year month : Z) : Z :=
  if (month =? 2) && _is_leap year then 29 else _DAYS_IN_MONTH month.

Definition _days_before_month (year month : Z) : Z :=
  _DAYS_BEFORE_MONTH month + (if (month >? 2) && _is_leap year then 1 else 0).

Definition _ymd2ord (year month day : Z) : Z :=
  _days_before_year year + _days_before_month year month + day.

(** [_ord2ymd(n)]: year, month and day of the ordinal [n]. *)
Definition _ord2ymd (n : Z) : Z * Z * Z :=
  let n := n - 1 in
  let n400 := n / _DI400Y in
  let n := n mod _DI400Y in
  let year := n400 * 400 + 1 in
  let n100 := n / _DI100Y in
  let n := n mod _DI100Y in
  let n4 := n / _DI4Y in
  let n := n mod _DI4Y in
  let n1 := n / 365 in
  let n := n mod 365 in
  let year := year + (n100 * 100 + n4 * 4 + n1) in
  if (n1 =? 4) || (n100 =? 4) then (year - 1, 12, 31)
  else
    let leapyear := (n1 =? 3) && (negb (n4 =? 24) || (n100 =? 3)) in
    let month := Z.shiftr (n + 50) 5 in
    let preceding :=
      _DAYS_BEFORE_MONTH month + (if (month >? 2) && leapyear then 1 else 0) in
    if preceding >? n then
      let month := month - 1 in
      let preceding :=
        preceding
        - (_DAYS_IN_MONTH month + (if (month =? 2) && leapyear then 1 else 0)) in
      (year, month, n - preceding + 1)
    else (year, month, n - preceding + 1).

(** A date is valid when its ordinal lies in [1, MAXORDINAL]. *)
Definition valid_ordinal (n : Z) : bool := (1 <=? n) && (n <=? MAXORDINAL).

(** [date - timedelta(days=k)], and the range check of [timedelta]. *)
Definition timedelta_days (k : Z) : Res Z :=
  if (Z.abs k <=? 999999999) then Ok k else Raise OverflowError.

Definition date_sub (d : Z) (days : Z) : Res Z :=
  let o := d - days in
  if valid_ordinal o then Ok o else Raise OverflowError.

(** Microseconds. *)
Definition US_PER_SECOND : Z := 1000000.
Definition US_PER_MINUTE : Z := 60 * US_PER_SECOND.
Definition US_PER_HOUR : Z := 3600 * US_PER_SECOND.
Definition US_PER_DAY : Z := 86400 * US_PER_SECOND.
Definition MAX_US : Z := MAXORDINAL * US_PER_DAY.

Definition valid_datetime (t : Z) : bool := (0 <=? t) && (t <? MAX_US).

(** [datetime.combine(day, time(0, 0))]: the wall clock at midnight. *)
Definition combine_midnight (day : Z) : Z := (day - 1) * US_PER_DAY.

(** [dt + timedelta]: plain arithmetic on the wall clock, range-checked. *)
Definition datetime_add (t delta : Z) : Res Z :=
  let r := t + delta in
  if valid_datetime r then Ok r else Raise OverflowError.

(** [dt.date()] of a wall clock. *)
Definition datetime_date (t : Z) : Z := t / US_PER_DAY + 1.

End Calendar.

Import Calendar.

(** ** Text: [str(int)], zero-padded fields, ISO 8601 and [int(str)] *)

Module Text.

(** [str(n)] for an integer. *)
Definition str_of_Z (n : Z) : string := NilZero.string_of_int (Z.to_int n).

Definition digit (d : Z) : ascii := ascii_of_nat (48 + Z.to_nat d).

(** ["%0wd" % n] for a field [0 <= n < 10^w]: its [w] decimal digits. *)
Fixpoint zfill (w : nat) (n : Z) : string :=
  match w with
  | O => EmptyString
  | S w' => zfill w' (n / 10) +:+ String (digit (n mod 10)) EmptyString
  end.

(** [date.isoformat()], also [str(date)]: YYYY-MM-DD. *)
Definition date_isoformat (d : Z) : string :=
  let '(y, m, dd) := _ord2ymd d in
  zfill 4 y +:+ "-" +:+ zfill 2 m +:+ "-" +:+ zfill 2 dd.

(** [datetime.isoformat()] of an aware UTC datetime:
    YYYY-MM-DDTHH:MM:SS[.ffffff]+00:00. *)
Definition time_isoformat (us_of_day : Z) : string :=
  let secs := us_of_day / US_PER_SECOND in
  let us := us_of_day mod US_PER_SECOND in
  zfill 2 (secs / 3600) +:+ ":" +:+ zfill 2 ((secs / 60) mod 60) +:+ ":"
  +:+ zfill 2 (secs mod 60)
  +:+ (if us =? 0 then EmptyString else "." +:+ zfill 6 us).

Definition naive_isoformat (t : Z) : string :=
  date_isoformat (datetime_date t) +:+ "T"
  +:+ time_isoformat (t mod US_PER_DAY).

Definition utc_isoformat (t : Z) : string :=
  naive_isoformat t +:+ "+00:00".

(** [s.rstrip(c)] for a one-character set. *)
Fixpoint rstrip (c : ascii) (s : string) : string :=
  match s with
  | EmptyString => EmptyString
  | String a rest =>
      let r := rstrip c rest in
      if String.eqb r EmptyString && Ascii.eqb a c then EmptyString else String a r
  end.

(** [int(s)] on ASCII text: surrounding blanks, an optional sign, then
    decimal digits in which single underscores may separate digits, no more
    than the interpreter's limit on the digits of a literal.  [None] stands
    for [ValueError].  (Non-ASCII digits and blanks are outside this
    model.) *)

(** The blanks that [int] skips in ASCII text: tab, line feed, vertical
    tab, form feed, carriage return and space.  The separators [chr(28)] to
    [chr(31)], which [str.strip] removes, are not among them. *)
Definition is_space (c : ascii) : bool :=
  let n := nat_of_ascii c in
  ((9 <=? n) && (n <=? 13) || (n =? 32))%nat.

Fixpoint lstrip_space (s : list ascii) : list ascii :=
  match s with
  | c :: r => if is_space c then lstrip_space r else s
  | [] => []
  end.

Definition strip_space (s : list ascii) : list ascii :=
  rev (lstrip_space (rev (lstrip_space s))).

Definition digit_val (c : ascii) : option Z :=
  let n := nat_of_ascii c in
  if ((48 <=? n) && (n <=? 57))%nat then Some (Z.of_nat n - 48) else None.

Fixpoint parse_digits (acc : Z) (after_digit : bool) (s : list ascii)
  : option Z :=
  match s with
  | [] => if after_digit then Some acc else None
  | c :: r =>
      match digit_val c with
      | Some d => parse_digits (10 * acc + d) true r
      | None =>
          if Ascii.eqb c "_" && after_digit then parse_digits acc false r
          else None
      end
  end.

(** The default of [sys.get_int_max_str_digits()]: a literal with more
    digits is refused with [ValueError]; sign, underscores and blanks do not
    count. *)
Definition MAX_STR_DIGITS : Z := 4300.

Definition count_digits (s : list ascii) : Z :=
  Z.of_nat
    (length (List.filter
               (fun c => match digit_val c with Some _ => true | None => false end)
               s)).

Definition py_int (s : string) : option Z :=
  let t := strip_space (list_ascii_of_string s) in
  if MAX_STR_DIGITS <? count_digits t then None
  else
    match t with
    | "+"%char :: r => parse_digits 0 false r
    | "-"%char :: r => Z.opp <$> parse_digits 0 false r
    | _ => parse_digits 0 false t
    end.

End Text.

Import Text.

(** ** The zone [SGT = zoneinfo.ZoneInfo("Asia/Singapore")]

    The zone's rules are data of the tz database, not of the repository:
    the transition instants (seconds since 1970-01-01T00:00:00Z) with the
    UTC offset (seconds) in force from each of them on.  Since
    1981-12-31T16:00:00Z the offset is +08:00. *)

Module SGT.

Definition EPOCH_SECONDS : Z := (719163 - 1) * 86400.

(** Offset before the first transition (local mean time). *)
Definition utcoff_first : Z := 24925.

Definition transitions : list (Z * Z) :=
  [ (-2177477725, 24925);   (* 1901-01-01  SMT   +06:55:25 *)
    (-2038200925, 25200);   (* 1905-06-01        +07:00    *)
    (-1167634800, 26400);   (* 1933-01-01        +07:20 (daylight saving) *)
    (-1073028000, 26400);   (* 1936-01-01        +07:20    *)
    (-894180000, 27000);    (* 1941-09-01        +07:30    *)
    (-879665400, 32400);    (* 1942-02-16        +09:00    *)
    (-767005200, 27000);    (* 1945-09-12        +07:30    *)
    (378662400, 28800) ].   (* 1982-01-01        +08:00    *)

(** The offset for a UTC timestamp: that of the last transition at or before
    it ([ZoneInfo.fromutc]). *)
Fixpoint find_utc (prev : Z) (trs : list (Z * Z)) (ts : Z) : Z :=
  match trs with
  | [] => prev
  | (t, off) :: rest => if ts <? t then prev else find_utc off rest ts
  end.

(** The offset for a wall-clock timestamp with [fold=0]
    ([ZoneInfo.utcoffset]): a transition takes effect on the wall clock at
    its instant plus the larger of the offsets before and after it, so that
    wall times skipped by a forward jump keep the earlier offset. *)
Fixpoint find_wall (prev : Z) (trs : list (Z * Z)) (ts : Z) : Z :=
  match trs with
  | [] => prev
  | (t, off) :: rest =>
      if ts <? t + Z.max prev off then prev else find_wall off rest ts
  end.

(** Both take a datetime in microseconds since 0001-01-01T00:00:00 and
    return the offset in microseconds; sub-second parts are ignored by the
    lookup. *)
Definition utcoffset_of_utc (t : Z) : Z :=
  find_utc utcoff_first transitions (t / US_PER_SECOND - EPOCH_SECONDS)
  * US_PER_SECOND.

Definition utcoffset (wall : Z) : Z :=
  find_wall utcoff_first transitions (wall / US_PER_SECOND - EPOCH_SECONDS)
  * US_PER_SECOND.

(** [dt.astimezone(timezone.utc)] for [dt] in SGT. *)
Definition astimezone_utc (wall : Z) : Res Z :=
  let utc := wall - utcoffset wall in
  if valid_datetime utc then Ok utc else Raise OverflowError.

(** [SGT.fromutc], the conversion behind [datetime.now(SGT)]: the local
    wall clock of a UTC instant. *)
Definition fromutc (utc : Z) : Res Z :=
  datetime_add utc (utcoffset_of_utc utc).

(** First day (1982-01-01) from which the wall clock is at +08:00. *)
Definition FIXED_FROM : Z := 723546.

End SGT.

(** ** Data: JSON values, devices, reading records *)

(** What [r.json()] returns, over the platform's type [F] of floats.  A
    [JDict] lists the items of the dict in insertion order. *)
Inductive JSON (F : Type) : Type :=
| JNull
| JBool (b : bool)
| JInt (n : Z)
| JFloat (x : F)
| JStr (s : string)
| JList (l : list (JSON F))
| JDict (items : list (string * JSON F)).
Arguments JNull {F}.
Arguments JBool {F} b.
Arguments JInt {F} n.
Arguments JFloat {F} x.
Arguments JStr {F} s.
Arguments JList {F} l.
Arguments JDict {F} items.

(** [d.get(key)]: [None] when the key is absent. *)
Fixpoint dict_get {F} (key : string) (items : list (string * JSON F))
  : option (JSON F) :=
  match items with
  | [] => None
  | (k, v) :: rest => if String.eqb k key then Some v else dict_get key rest
  end.

(** One entry of [LOCATIONS]. *)
Record Location : Type := { ID : string; Name : string }.

Definition LOCATIONS : list Location :=
  [ {| ID := "15490"; Name := "Singapore Sports School" |};
    {| ID := "16034"; Name := "BLK 120 Serangoon North Ave 1" |};
    {| ID := "16041"; Name := "BLK 838 Hougang Central" |};
    {| ID := "14542"; Name := "BLK 558 Jurong West Street 42" |};
    {| ID := "15725"; Name := "Jurong Safra, Block C" |};
    {| ID := "16032"; Name := "AMA KENG SITE" |};
    {| ID := "16045"; Name := "BLK 19 Balam Road" |};
    {| ID := "15820"; Name := "Norcom II Tower 4" |};
    {| ID := "15821"; Name := "Blk 444 Choa Chu Kang Avenue 4" |};
    {| ID := "15999"; Name := "BLK 654B Punggol Drive" |};
    {| ID := "16026"; Name := "BLK 132B Tengah Garden Avenue" |};
    {| ID := "16004"; Name := "BLK 206A Punggol Place" |};
    {| ID := "16005"; Name := "Woodlands 11" |} ].

Definition API_DEFAULT : string := "http://139.59.223.231:3000/api/meter-sound".

(** The dict appended by [build_rows]. *)
Record Row (F : Type) : Type := {
  location_id : string;
  location_name : string;
  reading_value : option F;
  reading_datetime : string;
  created_at : string
}.
Arguments location_id {F} r.
Arguments location_name {F} r.
Arguments reading_value {F} r.
Arguments reading_datetime {F} r.
Arguments created_at {F} r.

Inductive LogLevel : Type := INFO | WARNING.

(** What the program does to the outside, in order. *)
Inductive Event (F : Type) : Type :=
| EvGet (url : string) (timeout : Z)
| EvSleep (milliseconds : Z)
| EvUpsert (table : string) (chunk : list (Row F)) (on_conflict : string)
| EvLog (level : LogLevel) (logger : string) (msg : string).
Arguments EvGet {F} url timeout.
Arguments EvSleep {F} milliseconds.
Arguments EvUpsert {F} table chunk on_conflict.
Arguments EvLog {F} level logger msg.

(** The state of a run: the world outside and what the program has done
    to it so far. *)
Record RunState (W F : Type) : Type := {
  world : W;
  trace : list (Event F)
}.
Arguments Build_RunState {W F} world trace.
Arguments world {W F} r.
Arguments trace {W F} r.

(** What [main] has fixed when the loop starts, over the type [C] of store
    clients. *)
Record Configuration (C : Type) : Type := {
  api_base_of : string;
  table_of : string;
  threshold_of : Z;
  max_years_of : Z;
  client_of : C;
  today_of : Z;
  end_of : Z;
  stop_before_of : Z
}.
Arguments Build_Configuration {C}.
Arguments api_base_of {C} c.
Arguments table_of {C} c.
Arguments threshold_of {C} c.
Arguments max_years_of {C} c.
Arguments client_of {C} c.
Arguments today_of {C} c.
Arguments end_of {C} c.
Arguments stop_before_of {C} c.

(** ** The platform: what the scripts call and do not define

    Python's floats and [float()], the HTTP client, the clock and the store
    client.  Every operation on the outside takes the state of the world
    and returns the next one. *)
Class Platform : Type := {
  float : Type;
  (** [x == 0.0] *)
  float_is_zero : float -> bool;
  (** [float(v)]; [None] when it raises. *)
  py_float : JSON float -> option float;
  World : Type;
  (** [requests.get(url, timeout=30)], [raise_for_status()] and [r.json()]:
      [inl e] when one of the three raises exception [e] (as text). *)
  http_get_json : string -> World -> (string + JSON float) * World;
  (** [datetime.now(timezone.utc)], in microseconds. *)
  utcnow : World -> Z * World;
  (** [time.sleep(0.05)] *)
  sleep : World -> World;
  Client : Type;
  (** [create_client(url, key)] *)
  create_client : string -> string -> Res Client;
  (** [client.table(t).upsert(chunk, on_conflict=c).execute()]: [inl e] when
      it raises, otherwise [resp.data] when that is a list and [None] when
      it is not. *)
  execute_upsert :
    Client -> string -> list (Row float) -> string -> World ->
    (string + option (list (JSON float))) * World
}.

Section Program.

Context {P : Platform}.

(** ** State and the monad of the scripts *)

Definition State : Type := RunState World float.

Definition M (A : Type) : Type := State -> Res A * State.

Definition ret {A} (a : A) : M A := fun s => (Ok a, s).

Definition bind {A B} (m : M A) (k : A -> M B) : M B :=
  fun s =>
    match m s with
    | (Ok a, s') => k a s'
    | (Raise e, s') => (Raise e, s')
    end.

Definition lift {A} (r : Res A) : M A := fun s => (r, s).

Definition emit (e : Event float) : M unit :=
  fun s => (Ok tt, {| world := world s; trace := trace s ++ [e] |}).

Definition call {A} (f : World -> A * World) : M A :=
  fun s => let '(a, w) := f (world s) in
           (Ok a, {| world := w; trace := trace s |}).

Definition pass (f : World -> World) : M unit :=
  fun s => (Ok tt, {| world := f (world s); trace := trace s |}).

Notation "x <- m ; k" := (bind m (fun x => k))
  (at level 100, m at next level, right associativity).
Notation "m ;; k" := (bind m (fun _ => k))
  (at level 100, right associativity).

(** ** [build_rows] *)

(** Truth value of a JSON value: [not raw]. *)
Definition truthy (v : JSON float) : bool :=
  match v with
  | JNull => false
  | JBool b => b
  | JInt n => negb (n =? 0)
  | JFloat x => negb (float_is_zero x)
  | JStr s => negb (String.eqb s EmptyString)
  | JList l => match l with [] => false | _ => true end
  | JDict items => match items with [] => false | _ => true end
  end.

(** The characters of a [str], which a [string] holds in UTF-8: a byte
    [10xxxxxx] continues the character begun before it. *)
Definition is_continuation (c : ascii) : bool :=
  let n := nat_of_ascii c in ((128 <=? n) && (n <? 192))%nat.

Definition continues (s : list ascii) : bool :=
  match s with c :: _ => is_continuation c | [] => false end.

Fixpoint utf8_chars (s : list ascii) : list string :=
  match s with
  | [] => []
  | c :: r =>
      match utf8_chars r with
      | g :: gs =>
          if continues r then String c g :: gs
          else String c EmptyString :: g :: gs
      | [] => [String c EmptyString]
      end
  end.

(** The items [enumerate(raw)] runs over: the elements of a list, the keys
    of a dict, the characters of a string; anything else is not iterable. *)
Definition py_iter (v : JSON float) : Res (list (JSON float)) :=
  match v with
  | JList l => Ok l
  | JDict items => Ok (map (fun kv => JStr (fst kv)) items)
  | JStr s => Ok (map JStr (utf8_chars (list_ascii_of_string s)))
  | _ => Raise TypeError
  end.

(** Lines 110-115: [value] after the [try]; only a dict has [.get], and
    every exception leaves [None]. *)
Definition reading_of (item : JSON float) : option float :=
  match item with
  | JDict items =>
      match dict_get "reading" items with
      | None | Some JNull => None
      | Some v => py_float v
      end
  | _ => None
  end.

Definition fetch_url (api_base : string) (loc : Location) (day : Z) : string :=
  api_base +:+ "/" +:+ ID loc +:+ "?start=" +:+ date_isoformat day.

(** The [for i, item in enumerate(raw)] loop, from index [i] on. *)
Fixpoint rows_loop (loc : Location) (base_sgt now_plus_1h_utc : Z) (i : Z)
    (items : list (JSON float)) (rows : list (Row float))
  : M (list (Row float)) :=
  match items with
  | [] => ret rows
  | item :: rest =>
      ts_sgt <- lift (datetime_add base_sgt (i * US_PER_MINUTE)) ;
      ts_utc <- lift (SGT.astimezone_utc ts_sgt) ;
      if ts_utc >? now_plus_1h_utc then
        rows_loop loc base_sgt now_plus_1h_utc (i + 1) rest rows
      else
        let value := reading_of item in
        created <- call utcnow ;
        rows_loop loc base_sgt now_plus_1h_utc (i + 1) rest
          (rows ++ [ {| location_id := ID loc;
                        location_name := Name loc;
                        reading_value := value;
                        reading_datetime := utc_isoformat ts_utc;
                        created_at := utc_isoformat created |} ])
  end.

Definition fetch_failed_msg (loc : Location) (day : Z) (e : string) : string :=
  "Fetch failed " +:+ ID loc +:+ " " +:+ date_isoformat day +:+ ": " +:+ e.

Definition build_rows (api_base : string) (loc : Location) (day : Z)
  : M (list (Row float)) :=
  let url := fetch_url api_base loc day in
  emit (EvGet url 30) ;;
  r <- call (http_get_json url) ;
  match r with
  | inl e =>
      emit (EvLog WARNING "supabase-common" (fetch_failed_msg loc day e)) ;;
      ret []
  | inr raw =>
      if negb (truthy raw) then ret []
      else
        let base_sgt := combine_midnight day in
        now <- call utcnow ;
        now_plus_1h_utc <- lift (datetime_add now US_PER_HOUR) ;
        items <- lift (py_iter raw) ;
        rows_loop loc base_sgt now_plus_1h_utc 0 items []
  end.

(** ** [upsert_rows] *)

Definition CHUNK : nat := 1000.
Definition ON_CONFLICT : string := "location_id,reading_datetime".

(** [range(0, n, step)] *)
Definition py_range_step (n step : nat) : list nat :=
  map (fun k => (k * step)%nat) (seq 0 ((n + step - 1) / step)%nat).

(** The [for i in range(0, len(rows), CHUNK)] loop. *)
Fixpoint upsert_loop (supabase : Client) (table : string)
    (rows : list (Row float)) (starts : list nat) (inserted : Z) : M Z :=
  match starts with
  | [] => ret inserted
  | i :: rest =>
      let chunk := take CHUNK (drop i rows) in
      emit (EvUpsert table chunk ON_CONFLICT) ;;
      resp <- call (execute_upsert supabase table chunk ON_CONFLICT) ;
      match resp with
      | inl e => lift (Raise (StoreError e))
      | inr data =>
          upsert_loop supabase table rows rest
            (match data with
             | Some l => inserted + Z.of_nat (length l)
             | None => inserted
             end)
      end
  end.

Definition upsert_rows (supabase : Client) (table : string)
    (rows : list (Row float)) : M Z :=
  match rows with
  | [] => ret 0
  | _ => upsert_loop supabase table rows (py_range_step (length rows) CHUNK) 0
  end.

(** ** [yesterday_sgt] *)

(** [datetime.now(SGT).date()] *)
Definition now_sgt_date : M Z :=
  now <- call utcnow ;
  local <- lift (SGT.fromutc now) ;
  ret (datetime_date local).

Definition yesterday_sgt : M Z :=
  d <- now_sgt_date ;
  lift (date_sub d 1).

(** ** The backfill job: [main] of [supabase_backfill_all.py] *)

(** The inner [for loc in LOCATIONS] loop of one day. *)
Fixpoint collect_day (api_base : string) (locs : list Location) (day : Z)
    (day_rows : list (Row float)) : M (list (Row float)) :=
  match locs with
  | [] => ret day_rows
  | loc :: rest =>
      rows <- build_rows api_base loc day ;
      emit (EvSleep 50) ;;
      pass sleep ;;
      collect_day api_base rest day (day_rows ++ rows)
  end.

(** The variables of the [while] loop.  [history] is a ghost record of the
    days processed so far, latest first, each with its affected count:
    [days_processed] counts it and [total_affected] sums it. *)
Record Walk : Type := {
  cur : Z;
  empty_streak : Z;
  total_affected : Z;
  days_processed : Z;
  history : list (Z * Z)
}.

Definition LOGGER : string := "supabase-backfill-all".

Definition msg_no_data (day streak threshold : Z) : string :=
  date_isoformat day +:+ ": no data (empty streak " +:+ str_of_Z streak
  +:+ "/" +:+ str_of_Z threshold +:+ ")".

Definition msg_upserted (day affected : Z) : string :=
  date_isoformat day +:+ ": upserted " +:+ str_of_Z affected.

Definition msg_stopping : string :=
  "Stopping due to consecutive empty days threshold reached.".

(** The body of the loop up to the test of the threshold (lines 56-69). *)
Definition walk_day (api_base table : string) (supabase : Client)
    (empty_chunks_to_stop : Z) (w : Walk) : M Walk :=
  day_rows <- collect_day api_base LOCATIONS (cur w) [] ;
  affected <- upsert_rows supabase table day_rows ;
  let streak := if affected =? 0 then empty_streak w + 1 else 0 in
  emit (EvLog INFO LOGGER
          (if affected =? 0
           then msg_no_data (cur w) streak empty_chunks_to_stop
           else msg_upserted (cur w) affected)) ;;
  ret {| cur := cur w;
         empty_streak := streak;
         total_affected := total_affected w + affected;
         days_processed := days_processed w + 1;
         history := (cur w, affected) :: history w |}.

(** The [while cur >= stop_before] loop.  [fuel] bounds the number of
    iterations; [walk] below gives it the number of days left down to
    [stop_before], which is never used up ([walk_unfold]). *)
Fixpoint walk_fuel (fuel : nat) (api_base table : string) (supabase : Client)
    (empty_chunks_to_stop stop_before : Z) (w : Walk) : M Walk :=
  if cur w <? stop_before then ret w
  else
    match fuel with
    | O => ret w
    | S fuel' =>
        w1 <- walk_day api_base table supabase empty_chunks_to_stop w ;
        if empty_streak w1 >=? empty_chunks_to_stop then
          emit (EvLog INFO LOGGER msg_stopping) ;;
          ret w1
        else
          prev <- lift (date_sub (cur w1) 1) ;
          walk_fuel fuel' api_base table supabase empty_chunks_to_stop
            stop_before
            {| cur := prev;
               empty_streak := empty_streak w1;
               total_affected := total_affected w1;
               days_processed := days_processed w1;
               history := history w1 |}
    end.

Definition walk (api_base table : string) (supabase : Client)
    (empty_chunks_to_stop stop_before : Z) (w : Walk) : M Walk :=
  walk_fuel (Z.to_nat (cur w - stop_before + 1)) api_base table supabase
    empty_chunks_to_stop stop_before w.

(** [os.getenv(k, default)] and [os.environ[k]] on the environment as
    [load_dotenv()] leaves it. *)
Definition getenv (env : gmap string string) (k default : string) : string :=
  match env !! k with Some v => v | None => default end.

Definition environ (env : gmap string string) (k : string) : Res string :=
  match env !! k with Some v => Ok v | None => Raise (KeyError k) end.

Definition int_of (s : string) : Res Z :=
  match py_int s with Some n => Ok n | None => Raise (ValueError s) end.

(** Lines 37-38. *)
Definition configured (env : gmap string string) (k default : string)
  : Res Z :=
  match int_of (getenv env k default) with
  | Ok n => Ok (Z.max 1 n)
  | Raise e => Raise e
  end.

Definition msg_starting (end_day stop_before threshold : Z) : string :=
  "Starting backfill at " +:+ date_isoformat end_day +:+ ", stopping before "
  +:+ date_isoformat stop_before +:+ ", empty threshold="
  +:+ str_of_Z threshold.

Definition msg_complete (days total : Z) : string :=
  "Backfill complete. Days processed=" +:+ str_of_Z days
  +:+ ", total rows affected=" +:+ str_of_Z total.

(** The configuration of a run on this platform. *)
Definition Setup : Type := Configuration Client.

(** Lines 32-48. *)
Definition setup (env : gmap string string) : M Setup :=
  let api_base := rstrip "/" (getenv env "API_BASE_URL" API_DEFAULT) in
  let table := getenv env "SUPABASE_TABLE" "meter_readings" in
  empty_chunks_to_stop <- lift (configured env "EMPTY_CHUNKS_TO_STOP" "2") ;
  max_years <- lift (configured env "BACKFILL_MAX_YEARS" "5") ;
  supabase_url <- lift (environ env "SUPABASE_URL") ;
  supabase_key <- lift (environ env "SUPABASE_ANON_KEY") ;
  supabase <- lift (create_client supabase_url supabase_key) ;
  today_sgt <- now_sgt_date ;
  end_day <- yesterday_sgt ;
  delta <- lift (timedelta_days (365 * max_years)) ;
  stop_before <- lift (date_sub today_sgt delta) ;
  emit (EvLog INFO LOGGER
          (msg_starting end_day stop_before empty_chunks_to_stop)) ;;
  ret {| api_base_of := api_base;
         table_of := table;
         threshold_of := empty_chunks_to_stop;
         max_years_of := max_years;
         client_of := supabase;
         today_of := today_sgt;
         end_of := end_day;
         stop_before_of := stop_before |}.

Definition initial_walk (end_day : Z) : Walk :=
  {| cur := end_day; empty_streak := 0; total_affected := 0;
     days_processed := 0; history := [] |}.

Definition main (env : gmap string string) : M Walk :=
  c <- setup env ;
  w <- walk (api_base_of c) (table_of c) (client_of c) (threshold_of c)
         (stop_before_of c) (initial_walk (end_of c)) ;
  emit (EvLog INFO LOGGER
          (msg_complete (days_processed w) (total_affected w))) ;;
  ret w.

(** The daily job: [main] of [supabase_daily.py]. *)
Definition main_daily (env : gmap string string) : M Z :=
  let api_base := rstrip "/" (getenv env "API_BASE_URL" API_DEFAULT) in
  let table := getenv env "SUPABASE_TABLE" "meter_readings" in
  supabase_url <- lift (environ env "SUPABASE_URL") ;
  supabase_key <- lift (environ env "SUPABASE_ANON_KEY") ;
  supabase <- lift (create_client supabase_url supabase_key) ;
  day <- yesterday_sgt ;
  day_rows <- collect_day api_base LOCATIONS day [] ;
  affected <- upsert_rows supabase table day_rows ;
  emit (EvLog INFO "supabase-daily"
          ("Inserted/updated " +:+ str_of_Z affected +:+ " rows for "
           +:+ date_isoformat day)) ;;
  ret affected.

End Program.

Notation "x <- m ; k" := (bind m (fun x => k))
  (at level 100, m at next level, right associativity).
Notation "m ;; k" := (bind m (fun _ => k))
  (at level 100, right associativity).

(** ** A simulated platform

    A deterministic stand-in for the outside, used to run the scripts on
    concrete inputs: readings are exact decimals, the API answers from a
    table of canned responses, the clock advances on every reading of it
    and the store keeps the rows it is sent. *)

Module Sim.

(** [mantissa * 10 ^ exponent] *)
Record Dec : Type := { mantissa : Z; exponent : Z }.

(** Plain decimal literals: digits with at most one point among them. *)
Fixpoint parse_dec (seen frac : bool) (m e : Z) (s : list ascii)
  : option Dec :=
  match s with
  | [] => if seen then Some {| mantissa := m; exponent := e |} else None
  | c :: r =>
      match digit_val c with
      | Some d => parse_dec true frac (10 * m + d) (if frac then e - 1 else e) r
      | None =>
          if Ascii.eqb c "." && negb frac then parse_dec seen true m e r
          else None
      end
  end.

Definition float_of (v : JSON Dec) : option Dec :=
  match v with
  | JBool b => Some {| mantissa := if b then 1 else 0; exponent := 0 |}
  | JInt n => Some {| mantissa := n; exponent := 0 |}
  | JFloat x => Some x
  | JStr s =>
      match list_ascii_of_string s with
      | "-"%char :: r =>
          (fun d => {| mantissa := - mantissa d; exponent := exponent d |})
            <$> parse_dec false false 0 0 r
      | t => parse_dec false false 0 0 t
      end
  | _ => None
  end.

Record SimWorld : Type := {
  sim_clock : Z;
  sim_api : list (string * (string + JSON Dec));
  sim_store_up : bool;
  sim_table : list (Row Dec)
}.

Fixpoint assoc {A} (k : string) (l : list (string * A)) : option A :=
  match l with
  | [] => None
  | (k', v) :: r => if String.eqb k' k then Some v else assoc k r
  end.

(** URLs without a canned response answer with an empty list. *)
Definition get (url : string) (w : SimWorld)
  : (string + JSON Dec) * SimWorld :=
  (match assoc url (sim_api w) with Some r => r | None => inr (JList []) end,
   w).

(** Reading the clock takes a millisecond. *)
Definition now (w : SimWorld) : Z * SimWorld :=
  (sim_clock w,
   {| sim_clock := sim_clock w + 1000; sim_api := sim_api w;
      sim_store_up := sim_store_up w; sim_table := sim_table w |}).

Definition nap (w : SimWorld) : SimWorld :=
  {| sim_clock := sim_clock w + 50000; sim_api := sim_api w;
     sim_store_up := sim_store_up w; sim_table := sim_table w |}.

Definition same_key (a b : Row Dec) : bool :=
  String.eqb (location_id a) (location_id b)
  && String.eqb (reading_datetime a) (reading_datetime b).

Definition upsert_one (table : list (Row Dec)) (r : Row Dec)
  : list (Row Dec) :=
  List.filter (fun x => negb (same_key x r)) table ++ [r].

Definition row_json (r : Row Dec) : JSON Dec :=
  JDict [ ("location_id", JStr (location_id r));
          ("location_name", JStr (location_name r));
          ("reading_value",
            match reading_value r with Some x => JFloat x | None => JNull end);
          ("reading_datetime", JStr (reading_datetime r));
          ("created_at", JStr (created_at r)) ].

(** The store answers with the rows it wrote, or raises when it is down. *)
Definition execute (client : string * string) (table : string)
    (chunk : list (Row Dec)) (on_conflict : string) (w : SimWorld)
  : (string + option (list (JSON Dec))) * SimWorld :=
  if sim_store_up w then
    (inr (Some (map row_json chunk)),
     {| sim_clock := sim_clock w; sim_api := sim_api w;
        sim_store_up := true;
        sim_table := fold_left upsert_one chunk (sim_table w) |})
  else (inl "store unavailable", w).

Definition platform : Platform :=
  {| float := Dec;
     float_is_zero := fun x => mantissa x =? 0;
     py_float := float_of;
     World := SimWorld;
     http_get_json := get;
     utcnow := now;
     sleep := nap;
     Client := (string * string)%type;
     create_client := fun url key => Ok (url, key);
     execute_upsert := execute |}.

Definition start (clock : Z) (api : list (string * (string + JSON Dec)))
  : @State platform :=
  {| world := {| sim_clock := clock; sim_api := api; sim_store_up := true;
                 sim_table := [] |} : @World platform;
     trace := [] |}.

End Sim.

(** ** Vocabulary of the properties *)

Section Vocabulary.

Context {P : Platform}.

(** The wall clock of entry [i] of a day, and the instant it denotes. *)
Definition local_instant (day i : Z) : Z :=
  combine_midnight day + i * US_PER_MINUTE.

Definition utc_instant (day i : Z) : Z :=
  local_instant day i - SGT.utcoffset (local_instant day i).

(** Entry [i] lies within the range of [datetime] (years 1 to 9999), on the
    wall clock and in UTC. *)
Definition representable (day i : Z) : bool :=
  valid_datetime (local_instant day i) && valid_datetime (utc_instant day i).

(** The future-guard of line 108. *)
Definition in_future (now_plus_1h_utc day i : Z) : bool :=
  utc_instant day i >? now_plus_1h_utc.

(** [enumerate(items, start=i)] *)
Fixpoint enumerate_from {A} (i : Z) (l : list A) : list (Z * A) :=
  match l with
  | [] => []
  | x :: r => (i, x) :: enumerate_from (i + 1) r
  end.

Definition all_representable {A} (day i : Z) (l : list A) : bool :=
  forallb (fun p => representable day (fst p)) (enumerate_from i l).

(** The entries that pass the future-guard. *)
Definition kept {A} (now_plus_1h_utc day : Z) (l : list (Z * A))
  : list (Z * A) :=
  List.filter (fun p => negb (in_future now_plus_1h_utc day (fst p))) l.

(** The record of entry [p = (i, item)], whatever its [created_at]. *)
Definition is_row_of (loc : Location) (day : Z) (p : Z * JSON float)
    (r : Row float) : Prop :=
  location_id r = ID loc /\
  location_name r = Name loc /\
  reading_value r = reading_of (snd p) /\
  reading_datetime r = utc_isoformat (utc_instant day (fst p)).

(** An entry whose reading is absent, null, or not convertible by
    [float()]. *)
Definition reading_missing (item : JSON float) : Prop :=
  match item with
  | JDict items =>
      match dict_get "reading" items with
      | None => True
      | Some JNull => True
      | Some v => py_float v = None
      end
  | _ => True
  end.

(** [f] holds of the [n] integers from [z] on; it is evaluated to settle
    the finitely many cases of the calendar below. *)
Fixpoint all_from (n : nat) (z : Z) (f : Z -> bool) : bool :=
  match n with
  | O => true
  | S n' => f z && all_from n' (z + 1) f
  end.

(** The year of [_ord2ymd] for [n100] centuries, [n4] four-year spans and
    [n1] years into a 400-year cycle: the days before it, and whether it is
    a leap year, are as the function takes them to be. *)
Definition year_check (n100 n4 n1 : Z) : bool :=
  let year := 1 + (n100 * 100 + n4 * 4 + n1) in
  (_days_before_year year =? n100 * _DI100Y + n4 * _DI4Y + n1 * 365)
  && Bool.eqb (_is_leap year)
       ((n1 =? 3) && (negb (n4 =? 24) || (n100 =? 3))).

(** The month and day of [_ord2ymd] for day [n] (from 0) of a year: there
    are [n] days before that day of that month. *)
Definition day_check (leapyear : bool) (n : Z) : bool :=
  let month := Z.shiftr (n + 50) 5 in
  let preceding :=
    _DAYS_BEFORE_MONTH month + (if (month >? 2) && leapyear then 1 else 0) in
  let '(m, d) :=
    if preceding >? n then
      let month := month - 1 in
      let preceding :=
        preceding
        - (_DAYS_IN_MONTH month + (if (month =? 2) && leapyear then 1 else 0)) in
      (month, n - preceding + 1)
    else (month, n - preceding + 1) in
  (_DAYS_BEFORE_MONTH m + (if (m >? 2) && leapyear then 1 else 0) + d =? n + 1)
  && (1 <=? m) && (m <=? 12) && (1 <=? d) && (d <=? 31).

(** The uniqueness key of the table. *)
Definition key_of (r : Row float) : string * string :=
  (location_id r, reading_datetime r).

(** What the fetch of [build_rows] answers in state [s], and the reading of
    the clock of line 102 that follows it. *)
Definition response (api_base : string) (loc : Location) (day : Z)
    (s : State) : string + JSON float :=
  fst (http_get_json (fetch_url api_base loc day) (world s)).

Definition build_time (api_base : string) (loc : Location) (day : Z)
    (s : State) : Z :=
  fst (utcnow (snd (http_get_json (fetch_url api_base loc day) (world s)))).

End Vocabulary.

(** The value a run returns, if it does not raise. *)
Definition outcome {P : Platform} {A} (r : Res A * State) : option A :=
  match fst r with Ok a => Some a | Raise _ => None end.

(** ** Vocabulary of the store *)

Section StoreVocabulary.

Context {P : Platform}.

(** The chunks [rows[i:i + CHUNK]] of the loop of [upsert_rows]. *)
Definition chunks_of (rows : list (Row float)) : list (list (Row float)) :=
  map (fun i => take CHUNK (drop i rows)) (py_range_step (length rows) CHUNK).

(** What the store answers to a sequence of calls made from world [w], and
    the world after them. *)
Fixpoint replies (supabase : Client) (table : string)
    (chunks : list (list (Row float))) (w : World)
  : list (string + option (list (JSON float))) * World :=
  match chunks with
  | [] => ([], w)
  | c :: rest =>
      let '(r, w1) := execute_upsert supabase table c ON_CONFLICT w in
      let '(rs, w2) := replies supabase table rest w1 in
      (r :: rs, w2)
  end.

Definition succeeded (r : string + option (list (JSON float))) : bool :=
  match r with inr _ => true | inl _ => false end.

(** The affected count of one call: [len(resp.data)] when that is a list. *)
Definition affected_of (r : string + option (list (JSON float))) : Z :=
  match r with
  | inr (Some l) => Z.of_nat (length l)
  | _ => 0
  end.

Definition sum_affected (rs : list (string + option (list (JSON float))))
  : Z :=
  fold_right (fun r acc => affected_of r + acc) 0 rs.

End StoreVocabulary.

(** ** Vocabulary of the walk *)

(** The empty streak after the days of a history (latest day first): the
    number of consecutive days with zero affected rows at its head. *)
Fixpoint streak_of (h : list (Z * Z)) : Z :=
  match h with
  | [] => 0
  | (_, affected) :: earlier =>
      if affected =? 0 then streak_of earlier + 1 else 0
  end.
(** The variables of the loop after line 75, [cur = cur - timedelta(days=1)]. *)
Definition moved_back (w1 : Walk) (prev : Z) : Walk :=
  {| cur := prev;
     empty_streak := empty_streak w1;
     total_affected := total_affected w1;
     days_processed := days_processed w1;
     history := history w1 |}.

(** What holds at the head of the loop: the streak is that of the history,
    it is below the threshold, and it was below the threshold before every
    earlier day as well. *)
Definition head_invariant (threshold : Z) (w : Walk) : Prop :=
  empty_streak w = streak_of (history w) /\
  days_processed w = Z.of_nat (length (history w)) /\
  forall later earlier,
    history w = later ++ earlier -> streak_of earlier < threshold.

(** What holds of the walk when it returns: the streak was below the
    threshold before every day but, possibly, the last. *)
Definition stopped_at_first (threshold : Z) (w : Walk) : Prop :=
  empty_streak w = streak_of (history w) /\
  days_processed w = Z.of_nat (length (history w)) /\
  forall later earlier,
    history w = later ++ earlier -> later <> [] ->
    streak_of earlier < threshold.

Section TraceVocabulary.

Context {P : Platform}.

(** Every event that [m] adds to the trace satisfies [Q], whether [m]
    returns or raises. *)
Definition emits {A} (Q : Event float -> Prop) (m : M A) : Prop :=
  forall s, exists evs,
    trace (snd (m s)) = trace s ++ evs /\ Forall Q evs.

(** A request is for a day between [lo] and [hi]. *)
Definition fetches_within (api_base : string) (lo hi : Z)
    (e : Event float) : Prop :=
  match e with
  | EvGet url _ =>
      exists loc day, url = fetch_url api_base loc day /\ lo <= day <= hi
  | _ => True
  end.

End TraceVocabulary.

(** ** Concrete runs on the simulated platform *)

Module Scenario.

Definition school : Location :=
  {| ID := "15490"; Name := "Singapore Sports School" |}.

Definition day_2024_03_10 : Z := _ymd2ord 2024 3 10.

(** Ninety readings of 60 dB and a last one that is no number. *)
Definition minutes91 : list (JSON Sim.Dec) :=
  repeat (JDict [("reading", JInt 60)]) 90 ++ [JDict [("reading", JStr "bad")]].

Definition api_2024 : list (string * (string + JSON Sim.Dec)) :=
  [ (fetch_url API_DEFAULT school day_2024_03_10, inr (JList minutes91)) ].

(** The clock reads 2024-03-11T00:00:00Z: the whole day is in the past. *)
Definition day_after : @State Sim.platform :=
  Sim.start (combine_midnight (day_2024_03_10 + 1)) api_2024.

(** The clock reads 2024-03-09T16:29:30Z, half a minute before 00:30 local
    time: with the hour of tolerance, entries 0 to 89 have happened and
    entry 90 (01:30 local time) has not. *)
Definition early_morning : @State Sim.platform :=
  Sim.start (combine_midnight day_2024_03_10 - 8 * US_PER_HOUR
             + 29 * US_PER_MINUTE + 30 * US_PER_SECOND) api_2024.

End Scenario.

(** A day of 1942: at midnight of 1942-02-16 the clocks of Singapore went
    from +07:30 to +09:00, so that the wall-clock times 00:00 to 01:29 of
    that day never were. *)
Module Scenario1942.

Definition day_1942_02_16 : Z := _ymd2ord 1942 2 16.

Definition minutes91 : list (JSON Sim.Dec) :=
  repeat (JDict [("reading", JInt 60)]) 91.

Definition api_1942 : list (string * (string + JSON Sim.Dec)) :=
  [ (fetch_url API_DEFAULT Scenario.school day_1942_02_16,
     inr (JList minutes91)) ].

Definition today : @State Sim.platform :=
  Sim.start (combine_midnight (Scenario.day_2024_03_10 + 1)) api_1942.

Definition rows : list (Row Sim.Dec) :=
  Eval vm_compute in
    default [] (outcome (@build_rows Sim.platform API_DEFAULT Scenario.school
                           day_1942_02_16 today)).

End Scenario1942.

Module ScenarioBatch.

(** A batch of 2500 records. *)
Definition batch2500 : list (Row Sim.Dec) :=
  repeat {| location_id := "15490";
            location_name := "Singapore Sports School";
            reading_value := Some {| Sim.mantissa := 412; Sim.exponent := -1 |};
            reading_datetime := "2024-03-09T16:00:00+00:00";
            created_at := "2024-03-11T00:00:00.001000+00:00" |} 2500.

End ScenarioBatch.

Module ScenarioOutage.

(** The API is unreachable for the first device and answers the others
    with no data. *)
Definition api_down : list (string * (string + JSON Sim.Dec)) :=
  [ (fetch_url API_DEFAULT Scenario.school Scenario.day_2024_03_10,
     inl "HTTPConnectionPool: Read timed out. (read timeout=30)") ].

Definition state : @State Sim.platform :=
  Sim.start (combine_midnight (Scenario.day_2024_03_10 + 1)) api_down.

End ScenarioOutage.

(** A backfill started at 2024-03-11T00:00:00Z (08:00 in Singapore), with
    affected counts 5, 0, 0 and 3 for the days from 2024-03-10 back. *)
Module ScenarioBackfill.

Definition env : gmap string string :=
  list_to_map [ ("SUPABASE_URL", "https://project.supabase.co");
                ("SUPABASE_ANON_KEY", "anon-key");
                ("EMPTY_CHUNKS_TO_STOP", "2");
                ("BACKFILL_MAX_YEARS", "1") ].

(** The same, with values below 1 for the two parameters. *)
Definition env_low : gmap string string :=
  list_to_map [ ("SUPABASE_URL", "https://project.supabase.co");
                ("SUPABASE_ANON_KEY", "anon-key");
                ("EMPTY_CHUNKS_TO_STOP", "0");
                ("BACKFILL_MAX_YEARS", "-3") ].

Definition first_day : Z := Scenario.day_2024_03_10.

Definition readings (n : nat) : string + JSON Sim.Dec :=
  inr (JList (repeat (JDict [("reading", JInt 60)]) n)).

Definition api : list (string * (string + JSON Sim.Dec)) :=
  [ (fetch_url API_DEFAULT Scenario.school first_day, readings 5);
    (fetch_url API_DEFAULT Scenario.school (first_day - 3), readings 3) ].

Definition boot : @State Sim.platform :=
  Sim.start (combine_midnight (first_day + 1)) api.

Definition config : @Setup Sim.platform :=
  Build_Configuration API_DEFAULT "meter_readings" 2 1
    ("https://project.supabase.co", "anon-key")
    (first_day + 1) first_day (first_day + 1 - 365).

Definition config_low : @Setup Sim.platform :=
  Build_Configuration API_DEFAULT "meter_readings" 1 1
    ("https://project.supabase.co", "anon-key")
    (first_day + 1) first_day (first_day + 1 - 365).

(** The state in which the loop starts. *)
Definition started : @State Sim.platform :=
  Eval vm_compute in snd (@setup Sim.platform env boot).

Definition started_low : @State Sim.platform :=
  Eval vm_compute in snd (@setup Sim.platform env_low boot).

(** The variables of the loop when the walk has returned, and the state
    then. *)
Definition final : Walk :=
  {| cur := first_day - 2;
     empty_streak := 2;
     total_affected := 5;
     days_processed := 3;
     history := [(first_day - 2, 0); (first_day - 1, 0); (first_day, 5)] |}.

Definition finished : @State Sim.platform :=
  Eval vm_compute in
    snd (@walk Sim.platform API_DEFAULT "meter_readings"
           ("https://project.supabase.co", "anon-key") 2
           (first_day + 1 - 365) (initial_walk first_day) started).

(** The variables of the loop before and after the third day. *)
Definition before_third : Walk :=
  {| cur := first_day - 2;
     empty_streak := 1;
     total_affected := 5;
     days_processed := 2;
     history := [(first_day - 1, 0); (first_day, 5)] |}.

Definition after_third : @State Sim.platform :=
  Eval vm_compute in
    snd (@walk_day Sim.platform API_DEFAULT "meter_readings"
           ("https://project.supabase.co", "anon-key") 2 before_third started).

(** Whether a trace holds a request for [day]. *)
Definition asked_for (day : Z) (t : list (Event Sim.Dec)) : bool :=
  existsb (fun e =>
             match e with
             | EvGet url _ =>
                 existsb (fun loc => String.eqb url (fetch_url API_DEFAULT loc day))
                   LOCATIONS
             | _ => false
             end) t.

End ScenarioBackfill.

(** ** Vocabulary of the further properties *)

Section MoreVocabulary.

Context {P : Platform}.

(** What of a record the store is given to keep apart from [created_at]. *)
Definition stored_fields (r : Row float)
  : string * string * option float * string :=
  (location_id r, location_name r, reading_value r, reading_datetime r).

(** The record belongs to the device. *)
Definition row_from (loc : Location) (r : Row float) : Prop :=
  location_id r = ID loc /\ location_name r = Name loc.

(** The URLs requested in a trace, in order. *)
Fixpoint requests (t : list (Event float)) : list string :=
  match t with
  | [] => []
  | EvGet url _ :: rest => url :: requests rest
  | _ :: rest => requests rest
  end.

(** The chunks sent to the store in a trace, in order. *)
Fixpoint upserts (t : list (Event float)) : list (list (Row float)) :=
  match t with
  | [] => []
  | EvUpsert _ chunk _ :: rest => chunk :: upserts rest
  | _ :: rest => upserts rest
  end.

End MoreVocabulary.

Module ScenarioYearOne.

(** The first day of the calendar, 0001-01-01: its midnight in Singapore
    lies before the first instant that [datetime] can hold in UTC. *)
Definition api : list (string * (string + JSON Sim.Dec)) :=
  [ (fetch_url API_DEFAULT Scenario.school 1,
     inr (JList [JDict [("reading", JInt 60)]])) ].

Definition state : @State Sim.platform :=
  Sim.start (combine_midnight (Scenario.day_2024_03_10 + 1)) api.

End ScenarioYearOne.

Module ScenarioOddBodies.

(** Bodies that are JSON but no list of readings. *)
Definition url : string :=
  fetch_url API_DEFAULT Scenario.school Scenario.day_2024_03_10.

Definition clock : Z := combine_midnight (Scenario.day_2024_03_10 + 1).

Definition no_data : @State Sim.platform := Sim.start clock [].

Definition number : @State Sim.platform :=
  Sim.start clock [(url, inr (JInt 5))].

Definition error_object : list (string * JSON Sim.Dec) :=
  [("error", JStr "device not found"); ("status", JInt 404)].

Definition object : @State Sim.platform :=
  Sim.start clock [(url, inr (JDict error_object))].

(** The state of [Scenario.day_after], a day later. *)
Definition later : @State Sim.platform :=
  Sim.start (clock + US_PER_DAY) Scenario.api_2024.

End ScenarioOddBodies.

(** The simulated platform with a store that writes the rows and answers
    without them: [resp.data] is then no list. *)
Module SimQuiet.

Definition execute (client : string * string) (table : string)
    (chunk : list (Row Sim.Dec)) (on_conflict : string) (w : Sim.SimWorld)
  : (string + option (list (JSON Sim.Dec))) * Sim.SimWorld :=
  match Sim.execute client table chunk on_conflict w with
  | (inr _, w') => (inr None, w')
  | r => r
  end.

Definition platform : Platform :=
  {| float := Sim.Dec;
     float_is_zero := fun x => Sim.mantissa x =? 0;
     py_float := Sim.float_of;
     World := Sim.SimWorld;
     http_get_json := Sim.get;
     utcnow := Sim.now;
     sleep := Sim.nap;
     Client := (string * string)%type;
     create_client := fun url key => Ok (url, key);
     execute_upsert := execute |}.

End SimQuiet.

Module ScenarioStore.

(** A store that is down. *)
Definition down : @State Sim.platform :=
  {| world := {| Sim.sim_clock := 0; Sim.sim_api := [];
                 Sim.sim_store_up := false; Sim.sim_table := [] |};
     trace := [] |}.

Definition three : list (Row Sim.Dec) := take 3 ScenarioBatch.batch2500.

End ScenarioStore.

Module ScenarioAbort.

(** The second device answers with a number. *)
Definition second : Location :=
  {| ID := "16034"; Name := "BLK 120 Serangoon North Ave 1" |}.

Definition api : list (string * (string + JSON Sim.Dec)) :=
  [ (fetch_url API_DEFAULT second Scenario.day_2024_03_10, inr (JInt 5)) ].

Definition state : @State Sim.platform :=
  Sim.start (combine_midnight (Scenario.day_2024_03_10 + 1)) api.

End ScenarioAbort.

(** The sum of the affected counts of a history. *)
Definition sum_counts (h : list (Z * Z)) : Z :=
  fold_right (fun p acc => snd p + acc) 0 h.

(** The days of a history (latest first) are [first], [first - 1], ... in
    the order in which they were processed. *)
Definition walked_back_from (first : Z) (h : list (Z * Z)) : Prop :=
  forall k p, rev h !! k = Some p -> fst p = first - Z.of_nat k.

(** The readings of [ScenarioBackfill] with a store that is down. *)
Module ScenarioStoreDown.

Definition state : @State Sim.platform :=
  {| world := {| Sim.sim_clock := combine_midnight (ScenarioBackfill.first_day + 1);
                 Sim.sim_api := ScenarioBackfill.api;
                 Sim.sim_store_up := false; Sim.sim_table := [] |};
     trace := [] |}.

Definition collected : list (Row Sim.Dec) * @State Sim.platform :=
  Eval vm_compute in
    match @collect_day Sim.platform API_DEFAULT LOCATIONS
            ScenarioBackfill.first_day [] state with
    | (Ok rows, s1) => (rows, s1)
    | (Raise _, s1) => ([], s1)
    end.

End ScenarioStoreDown.

(** Text in ASCII, on which [py_int] is [int]. *)
Definition ascii_text (s : string) : bool :=
  forallb (fun c => (nat_of_ascii c <? 128)%nat) (list_ascii_of_string s).

(** The two readings of the clock at the startup of the backfill. *)
Definition first_reading {P : Platform} (s : State) : Z :=
  fst (utcnow (world s)).

Definition second_reading {P : Platform} (s : State) : Z :=
  fst (utcnow (snd (utcnow (world s)))).

Module ScenarioStartup.

(** The byte [chr(28)], a separator that [str.strip] removes and [int]
    does not skip. *)
Definition FS : ascii := "028"%char.

(** No credentials, and for the threshold a 2 after a separator. *)
Definition env_bad : gmap string string :=
  list_to_map [ ("EMPTY_CHUNKS_TO_STOP", String FS "2") ].

Definition env_no_key : gmap string string :=
  list_to_map [ ("SUPABASE_URL", "https://project.supabase.co") ].

End ScenarioStartup.

(** A backfill with a threshold of one empty day over a device that has
    readings for its first two days, and the same backfill when the fetch
    of the first day times out. *)
Module ScenarioLostDays.

Definition env : gmap string string :=
  list_to_map [ ("SUPABASE_URL", "https://project.supabase.co");
                ("SUPABASE_ANON_KEY", "anon-key");
                ("EMPTY_CHUNKS_TO_STOP", "1");
                ("BACKFILL_MAX_YEARS", "1") ].

Definition first_day : Z := Scenario.day_2024_03_10.


Definition api : list (string * (string + JSON Sim.Dec)) :=
  [ (fetch_url API_DEFAULT Scenario.school first_day,
     ScenarioBackfill.readings 5);
    (fetch_url API_DEFAULT Scenario.school (first_day - 1),
     ScenarioBackfill.readings 3) ].





End ScenarioLostDays.

(** * Properties *)

Section MonadLaws.

Context {P : Platform}.

Lemma bind_ret {A B} (a : A) (k : A -> M B) s : bind (ret a) k s = k a s.
Proof. reflexivity. Qed.

Lemma bind_lift_Ok {A B} (a : A) (k : A -> M B) s :
  bind (lift (Ok a)) k s = k a s.
Proof. reflexivity. Qed.

Lemma bind_lift_Raise {A B} e (k : A -> M B) s :
  bind (lift (Raise e)) k s = (Raise e, s).
Proof. reflexivity. Qed.

Lemma bind_emit {B} e (k : unit -> M B) s :
  bind (emit e) k s = k tt {| world := world s; trace := trace s ++ [e] |}.
Proof. reflexivity. Qed.

Lemma bind_call {A B} (f : World -> A * World) (k : A -> M B) s :
  bind (call f) k s =
  k (fst (f (world s))) {| world := snd (f (world s)); trace := trace s |}.
Proof. unfold bind, call. destruct (f (world s)); reflexivity. Qed.


Lemma bind_assoc {A B C} (m : M A) (k : A -> M B) (h : B -> M C) s :
  bind (bind m k) h s = bind m (fun a => bind (k a) h) s.
Proof. unfold bind. destruct (m s) as [[a|e] s']; reflexivity. Qed.

End MonadLaws.

(** ** The loop of [build_rows] *)

Section RowsLoop.

Context {P : Platform}.

Lemma all_representable_cons {A} day i (x : A) l :
  all_representable day i (x :: l) = true ->
  valid_datetime (local_instant day i) = true /\
  valid_datetime (utc_instant day i) = true /\
  all_representable day (i + 1) l = true.
Proof.
  unfold all_representable; simpl. unfold representable at 1.
  rewrite !andb_true_iff. tauto.
Qed.

(** With every entry in range, the loop returns, leaves the trace alone and
    appends one record per entry that passes the future-guard, in order. *)
Lemma rows_loop_spec loc day now1h items : forall i rows s,
  all_representable day i items = true ->
  exists out s',
    rows_loop loc (combine_midnight day) now1h i items rows s
      = (Ok (rows ++ out), s') /\
    trace s' = trace s /\
    Forall2 (is_row_of loc day) (kept now1h day (enumerate_from i items)) out.
Proof.
  induction items as [|item rest IH]; intros i rows s Hrep.
  - exists [], s. simpl. rewrite app_nil_r. repeat split. constructor.
  - apply all_representable_cons in Hrep as (Hl & Hu & Hrest).
    cbn [rows_loop].
    unfold datetime_add. fold (local_instant day i). rewrite Hl, bind_lift_Ok.
    unfold SGT.astimezone_utc. fold (utc_instant day i).
    rewrite Hu, bind_lift_Ok.
    unfold kept; cbn [enumerate_from List.filter fst]. fold (@kept (JSON float) now1h day).
    unfold in_future at 1.
    destruct (utc_instant day i >? now1h) eqn:Hf; cbn [negb].
    + apply IH. exact Hrest.
    + rewrite bind_call.
      edestruct (IH (i + 1)) as (out & s' & Hrun & Htr & Hall); [exact Hrest|].
      eexists (_ :: out), s'. split; [|split].
      * rewrite Hrun. rewrite <- app_assoc. reflexivity.
      * rewrite Htr. reflexivity.
      * constructor; [|exact Hall]. repeat split.
Qed.

End RowsLoop.

(** ** The calendar: [_ord2ymd] is injective on valid dates *)

Section CalendarFacts.

Lemma all_from_spec n f : forall z,
  all_from n z f = true ->
  forall x, z <= x < z + Z.of_nat n -> f x = true.
Proof.
  induction n as [|n IH]; intros z H x Hx; [lia|].
  cbn [all_from] in H. apply andb_true_iff in H as [Hz Hrest].
  destruct (Z.eq_dec x z) as [->|Hne]; [exact Hz|].
  apply (IH (z + 1)); [exact Hrest|lia].
Qed.

Lemma years_checked :
  all_from 4 0 (fun n100 =>
    all_from 25 0 (fun n4 =>
      all_from 4 0 (fun n1 => year_check n100 n4 n1))) = true.
Proof. vm_compute. reflexivity. Qed.

Lemma days_checked :
  all_from 365 0 (day_check false) && all_from 365 0 (day_check true) = true.
Proof. vm_compute. reflexivity. Qed.

Lemma year_check_true n100 n4 n1 :
  0 <= n100 <= 3 -> 0 <= n4 <= 24 -> 0 <= n1 <= 3 ->
  year_check n100 n4 n1 = true.
Proof.
  intros H100 H4 H1.
  pose proof (all_from_spec _ _ _ years_checked n100 ltac:(lia)) as Ha.
  pose proof (all_from_spec _ _ _ Ha n4 ltac:(lia)) as Hb.
  exact (all_from_spec _ _ _ Hb n1 ltac:(lia)).
Qed.

Lemma day_check_true leapyear n :
  0 <= n < 365 -> day_check leapyear n = true.
Proof.
  intros Hn. pose proof days_checked as H.
  apply andb_true_iff in H as [Hf Ht].
  destruct leapyear; [exact (all_from_spec _ _ _ Ht n ltac:(lia))
                     |exact (all_from_spec _ _ _ Hf n ltac:(lia))].
Qed.

(** Within a 400-year cycle [_ymd2ord] undoes [_ord2ymd], and the fields
    are those of a date. *)
Lemma ord2ymd_cycle r :
  0 <= r < _DI400Y ->
  let '(y, m, d) := _ord2ymd (r + 1) in
  _ymd2ord y m d = r + 1 /\ 1 <= y <= 400 /\ (r <= 145730 -> y <= 399) /\
  1 <= m <= 12 /\ 1 <= d <= 31.
Proof.
  unfold _DI400Y. intros Hr. unfold _ord2ymd.
  replace (r + 1 - 1) with r by lia.
  rewrite (Z.div_small r _DI400Y), (Z.mod_small r _DI400Y)
    by (unfold _DI400Y; lia).
  cbv zeta.
  set (n100 := r / _DI100Y). set (r1 := r mod _DI100Y).
  set (n4 := r1 / _DI4Y). set (r2 := r1 mod _DI4Y).
  set (n1 := r2 / 365). set (n := r2 mod 365).
  assert (E100 : r = _DI100Y * n100 + r1 /\ 0 <= r1 < _DI100Y)
    by (split; [apply Z.div_mod|apply Z.mod_pos_bound]; unfold _DI100Y; lia).
  assert (E4 : r1 = _DI4Y * n4 + r2 /\ 0 <= r2 < _DI4Y)
    by (split; [apply Z.div_mod|apply Z.mod_pos_bound]; unfold _DI4Y; lia).
  assert (E1 : r2 = 365 * n1 + n /\ 0 <= n < 365)
    by (split; [apply Z.div_mod|apply Z.mod_pos_bound]; lia).
  clearbody n100 r1 n4 r2 n1 n. unfold _DI100Y, _DI4Y in *.
  destruct E100 as [E100 B100], E4 as [E4 B4], E1 as [E1 B1].
  assert (R100 : 0 <= n100 <= 4) by lia.
  assert (R4 : 0 <= n4 <= 24) by lia.
  assert (R1 : 0 <= n1 <= 4) by lia.
  destruct ((n1 =? 4) || (n100 =? 4)) eqn:Hlast.
  - (* the last day of a leap year, or of the cycle *)
    apply orb_true_iff in Hlast as [H|H]; apply Z.eqb_eq in H.
    + assert (Hn4 : n4 <= 23) by lia.
      assert (Hn100 : n100 <= 3) by lia.
      pose proof (year_check_true n100 n4 3 ltac:(lia) ltac:(lia) ltac:(lia))
        as Hy.
      unfold year_check in Hy. cbv zeta in Hy.
      apply andb_true_iff in Hy as [Hdays Hleap].
      apply Z.eqb_eq in Hdays. apply eqb_prop in Hleap.
      replace (n4 =? 24) with false in Hleap
        by (symmetry; apply Z.eqb_neq; lia).
      cbn in Hleap.
      replace (0 * 400 + 1 + (n100 * 100 + n4 * 4 + n1) - 1)
        with (1 + (n100 * 100 + n4 * 4 + 3)) by lia.
      unfold _ymd2ord, _days_before_month. rewrite Hdays, Hleap.
      change (_DAYS_BEFORE_MONTH 12) with 334. change (12 >? 2) with true.
      cbn [andb]. unfold _DI100Y, _DI4Y. repeat split; lia.
    + assert (Hend : r = 146096 /\ n4 = 0 /\ n1 = 0) by lia.
      destruct Hend as (Hr' & Hn4 & Hn1).
      replace (0 * 400 + 1 + (n100 * 100 + n4 * 4 + n1) - 1) with 400 by lia.
      assert (Hc : _ymd2ord 400 12 31 = 146097) by (vm_compute; reflexivity).
      rewrite Hc. repeat split; lia.
  - (* any other day *)
    apply orb_false_iff in Hlast as [H1 H100].
    apply Z.eqb_neq in H1, H100.
    pose proof (year_check_true n100 n4 n1 ltac:(lia) ltac:(lia) ltac:(lia))
      as Hy.
    unfold year_check in Hy. cbv zeta in Hy.
    apply andb_true_iff in Hy as [Hdays Hleap].
    apply Z.eqb_eq in Hdays. apply eqb_prop in Hleap.
    set (leapyear := (n1 =? 3) && (negb (n4 =? 24) || (n100 =? 3))) in *.
    pose proof (day_check_true leapyear n ltac:(lia)) as Hd.
    unfold day_check in Hd. cbv zeta in Hd.
    replace (0 * 400 + 1 + (n100 * 100 + n4 * 4 + n1))
      with (1 + (n100 * 100 + n4 * 4 + n1)) by lia.
    set (year := 1 + (n100 * 100 + n4 * 4 + n1)) in *.
    assert (Hyear : 1 <= year <= 400 /\ (r <= 145730 -> year <= 399))
      by (unfold year; lia).
    destruct (_ >? n);
      rewrite !andb_true_iff in Hd;
      destruct Hd as [[[[Hsum Hm1] Hm2] Hd1] Hd2];
      apply Z.eqb_eq in Hsum; apply Z.leb_le in Hm1, Hm2, Hd1, Hd2;
      unfold _ymd2ord, _days_before_month; rewrite Hleap, Hdays;
      unfold _DI100Y, _DI4Y; repeat split; lia.
Qed.

Lemma days_before_year_shift q y :
  _days_before_year (400 * q + y) = _DI400Y * q + _days_before_year y.
Proof.
  unfold _days_before_year, _DI400Y.
  replace (400 * q + y - 1) with (y - 1 + q * 400) by lia.
  replace ((y - 1 + q * 400) / 4) with ((y - 1) / 4 + q * 100)
    by (replace (q * 400) with (q * 100 * 4) by lia;
        rewrite Z.div_add by lia; reflexivity).
  replace ((y - 1 + q * 400) / 100) with ((y - 1) / 100 + q * 4)
    by (replace (q * 400) with (q * 4 * 100) by lia;
        rewrite Z.div_add by lia; reflexivity).
  rewrite Z.div_add by lia. lia.
Qed.

Lemma is_leap_shift q y : _is_leap (400 * q + y) = _is_leap y.
Proof.
  unfold _is_leap.
  replace (400 * q + y) with (y + q * 100 * 4) at 1 by lia.
  replace (400 * q + y) with (y + q * 4 * 100) at 1 by lia.
  replace (400 * q + y) with (y + q * 400) by lia.
  rewrite !Z.mod_add by lia. reflexivity.
Qed.

Lemma ymd2ord_shift q y m d :
  _ymd2ord (400 * q + y) m d = _DI400Y * q + _ymd2ord y m d.
Proof.
  unfold _ymd2ord, _days_before_month.
  rewrite days_before_year_shift, is_leap_shift. lia.
Qed.

(** The date of an ordinal is that of its place in the 400-year cycle,
    with the years of the whole cycles before it added. *)
Lemma ord2ymd_shift q r :
  0 <= r < _DI400Y ->
  _ord2ymd (_DI400Y * q + r + 1) =
  let '(y, m, d) := _ord2ymd (r + 1) in (400 * q + y, m, d).
Proof.
  intros Hr. unfold _ord2ymd.
  replace (_DI400Y * q + r + 1 - 1) with (r + q * _DI400Y) by lia.
  replace (r + 1 - 1) with r by lia.
  rewrite Z.div_add, Z.mod_add by (unfold _DI400Y; lia).
  rewrite (Z.div_small r), (Z.mod_small r) by lia.
  cbv zeta.
  repeat match goal with
         | |- context [if ?b then _ else _] => destruct b
         end; f_equal; try f_equal; lia.
Qed.

Lemma ordinal_split n :
  1 <= n ->
  exists q r, n = _DI400Y * q + r + 1 /\ 0 <= r < _DI400Y /\ 0 <= q.
Proof.
  intros Hn. exists ((n - 1) / _DI400Y), ((n - 1) mod _DI400Y).
  assert (H0 : 0 < _DI400Y) by (unfold _DI400Y; lia).
  pose proof (Z.div_mod (n - 1) _DI400Y ltac:(lia)).
  pose proof (Z.mod_pos_bound (n - 1) _DI400Y H0).
  pose proof (Z.div_pos (n - 1) _DI400Y ltac:(lia) H0).
  repeat split; lia.
Qed.

(** [_ymd2ord] undoes [_ord2ymd], and the fields of a valid date fit their
    zero-padded widths. *)
Lemma ord2ymd_fields n :
  valid_ordinal n = true ->
  let '(y, m, d) := _ord2ymd n in
  _ymd2ord y m d = n /\ 1 <= y <= 9999 /\ 1 <= m <= 12 /\ 1 <= d <= 31.
Proof.
  unfold valid_ordinal, MAXORDINAL. intros Hv.
  apply andb_true_iff in Hv as [H1 H2].
  apply Z.leb_le in H1, H2.
  destruct (ordinal_split n H1) as (q & r & -> & Hr & Hq).
  rewrite (ord2ymd_shift q r Hr).
  pose proof (ord2ymd_cycle r Hr) as Hc.
  destruct (_ord2ymd (r + 1)) as [[y m] d].
  destruct Hc as (Hrt & Hy & Hy3 & Hm & Hd).
  rewrite ymd2ord_shift, Hrt.
  unfold _DI400Y in *.
  repeat split; lia.
Qed.

Lemma ord2ymd_inj a b :
  valid_ordinal a = true -> valid_ordinal b = true ->
  _ord2ymd a = _ord2ymd b -> a = b.
Proof.
  intros Ha Hb Heq.
  pose proof (ord2ymd_fields a Ha) as Fa.
  pose proof (ord2ymd_fields b Hb) as Fb.
  rewrite Heq in Fa. destruct (_ord2ymd b) as [[y m] d].
  destruct Fa as [Fa _], Fb as [Fb _]. congruence.
Qed.

End CalendarFacts.

(** ** ISO 8601 text determines the instant *)

Section TextFacts.

Lemma append_length s t :
  String.length (s +:+ t) = (String.length s + String.length t)%nat.
Proof. induction s as [|c s IH]; simpl; [reflexivity|]. rewrite IH. reflexivity. Qed.

Lemma append_inj_len s1 : forall s2 t1 t2,
  String.length s1 = String.length s2 ->
  s1 +:+ t1 = s2 +:+ t2 -> s1 = s2 /\ t1 = t2.
Proof.
  induction s1 as [|c s1 IH]; intros [|c2 s2] t1 t2 Hlen Heq;
    simpl in *; try discriminate.
  - split; [reflexivity|exact Heq].
  - injection Heq as -> Heq. injection Hlen as Hlen.
    destruct (IH _ _ _ Hlen Heq) as [-> ->]. split; reflexivity.
Qed.

Lemma append_inj_r s1 s2 t : s1 +:+ t = s2 +:+ t -> s1 = s2.
Proof.
  intros Heq. apply (append_inj_len s1 s2 t t); [|exact Heq].
  apply (f_equal String.length) in Heq. rewrite !append_length in Heq. lia.
Qed.

Lemma sep_inj c s t :
  String c EmptyString +:+ s = String c EmptyString +:+ t -> s = t.
Proof. simpl. intros H. injection H as H. exact H. Qed.

Lemma zfill_length w : forall n, String.length (zfill w n) = w.
Proof.
  induction w as [|w IH]; intros n; simpl; [reflexivity|].
  rewrite append_length, IH. simpl. lia.
Qed.

Lemma digit_inj a b :
  0 <= a <= 9 -> 0 <= b <= 9 -> digit a = digit b -> a = b.
Proof.
  intros Ha Hb Heq. unfold digit in Heq.
  apply (f_equal nat_of_ascii) in Heq.
  rewrite !nat_ascii_embedding in Heq by lia. lia.
Qed.

Lemma zfill_inj w : forall a b,
  0 <= a < 10 ^ Z.of_nat w -> 0 <= b < 10 ^ Z.of_nat w ->
  zfill w a = zfill w b -> a = b.
Proof.
  induction w as [|w IH]; intros a b Ha Hb Heq.
  - simpl in Ha, Hb. lia.
  - rewrite Nat2Z.inj_succ, Z.pow_succ_r in Ha, Hb by lia.
    cbn [zfill] in Heq.
    apply append_inj_len in Heq as [Hq Hr]; [|rewrite !zfill_length; reflexivity].
    injection Hr as Hr.
    pose proof (Z.mod_pos_bound a 10 ltac:(lia)).
    pose proof (Z.mod_pos_bound b 10 ltac:(lia)).
    apply digit_inj in Hr; [|lia|lia].
    apply IH in Hq.
    + rewrite (Z.div_mod a 10), (Z.div_mod b 10) by lia. lia.
    + split; [apply Z.div_pos; lia|apply Z.div_lt_upper_bound; lia].
    + split; [apply Z.div_pos; lia|apply Z.div_lt_upper_bound; lia].
Qed.

Lemma date_isoformat_length d :
  String.length (date_isoformat d) = 10%nat.
Proof.
  unfold date_isoformat. destruct (_ord2ymd d) as [[y m] dd].
  rewrite !append_length, !zfill_length. reflexivity.
Qed.

Lemma date_isoformat_inj a b :
  valid_ordinal a = true -> valid_ordinal b = true ->
  date_isoformat a = date_isoformat b -> a = b.
Proof.
  intros Ha Hb Heq. apply ord2ymd_inj; [exact Ha|exact Hb|].
  pose proof (ord2ymd_fields a Ha) as Fa.
  pose proof (ord2ymd_fields b Hb) as Fb.
  unfold date_isoformat in Heq.
  destruct (_ord2ymd a) as [[y1 m1] d1], (_ord2ymd b) as [[y2 m2] d2].
  apply append_inj_len in Heq as [Hy Heq]; [|rewrite !zfill_length; reflexivity].
  apply sep_inj in Heq.
  apply append_inj_len in Heq as [Hm Heq]; [|rewrite !zfill_length; reflexivity].
  apply sep_inj in Heq. rename Heq into Hd.
  apply zfill_inj in Hy, Hm, Hd; simpl; try lia.
  congruence.
Qed.

Lemma time_isoformat_inj a b :
  0 <= a < US_PER_DAY -> 0 <= b < US_PER_DAY ->
  time_isoformat a = time_isoformat b -> a = b.
Proof.
  unfold US_PER_DAY, time_isoformat. intros Ha Hb Heq.
  set (sa := a / US_PER_SECOND) in *. set (sb := b / US_PER_SECOND) in *.
  set (ua := a mod US_PER_SECOND) in *. set (ub := b mod US_PER_SECOND) in *.
  assert (Hsa : 0 <= sa < 86400).
  { unfold sa, US_PER_SECOND in *.
    split; [apply Z.div_pos; lia|apply Z.div_lt_upper_bound; lia]. }
  assert (Hsb : 0 <= sb < 86400).
  { unfold sb, US_PER_SECOND in *.
    split; [apply Z.div_pos; lia|apply Z.div_lt_upper_bound; lia]. }
  assert (Hua : 0 <= ua < 1000000)
    by (apply Z.mod_pos_bound; unfold US_PER_SECOND; lia).
  assert (Hub : 0 <= ub < 1000000)
    by (apply Z.mod_pos_bound; unfold US_PER_SECOND; lia).
  apply append_inj_len in Heq as [Hh Heq]; [|rewrite !zfill_length; reflexivity].
  apply sep_inj in Heq.
  apply append_inj_len in Heq as [Hm Heq]; [|rewrite !zfill_length; reflexivity].
  apply sep_inj in Heq.
  apply append_inj_len in Heq as [Hs Hf]; [|rewrite !zfill_length; reflexivity].
  assert (Hu : ua = ub).
  { destruct (ua =? 0) eqn:Ea, (ub =? 0) eqn:Eb; try discriminate.
    - apply Z.eqb_eq in Ea, Eb. lia.
    - apply sep_inj in Hf. apply zfill_inj in Hf; simpl; lia. }
  apply zfill_inj in Hh;
    [|simpl; split; [apply Z.div_pos; lia|apply Z.div_lt_upper_bound; lia]..].
  apply zfill_inj in Hm;
    [|simpl; pose proof (Z.mod_pos_bound (sa / 60) 60);
      pose proof (Z.mod_pos_bound (sb / 60) 60); lia..].
  apply zfill_inj in Hs;
    [|simpl; pose proof (Z.mod_pos_bound sa 60); pose proof (Z.mod_pos_bound sb 60); lia..].
  assert (Hsec : sa = sb).
  { rewrite (Z.div_mod sa 60), (Z.div_mod sb 60) by lia.
    rewrite (Z.div_mod (sa / 60) 60), (Z.div_mod (sb / 60) 60) by lia.
    rewrite !Z.div_div by lia. change (60 * 60) with 3600. lia. }
  rewrite (Z.div_mod a US_PER_SECOND), (Z.div_mod b US_PER_SECOND)
    by (unfold US_PER_SECOND; lia).
  fold sa sb ua ub. lia.
Qed.

Lemma valid_datetime_parts t :
  valid_datetime t = true ->
  valid_ordinal (datetime_date t) = true /\ 0 <= t mod US_PER_DAY < US_PER_DAY.
Proof.
  unfold valid_datetime, valid_ordinal, datetime_date, MAX_US. intros H.
  apply andb_true_iff in H as [H0 H1].
  apply Z.leb_le in H0. apply Z.ltb_lt in H1.
  assert (Hd : 0 < US_PER_DAY) by (unfold US_PER_DAY, US_PER_SECOND; lia).
  split; [|apply Z.mod_pos_bound; exact Hd].
  apply andb_true_iff. split; apply Z.leb_le.
  - pose proof (Z.div_pos t US_PER_DAY H0 Hd). lia.
  - assert (t / US_PER_DAY < MAXORDINAL)
      by (apply Z.div_lt_upper_bound; lia). lia.
Qed.

Lemma naive_isoformat_inj a b :
  valid_datetime a = true -> valid_datetime b = true ->
  naive_isoformat a = naive_isoformat b -> a = b.
Proof.
  intros Ha Hb Heq.
  apply valid_datetime_parts in Ha as [Hda Hta], Hb as [Hdb Htb].
  unfold naive_isoformat in Heq.
  apply append_inj_len in Heq as [Hd Heq];
    [|rewrite !date_isoformat_length; reflexivity].
  apply sep_inj in Heq. rename Heq into Ht.
  apply date_isoformat_inj in Hd; [|assumption..].
  apply time_isoformat_inj in Ht; [|assumption..].
  unfold datetime_date in Hd.
  assert (Hpos : US_PER_DAY <> 0) by (unfold US_PER_DAY, US_PER_SECOND; lia).
  rewrite (Z.div_mod a US_PER_DAY Hpos), (Z.div_mod b US_PER_DAY Hpos).
  rewrite Ht. replace (a / US_PER_DAY) with (b / US_PER_DAY) by lia.
  reflexivity.
Qed.

(** Two valid UTC instants with the same ISO text are the same instant. *)
Lemma utc_isoformat_inj a b :
  valid_datetime a = true -> valid_datetime b = true ->
  utc_isoformat a = utc_isoformat b -> a = b.
Proof.
  intros Ha Hb Heq. unfold utc_isoformat in Heq.
  apply append_inj_r in Heq. apply naive_isoformat_inj; assumption.
Qed.

End TextFacts.

(** ** [build_rows] on a response that can be iterated *)

Section BuildRows.

Context {P : Platform}.

Lemma enumerate_from_lookup {A} (l : list A) : forall i k,
  enumerate_from i l !! k = (fun x => (i + Z.of_nat k, x)) <$> l !! k.
Proof.
  induction l as [|x l IH]; intros i k; [reflexivity|].
  destruct k as [|k]; cbn [enumerate_from].
  - cbn. f_equal. f_equal. lia.
  - cbn [lookup list_lookup]. rewrite IH.
    destruct (l !! k); cbn; [|reflexivity]. f_equal. f_equal. lia.
Qed.

Lemma enumerate_from_length {A} (l : list A) : forall i,
  length (enumerate_from i l) = length l.
Proof. induction l as [|x l IH]; intros i; cbn; [|rewrite IH]; reflexivity. Qed.

Lemma elem_of_enumerate_from {A} (l : list A) i j x :
  (j, x) ∈ enumerate_from i l <->
  exists k, l !! k = Some x /\ j = i + Z.of_nat k.
Proof.
  rewrite list_elem_of_lookup. split.
  - intros [k Hk]. rewrite enumerate_from_lookup in Hk.
    destruct (l !! k) as [y|] eqn:E; [|discriminate].
    cbn in Hk. injection Hk as <- <-. eauto.
  - intros (k & Hk & ->). exists k. rewrite enumerate_from_lookup, Hk.
    reflexivity.
Qed.

Lemma all_representable_lookup {A} day (l : list A) k x :
  all_representable day 0 l = true -> l !! k = Some x ->
  valid_datetime (utc_instant day (Z.of_nat k)) = true.
Proof.
  unfold all_representable. rewrite forallb_forall. intros Hall Hk.
  specialize (Hall (Z.of_nat k, x)).
  assert (Hin : In (Z.of_nat k, x) (enumerate_from 0 l)).
  { apply list_elem_of_In, elem_of_enumerate_from. eauto. }
  apply Hall in Hin. unfold representable in Hin.
  apply andb_true_iff in Hin as [_ Hin]. exact Hin.
Qed.

(** [build_rows] on a non-empty response that [enumerate] accepts. *)
Lemma build_rows_spec api_base loc day s raw items :
  response api_base loc day s = inr raw ->
  truthy raw = true ->
  py_iter raw = Ok items ->
  valid_datetime (build_time api_base loc day s + US_PER_HOUR) = true ->
  all_representable day 0 items = true ->
  exists out s',
    build_rows api_base loc day s = (Ok out, s') /\
    trace s' = trace s ++ [EvGet (fetch_url api_base loc day) 30] /\
    Forall2 (is_row_of loc day)
      (kept (build_time api_base loc day s + US_PER_HOUR) day
         (enumerate_from 0 items)) out.
Proof.
  unfold response, build_time. intros Hresp Htruthy Hiter Hnow Hrep.
  unfold build_rows. rewrite bind_emit, bind_call. cbn [world trace].
  rewrite Hresp, Htruthy. cbn [negb].
  rewrite bind_call. cbn [world trace].
  unfold datetime_add at 1. rewrite Hnow, bind_lift_Ok, Hiter, bind_lift_Ok.
  edestruct (rows_loop_spec loc day) as (out & s' & Hrun & Htr & Hall);
    [exact Hrep|].
  exists out, s'. split; [|split].
  - rewrite Hrun. reflexivity.
  - rewrite Htr. reflexivity.
  - exact Hall.
Qed.

(** Every record of the output stems from an entry that passed the guard,
    and every such entry has its record. *)
Lemma rows_of_kept loc day limit items out :
  Forall2 (is_row_of loc day) (kept limit day (enumerate_from 0 items)) out ->
  (forall r, r ∈ out ->
     exists k item, items !! k = Some item /\
       in_future limit day (Z.of_nat k) = false /\
       is_row_of loc day (Z.of_nat k, item) r) /\
  (forall k item, items !! k = Some item ->
     in_future limit day (Z.of_nat k) = false ->
     exists r, r ∈ out /\ is_row_of loc day (Z.of_nat k, item) r).
Proof.
  intros Hall. split.
  - intros r Hr. apply list_elem_of_lookup in Hr as [j Hj].
    destruct (Forall2_lookup_r _ _ _ _ _ Hall Hj) as ([i item] & Hp & Hrow).
    apply list_elem_of_lookup_2, list_elem_of_In in Hp.
    unfold kept in Hp. apply filter_In in Hp as [Hin Hkeep].
    apply list_elem_of_In, elem_of_enumerate_from in Hin as (k & Hk & ->).
    exists k, item. cbn in Hkeep. apply negb_true_iff in Hkeep.
    replace (0 + Z.of_nat k) with (Z.of_nat k) in * by lia. auto.
  - intros k item Hk Hkeep.
    assert (Hin : (Z.of_nat k, item) ∈ kept limit day (enumerate_from 0 items)).
    { apply list_elem_of_In, filter_In. split.
      - apply list_elem_of_In, elem_of_enumerate_from.
        exists k. split; [exact Hk|lia].
      - cbn. rewrite Hkeep. reflexivity. }
    apply list_elem_of_lookup in Hin as [j Hj].
    destruct (Forall2_lookup_l _ _ _ _ _ Hall Hj) as (r & Hr & Hrow).
    exists r. split; [|exact Hrow]. eapply list_elem_of_lookup_2; eauto.
Qed.

End BuildRows.

Section RowBuilderClaims.

Context {P : Platform}.

Lemma truthy_nonempty_list (items : list (JSON float)) :
  items <> [] -> truthy (JList items) = true.
Proof. destruct items; [congruence|reflexivity]. Qed.

(** C3. For every target day and every index [i] of the response, the
    record of entry [i] carries the instant local midnight of the day plus
    [i] minutes on the SGT wall clock, converted to UTC by subtracting the
    zone's offset at that wall-clock time: every record of the output has
    such an index, and every entry that passes the future-guard has such a
    record.  In particular index 90 of 2024-03-10 is 2024-03-10T01:30:00
    local time, stored as 2024-03-09T17:30:00+00:00. *)
Theorem build_rows_timestamps api_base loc day s items :
  response api_base loc day s = inr (JList items) ->
  items <> [] ->
  valid_datetime (build_time api_base loc day s + US_PER_HOUR) = true ->
  all_representable day 0 items = true ->
  exists out s',
    build_rows api_base loc day s = (Ok out, s') /\
    (forall r, r ∈ out ->
       exists i item, items !! i = Some item /\
         let local := combine_midnight day + Z.of_nat i * US_PER_MINUTE in
         reading_datetime r = utc_isoformat (local - SGT.utcoffset local)) /\
    (forall i item, items !! i = Some item ->
       in_future (build_time api_base loc day s + US_PER_HOUR) day
         (Z.of_nat i) = false ->
       exists r, r ∈ out /\
         let local := combine_midnight day + Z.of_nat i * US_PER_MINUTE in
         reading_datetime r = utc_isoformat (local - SGT.utcoffset local)) /\
    (let local := combine_midnight (_ymd2ord 2024 3 10) + 90 * US_PER_MINUTE in
     naive_isoformat local = "2024-03-10T01:30:00" /\
     utc_isoformat (local - SGT.utcoffset local)
       = "2024-03-09T17:30:00+00:00").
Proof.
  intros Hresp Hne Hnow Hrep.
  destruct (build_rows_spec api_base loc day s (JList items) items)
    as (out & s' & Hrun & _ & Hall); auto using truthy_nonempty_list.
  apply rows_of_kept in Hall as [Hfrom Hto].
  exists out, s'. split; [exact Hrun|]. split; [|split].
  - intros r Hr. destruct (Hfrom r Hr) as (k & item & Hk & _ & Hrow).
    exists k, item. split; [exact Hk|]. apply Hrow.
  - intros i item Hi Hkeep. destruct (Hto i item Hi Hkeep) as (r & Hr & Hrow).
    exists r. split; [exact Hr|]. apply Hrow.
  - split; vm_compute; reflexivity.
Qed.

(** C4. For every non-empty response list, an entry whose reading is
    absent, null or not convertible to a float is not dropped: unless the
    future-guard removes it, it has its record, with [reading_value] null.
    The output has as many records as the list has entries, less those the
    future-guard removes. *)
Theorem build_rows_keeps_missing_readings api_base loc day s items :
  response api_base loc day s = inr (JList items) ->
  items <> [] ->
  valid_datetime (build_time api_base loc day s + US_PER_HOUR) = true ->
  all_representable day 0 items = true ->
  let limit := build_time api_base loc day s + US_PER_HOUR in
  exists out s',
    build_rows api_base loc day s = (Ok out, s') /\
    (length out
       + length (List.filter (fun p => in_future limit day (fst p))
                   (enumerate_from 0 items)) = length items)%nat /\
    (forall i item, items !! i = Some item ->
       reading_missing item ->
       in_future limit day (Z.of_nat i) = false ->
       exists r, r ∈ out /\
         reading_datetime r = utc_isoformat (utc_instant day (Z.of_nat i)) /\
         reading_value r = None).
Proof.
  intros Hresp Hne Hnow Hrep limit.
  destruct (build_rows_spec api_base loc day s (JList items) items)
    as (out & s' & Hrun & _ & Hall); auto using truthy_nonempty_list.
  fold limit in Hall.
  exists out, s'. split; [exact Hrun|]. split.
  - rewrite <- (Forall2_length _ _ _ Hall).
    rewrite <- (enumerate_from_length items 0). unfold kept.
    generalize (enumerate_from 0 items). intros l.
    induction l as [|p l IH]; [reflexivity|]. cbn [List.filter].
    destruct (in_future limit day (fst p)); cbn [negb length]; lia.
  - apply rows_of_kept in Hall as [_ Hto].
    intros i item Hi Hmiss Hkeep.
    destruct (Hto i item Hi Hkeep) as (r & Hr & _ & _ & Hval & Hts).
    exists r. split; [exact Hr|]. split; [exact Hts|].
    rewrite Hval. cbn [snd]. unfold reading_of.
    destruct item as [| | | | |l|d]; try reflexivity.
    cbn in Hmiss. destruct (dict_get "reading" d) as [[]|]; auto.
Qed.

Lemma not_in_future_le limit day i :
  negb (in_future limit day i) = (utc_instant day i <=? limit).
Proof. unfold in_future. rewrite Z.gtb_ltb, Z.leb_antisym. reflexivity. Qed.

(** C5. With [limit] the UTC time read when the rows are built plus one
    hour: the output consists, in order, of the records of exactly the
    entries whose instant is at or before [limit].  An entry whose instant
    is later has no record (no record bears its instant) and every entry
    whose instant is at or before [limit] has its record. *)
Theorem build_rows_future_guard api_base loc day s items :
  response api_base loc day s = inr (JList items) ->
  items <> [] ->
  valid_datetime (build_time api_base loc day s + US_PER_HOUR) = true ->
  all_representable day 0 items = true ->
  let limit := build_time api_base loc day s + US_PER_HOUR in
  exists out s',
    build_rows api_base loc day s = (Ok out, s') /\
    Forall2 (is_row_of loc day)
      (List.filter (fun p => utc_instant day (fst p) <=? limit)
         (enumerate_from 0 items)) out /\
    (forall i item, items !! i = Some item ->
       utc_instant day (Z.of_nat i) > limit ->
       forall r, r ∈ out ->
         reading_datetime r <> utc_isoformat (utc_instant day (Z.of_nat i))) /\
    (forall i item, items !! i = Some item ->
       utc_instant day (Z.of_nat i) <= limit ->
       exists r, r ∈ out /\ is_row_of loc day (Z.of_nat i, item) r).
Proof.
  intros Hresp Hne Hnow Hrep limit.
  destruct (build_rows_spec api_base loc day s (JList items) items)
    as (out & s' & Hrun & _ & Hall); auto using truthy_nonempty_list.
  fold limit in Hall.
  exists out, s'. split; [exact Hrun|]. split; [|split].
  - unfold kept in Hall.
    erewrite filter_ext in Hall; [exact Hall|].
    intros p. apply not_in_future_le.
  - apply rows_of_kept in Hall as [Hfrom _].
    intros i item Hi Hlate r Hr Heq.
    destruct (Hfrom r Hr) as (k & item' & Hk & Hkeep & _ & _ & _ & Hts).
    cbn [fst] in Hts. rewrite Hts in Heq.
    apply utc_isoformat_inj in Heq;
      [|eapply all_representable_lookup; eauto..].
    unfold in_future in Hkeep. lia.
  - apply rows_of_kept in Hall as [_ Hto].
    intros i item Hi Hle. apply Hto; [exact Hi|].
    unfold in_future. lia.
Qed.

End RowBuilderClaims.

Import Scenario.

Lemma build_rows_timestamps_witness :
  exists out s',
    @build_rows Sim.platform API_DEFAULT school day_2024_03_10 day_after
      = (Ok out, s').
Proof.
  destruct (@build_rows_timestamps Sim.platform API_DEFAULT school
              day_2024_03_10 day_after minutes91)
    as (out & s' & Hrun & _);
    [vm_compute; reflexivity | discriminate | vm_compute; reflexivity
    | vm_compute; reflexivity |].
  exists out, s'. exact Hrun.
Defined.

Lemma build_rows_keeps_missing_readings_witness :
  exists out s',
    @build_rows Sim.platform API_DEFAULT school day_2024_03_10 day_after
      = (Ok out, s').
Proof.
  destruct (@build_rows_keeps_missing_readings Sim.platform API_DEFAULT school
              day_2024_03_10 day_after minutes91)
    as (out & s' & Hrun & _);
    [vm_compute; reflexivity | discriminate | vm_compute; reflexivity
    | vm_compute; reflexivity |].
  exists out, s'. exact Hrun.
Defined.

Lemma build_rows_future_guard_witness :
  exists out s',
    @build_rows Sim.platform API_DEFAULT school day_2024_03_10 early_morning
      = (Ok out, s').
Proof.
  destruct (@build_rows_future_guard Sim.platform API_DEFAULT school
              day_2024_03_10 early_morning minutes91)
    as (out & s' & Hrun & _);
    [vm_compute; reflexivity | discriminate | vm_compute; reflexivity
    | vm_compute; reflexivity |].
  exists out, s'. exact Hrun.
Defined.

(** The two runs, evaluated. *)
Example run_day_after :
  (fun out => (length out,
               reading_datetime <$> out !! 0%nat,
               reading_datetime <$> out !! 90%nat,
               reading_value <$> out !! 90%nat))
    <$> outcome (@build_rows Sim.platform API_DEFAULT school day_2024_03_10
                   day_after)
  = Some (91%nat, Some "2024-03-09T16:00:00+00:00",
          Some "2024-03-09T17:30:00+00:00", Some None).
Proof. vm_compute. reflexivity. Qed.

Example run_early_morning :
  (fun out => (length out, reading_datetime <$> last out))
    <$> outcome (@build_rows Sim.platform API_DEFAULT school day_2024_03_10
                   early_morning)
  = Some (90%nat, Some "2024-03-09T17:29:00+00:00").
Proof. vm_compute. reflexivity. Qed.

(** ** Days on which the zone is at +08:00 throughout *)

Section FixedOffset.

Context {P : Platform}.

Lemma local_instant_seconds day i :
  local_instant day i / US_PER_SECOND = (day - 1) * 86400 + i * 60.
Proof.
  unfold local_instant, combine_midnight, US_PER_DAY, US_PER_MINUTE.
  replace ((day - 1) * (86400 * US_PER_SECOND) + i * (60 * US_PER_SECOND))
    with (((day - 1) * 86400 + i * 60) * US_PER_SECOND) by lia.
  apply Z.div_mul. unfold US_PER_SECOND. lia.
Qed.

(** From 1982-01-01 on the wall clock of SGT is eight hours ahead. *)
Lemma utcoffset_fixed day i :
  SGT.FIXED_FROM <= day -> 0 <= i ->
  SGT.utcoffset (local_instant day i) = 8 * US_PER_HOUR.
Proof.
  unfold SGT.FIXED_FROM. intros Hday Hi.
  unfold SGT.utcoffset. rewrite local_instant_seconds.
  set (ts := (day - 1) * 86400 + i * 60 - SGT.EPOCH_SECONDS).
  assert (Hts : 378691200 <= ts) by (unfold ts, SGT.EPOCH_SECONDS; lia).
  unfold SGT.transitions, SGT.utcoff_first. cbn [SGT.find_wall].
  repeat match goal with
         | |- context [?a <? ?b] =>
             replace (a <? b) with false by (symmetry; apply Z.ltb_ge; lia)
         end.
  reflexivity.
Qed.

Lemma utc_instant_fixed day i :
  SGT.FIXED_FROM <= day -> 0 <= i ->
  utc_instant day i
  = combine_midnight day - 8 * US_PER_HOUR + i * US_PER_MINUTE.
Proof.
  intros Hday Hi. unfold utc_instant. rewrite utcoffset_fixed by assumption.
  unfold local_instant. lia.
Qed.

Lemma filter_none {A} (f : A -> bool) (l : list A) :
  (forall x, In x l -> f x = false) -> List.filter f l = [].
Proof.
  induction l as [|x l IH]; intros H; [reflexivity|].
  cbn [List.filter]. rewrite (H x (or_introl eq_refl)).
  apply IH. intros y Hy. apply H. right. exact Hy.
Qed.

(** When the instants do not decrease with the index, the future-guard
    removes a suffix of the entries. *)
Lemma kept_prefix {A} limit day (items : list A) : forall i,
  (forall a b, i <= a <= b -> utc_instant day a <= utc_instant day b) ->
  exists k, (k <= length items)%nat /\
    kept limit day (enumerate_from i items) = enumerate_from i (take k items).
Proof.
  induction items as [|x rest IH]; intros i Hmono.
  - exists 0%nat. split; [reflexivity|]. reflexivity.
  - unfold kept. cbn [enumerate_from List.filter fst].
    destruct (in_future limit day i) eqn:Hf; cbn [negb].
    + exists 0%nat. split; [cbn; lia|]. cbn [take enumerate_from].
      apply filter_none.
      intros [j y] Hin. cbn [fst].
      apply list_elem_of_In, elem_of_enumerate_from in Hin as (k & _ & ->).
      unfold in_future in *. apply negb_false_iff, Z.gtb_lt.
      apply Z.gtb_lt in Hf.
      specialize (Hmono i (i + 1 + Z.of_nat k) ltac:(lia)). lia.
    + destruct (IH (i + 1)) as (k & Hk & Heq).
      { intros a b Hab. apply Hmono. lia. }
      exists (S k). split; [cbn; lia|].
      cbn [take enumerate_from]. f_equal. exact Heq.
Qed.

End FixedOffset.

Section MinuteOrder.

Context {P : Platform}.

(** C9, amended.  For every target day from 1982-01-01 on (since when the
    zone is at +08:00 throughout) and every response list: the future-guard
    removes only a suffix of the list, so the output holds the records of
    its first [k] entries, in order; record [j] bears the instant of minute
    [j] of the day, one minute after record [j - 1]; and no two records of
    the batch share their key [(location_id, reading_datetime)]. *)
Theorem build_rows_minute_order api_base loc day s items :
  SGT.FIXED_FROM <= day ->
  response api_base loc day s = inr (JList items) ->
  items <> [] ->
  valid_datetime (build_time api_base loc day s + US_PER_HOUR) = true ->
  all_representable day 0 items = true ->
  exists out s' k,
    build_rows api_base loc day s = (Ok out, s') /\
    (k <= length items)%nat /\
    length out = k /\
    Forall2 (is_row_of loc day) (enumerate_from 0 (take k items)) out /\
    (forall j r, out !! j = Some r ->
       reading_datetime r
       = utc_isoformat (combine_midnight day - 8 * US_PER_HOUR
                        + Z.of_nat j * US_PER_MINUTE)) /\
    NoDup (key_of <$> out).
Proof.
  intros Hday Hresp Hne Hnow Hrep.
  destruct (build_rows_spec api_base loc day s (JList items) items)
    as (out & s' & Hrun & _ & Hall); auto using truthy_nonempty_list.
  destruct (kept_prefix (build_time api_base loc day s + US_PER_HOUR) day
              items 0) as (k & Hk & Hpre).
  { intros a b Hab. rewrite !utc_instant_fixed by lia.
    unfold US_PER_MINUTE, US_PER_SECOND. lia. }
  rewrite Hpre in Hall.
  assert (Hlen : length out = k).
  { rewrite <- (Forall2_length _ _ _ Hall), enumerate_from_length.
    rewrite length_take. lia. }
  assert (Hts : forall j r, out !! j = Some r ->
            reading_datetime r
            = utc_isoformat (combine_midnight day - 8 * US_PER_HOUR
                             + Z.of_nat j * US_PER_MINUTE)).
  { intros j r Hj.
    destruct (Forall2_lookup_r _ _ _ _ _ Hall Hj) as ([i x] & Hp & Hrow).
    rewrite enumerate_from_lookup in Hp.
    destruct (take k items !! j); [|discriminate].
    cbn in Hp. injection Hp as <- <-.
    destruct Hrow as (_ & _ & _ & Hrd). cbn [fst] in Hrd.
    rewrite Hrd, utc_instant_fixed by lia. f_equal; lia. }
  exists out, s', k. repeat split; try assumption.
  apply NoDup_alt. intros i j x Hi Hj.
  rewrite list_lookup_fmap in Hi, Hj.
  destruct (out !! i) as [ri|] eqn:Ei; [|discriminate].
  destruct (out !! j) as [rj|] eqn:Ej; [|discriminate].
  cbn in Hi, Hj. injection Hi as <-. unfold key_of in Hj.
  injection Hj as _ Hrd.
  rewrite (Hts i ri Ei), (Hts j rj Ej) in Hrd.
  assert (Hvalid : forall n r, out !! n = Some r ->
            valid_datetime (combine_midnight day - 8 * US_PER_HOUR
                            + Z.of_nat n * US_PER_MINUTE) = true).
  { intros n r Hn. apply lookup_lt_Some in Hn.
    destruct (lookup_lt_is_Some_2 items n ltac:(lia)) as [x Hx].
    rewrite <- utc_instant_fixed by lia.
    eapply all_representable_lookup; eauto. }
  apply utc_isoformat_inj in Hrd; [|eapply Hvalid; eauto..].
  unfold US_PER_MINUTE, US_PER_SECOND in Hrd. lia.
Qed.

End MinuteOrder.

Lemma build_rows_minute_order_witness :
  exists out s',
    @build_rows Sim.platform API_DEFAULT Scenario.school
      Scenario.day_2024_03_10 Scenario.early_morning = (Ok out, s') /\
    NoDup (@key_of Sim.platform <$> out).
Proof.
  destruct (@build_rows_minute_order Sim.platform API_DEFAULT Scenario.school
              Scenario.day_2024_03_10 Scenario.early_morning
              Scenario.minutes91)
    as (out & s' & k & Hrun & _ & _ & _ & _ & Hnd);
    [vm_compute; discriminate | vm_compute; reflexivity | discriminate
    | vm_compute; reflexivity | vm_compute; reflexivity |].
  exists out, s'. split; assumption.
Defined.

(** C9 as stated fails on 1942-02-16: the first entry (00:00, a wall-clock
    time skipped by the change of offset and read at +07:30) and entry 90
    (01:30, at +09:00) denote the same instant, so the batch holds two
    records with the same key, and the instants are not in increasing
    order. *)
Lemma build_rows_1942_shares_key :
  outcome (@build_rows Sim.platform API_DEFAULT Scenario.school
             Scenario1942.day_1942_02_16 Scenario1942.today)
    = Some Scenario1942.rows /\
  @key_of Sim.platform <$> Scenario1942.rows !! 0%nat
    = Some ("15490", "1942-02-15T16:30:00+00:00") /\
  @key_of Sim.platform <$> Scenario1942.rows !! 89%nat
    = Some ("15490", "1942-02-15T17:59:00+00:00") /\
  @key_of Sim.platform <$> Scenario1942.rows !! 90%nat
    = Some ("15490", "1942-02-15T16:30:00+00:00") /\
  ~ NoDup (@key_of Sim.platform <$> Scenario1942.rows).
Proof.
  split; [vm_compute; reflexivity|].
  split; [vm_compute; reflexivity|].
  split; [vm_compute; reflexivity|].
  split; [vm_compute; reflexivity|].
  intros Hnd.
  pose proof (proj1 (NoDup_alt _) Hnd 0%nat 90%nat
                ("15490", "1942-02-15T16:30:00+00:00") eq_refl eq_refl) as H.
  discriminate H.
Qed.

(** ** [upsert_rows] *)

Section UpsertRows.

Context {P : Platform}.

Lemma concat_chunks_take {A} (l : list A) (c : nat) : forall m,
  concat (map (fun k => take c (drop (k * c) l)) (seq 0 m))
  = take (m * c) l.
Proof.
  induction m as [|m IH]; [reflexivity|].
  rewrite seq_S, map_app, concat_app, IH. cbn [map concat Nat.add].
  rewrite app_nil_r, take_take_drop. f_equal. lia.
Qed.

Lemma range_step_chunks (rows : list (Row float)) :
  chunks_of rows
  = map (fun k => take CHUNK (drop (k * CHUNK) rows))
      (seq 0 ((length rows + CHUNK - 1) / CHUNK)).
Proof. unfold chunks_of, py_range_step. rewrite map_map. reflexivity. Qed.

Lemma chunks_concat (rows : list (Row float)) : concat (chunks_of rows) = rows.
Proof.
  rewrite range_step_chunks, concat_chunks_take. apply take_ge.
  unfold CHUNK.
  pose proof (Nat.div_mod_eq (length rows + 1000 - 1) 1000).
  pose proof (Nat.mod_upper_bound (length rows + 1000 - 1) 1000).
  lia.
Qed.

Lemma chunks_length (rows : list (Row float)) :
  length (chunks_of rows) = ((length rows + 999) / 1000)%nat.
Proof.
  rewrite range_step_chunks, length_map, length_seq. unfold CHUNK.
  f_equal. lia.
Qed.

Lemma chunks_sizes (rows : list (Row float)) :
  Forall (fun c => (0 < length c <= 1000)%nat) (chunks_of rows).
Proof.
  rewrite range_step_chunks. apply Forall_forall. intros c Hc.
  apply list_elem_of_In, in_map_iff in Hc as (k & <- & Hk).
  apply in_seq in Hk. rewrite length_take, length_drop. unfold CHUNK in *.
  pose proof (Nat.div_mod_eq (length rows + 1000 - 1) 1000).
  pose proof (Nat.mod_upper_bound (length rows + 1000 - 1) 1000).
  lia.
Qed.

Lemma chunks_2500 (rows : list (Row float)) :
  length rows = 2500%nat ->
  map length (chunks_of rows) = [1000; 1000; 500]%nat.
Proof.
  intros Hlen. unfold chunks_of. rewrite Hlen.
  change (py_range_step 2500 CHUNK) with [0; 1000; 2000]%nat.
  cbn [map]. rewrite !length_take, !length_drop, Hlen. reflexivity.
Qed.

Lemma upsert_loop_spec supabase table rows : forall starts inserted s rs w',
  replies supabase table (map (fun i => take CHUNK (drop i rows)) starts)
    (world s) = (rs, w') ->
  forallb succeeded rs = true ->
  upsert_loop supabase table rows starts inserted s
  = (Ok (inserted + sum_affected rs),
     {| world := w';
        trace := trace s
                 ++ map (fun c => EvUpsert table c ON_CONFLICT)
                      (map (fun i => take CHUNK (drop i rows)) starts) |}).
Proof.
  induction starts as [|i rest IH]; intros inserted s rs w' Hrep Hok.
  - cbn in Hrep. injection Hrep as <- <-. cbn. unfold ret.
    rewrite app_nil_r, Z.add_0_r. destruct s; reflexivity.
  - cbn [map replies] in Hrep.
    destruct (execute_upsert supabase table (take CHUNK (drop i rows))
                ON_CONFLICT (world s)) as [r w1] eqn:Hexec.
    destruct (replies supabase table
                (map (fun i => take CHUNK (drop i rows)) rest) w1)
      as [rs' w2] eqn:Hrest.
    injection Hrep as <- <-.
    cbn [forallb] in Hok. apply andb_true_iff in Hok as [Hr Hok].
    cbn [upsert_loop]. rewrite bind_emit, bind_call. cbn [world trace].
    rewrite Hexec. cbn [fst snd].
    destruct r as [e|data]; [discriminate|].
    erewrite IH; [|cbn [world]; exact Hrest|exact Hok].
    cbn [world trace map].
    change (sum_affected (inr data :: rs'))
      with (affected_of (inr data) + sum_affected rs').
    rewrite <- app_assoc. cbn [app].
    f_equal. f_equal. destruct data; cbn [affected_of]; lia.
Qed.

(** C6. For every non-empty batch whose store calls all succeed: the batch
    is cut into consecutive chunks of at most 1000 records (their
    concatenation is the batch), [ceil(n / 1000)] of them; one store call
    is issued per chunk, in order, each with conflict target
    [location_id,reading_datetime]; and the value returned is the sum of
    the affected counts of the calls.  A batch of 2500 records gives three
    calls, of 1000, 1000 and 500 records. *)
Theorem upsert_rows_chunks supabase table rows s :
  rows <> [] ->
  forallb succeeded
    (fst (replies supabase table (chunks_of rows) (world s))) = true ->
  let chunks := chunks_of rows in
  let rs := fst (replies supabase table chunks (world s)) in
  let w' := snd (replies supabase table chunks (world s)) in
  upsert_rows supabase table rows s
  = (Ok (sum_affected rs),
     {| world := w';
        trace := trace s
                 ++ map (fun c => EvUpsert table c "location_id,reading_datetime")
                      chunks |}) /\
  concat chunks = rows /\
  Forall (fun c => (0 < length c <= 1000)%nat) chunks /\
  length chunks = ((length rows + 999) / 1000)%nat /\
  (1000 * (length chunks - 1) < length rows <= 1000 * length chunks)%nat /\
  (length rows = 2500%nat -> map length chunks = [1000; 1000; 500]%nat).
Proof.
  intros Hne Hok chunks rs w'.
  split; [|split; [|split; [|split; [|split]]]].
  - unfold upsert_rows. destruct rows as [|r rows]; [congruence|].
    erewrite upsert_loop_spec; [reflexivity| |exact Hok].
    fold (chunks_of (r :: rows)). apply surjective_pairing.
  - apply chunks_concat.
  - apply chunks_sizes.
  - apply chunks_length.
  - unfold chunks. rewrite chunks_length.
    assert (0 < length rows)%nat by (destruct rows; [congruence|cbn; lia]).
    pose proof (Nat.div_mod_eq (length rows + 999) 1000).
    pose proof (Nat.mod_upper_bound (length rows + 999) 1000).
    lia.
  - apply chunks_2500.
Qed.

(** C8. With an empty batch [upsert_rows] returns 0 at once: no call is
    made, and both the world (the store with it) and the trace of the
    program are as before. *)
Theorem upsert_rows_empty supabase table s :
  upsert_rows supabase table [] s = (Ok 0, s).
Proof. reflexivity. Qed.

End UpsertRows.

Lemma upsert_rows_chunks_witness :
  outcome (@upsert_rows Sim.platform ("url", "key") "meter_readings"
             ScenarioBatch.batch2500 (Sim.start 0 []))
    = Some 2500 /\
  map length (@chunks_of Sim.platform ScenarioBatch.batch2500)
    = [1000; 1000; 500]%nat.
Proof.
  destruct (@upsert_rows_chunks Sim.platform ("url", "key") "meter_readings"
              ScenarioBatch.batch2500 (Sim.start 0 []))
    as (Hrun & _ & _ & _ & _ & H2500);
    [discriminate | vm_compute; reflexivity |].
  split.
  - rewrite Hrun. vm_compute. reflexivity.
  - apply H2500. vm_compute. reflexivity.
Defined.

(** ** A fetch that fails *)

Section FetchFailure.

Context {P : Platform}.


End FetchFailure.


(** On the day of the outage all thirteen devices are still asked. *)
Example outage_day_collects :
  (fun r => (fst r,
             length (List.filter
                       (fun e => match e with EvGet _ _ => true | _ => false end)
                       (trace (snd r)))))
    (@collect_day Sim.platform API_DEFAULT LOCATIONS Scenario.day_2024_03_10
       [] ScenarioOutage.state)
  = (Ok [], 13%nat).
Proof. vm_compute. reflexivity. Qed.


(** ** The backward walk *)

Section BackwardWalk.

Context {P : Platform}.

Variables (api_base table : string) (supabase : Client).
Variables (threshold stop_before : Z).

Local Notation "'day_step'" :=
  (walk_day api_base table supabase threshold).
Local Notation "'loop'" :=
  (walk api_base table supabase threshold stop_before).
Local Notation "'loop_fuel' n" :=
  (walk_fuel n api_base table supabase threshold stop_before)
  (at level 10, n at level 9).

(** One day: what [walk_day] does to the variables of the loop. *)
Lemma walk_day_result w s w1 s1 :
  day_step w s = (Ok w1, s1) ->
  exists affected,
    cur w1 = cur w /\
    empty_streak w1 = (if affected =? 0 then empty_streak w + 1 else 0) /\
    total_affected w1 = total_affected w + affected /\
    days_processed w1 = days_processed w + 1 /\
    history w1 = (cur w, affected) :: history w.
Proof.
  unfold walk_day, bind.
  destruct (collect_day api_base LOCATIONS (cur w) [] s) as [[rows|e] s2];
    [|discriminate].
  destruct (upsert_rows supabase table rows s2) as [[a|e] s3]; [|discriminate].
  unfold emit, ret. intros H. injection H as <- _.
  exists a. cbn. repeat split.
Qed.

(** The loop, one iteration at a time: the fuel is never used up. *)
Lemma walk_unfold w s :
  loop w s =
  if cur w <? stop_before then (Ok w, s)
  else
    match day_step w s with
    | (Raise e, s1) => (Raise e, s1)
    | (Ok w1, s1) =>
        if empty_streak w1 >=? threshold then
          (Ok w1, {| world := world s1;
                     trace := trace s1 ++ [EvLog INFO LOGGER msg_stopping] |})
        else
          match date_sub (cur w1) 1 with
          | Raise e => (Raise e, s1)
          | Ok prev => loop (moved_back w1 prev) s1
          end
    end.
Proof.
  unfold walk.
  destruct (cur w <? stop_before) eqn:Hstop.
  - destruct (Z.to_nat (cur w - stop_before + 1)); cbn [walk_fuel];
      rewrite Hstop; reflexivity.
  - apply Z.ltb_ge in Hstop.
    destruct (Z.to_nat (cur w - stop_before + 1)) as [|fuel] eqn:Hfuel; [lia|].
    cbn [walk_fuel].
    replace (cur w <? stop_before) with false by (symmetry; apply Z.ltb_ge; lia).
    unfold bind at 1.
    destruct (day_step w s) as [[w1 |e] s1] eqn:Hday; [|reflexivity].
    destruct (walk_day_result _ _ _ _ Hday) as (a & Hcur & _).
    destruct (empty_streak w1 >=? threshold); [reflexivity|].
    unfold date_sub.
    destruct (valid_ordinal (cur w1 - 1)); [|reflexivity].
    rewrite bind_lift_Ok. cbn [cur moved_back].
    replace (Z.to_nat (cur w1 - 1 - stop_before + 1)) with fuel by lia.
    reflexivity.
Qed.

Lemma head_invariant_stopped w : head_invariant threshold w -> stopped_at_first threshold w.
Proof. intros (H1 & H2 & H3). repeat split; auto. intros; eauto. Qed.

Lemma walk_fuel_stops fuel : forall w s w' s',
  head_invariant threshold w ->
  loop_fuel fuel w s = (Ok w', s') ->
  stopped_at_first threshold w'.
Proof.
  induction fuel as [|fuel IH]; intros w s w' s' Hinv Hrun;
    cbn [walk_fuel] in Hrun.
  - destruct (cur w <? stop_before); injection Hrun as <- _;
      apply head_invariant_stopped, Hinv.
  - destruct (cur w <? stop_before).
    { injection Hrun as <- _. apply head_invariant_stopped, Hinv. }
    unfold bind at 1 in Hrun.
    destruct (day_step w s) as [[w1|e] s1] eqn:Hday; [|discriminate].
    destruct (walk_day_result _ _ _ _ Hday)
      as (a & Hcur & Hstreak & _ & Hdays & Hhist).
    destruct Hinv as (Hs & Hd & Hbefore).
    assert (Hs1 : empty_streak w1 = streak_of (history w1)).
    { rewrite Hhist, Hstreak, Hs. cbn [streak_of]. reflexivity. }
    assert (Hd1 : days_processed w1 = Z.of_nat (length (history w1))).
    { rewrite Hhist, Hdays, Hd. cbn [length]. lia. }
    assert (Hpast : forall later earlier,
              history w1 = later ++ earlier -> later <> [] ->
              streak_of earlier < threshold).
    { intros later earlier Heq Hne. rewrite Hhist in Heq.
      destruct later as [|d later]; [congruence|].
      injection Heq as _ Heq. eapply Hbefore. exact Heq. }
    destruct (empty_streak w1 >=? threshold) eqn:Hthr.
    + rewrite bind_emit in Hrun. injection Hrun as <- _.
      repeat split; assumption.
    + unfold date_sub in Hrun.
      destruct (valid_ordinal (cur w1 - 1)); [|discriminate].
      rewrite bind_lift_Ok in Hrun.
      eapply IH; [|exact Hrun].
      repeat split; cbn [empty_streak days_processed history]; try assumption.
      intros later earlier Heq.
      destruct later as [|d later].
      * cbn [app] in Heq. rewrite <- Heq, <- Hs1.
        rewrite Z.geb_leb in Hthr. apply Z.leb_gt in Hthr. exact Hthr.
      * eapply Hpast; [exact Heq|discriminate].
Qed.

(** C1. For every threshold of at least 1 and whatever the affected counts
    of the days: a day after which the streak has reached the threshold
    ends the walk at once, with nothing done after it but the log line of
    the stop; and in the history of a walk that has returned, the streak
    was below the threshold after every day but the last, so the day on
    which the streak reaches the threshold is the last day processed. *)
Theorem walk_stops_at_threshold end_day :
  1 <= threshold ->
  (forall w s w1 s1,
     stop_before <= cur w ->
     day_step w s = (Ok w1, s1) ->
     threshold <= empty_streak w1 ->
     loop w s
     = (Ok w1, {| world := world s1;
                  trace := trace s1 ++ [EvLog INFO LOGGER msg_stopping] |})) /\
  (forall s w' s',
     loop (initial_walk end_day) s = (Ok w', s') ->
     empty_streak w' = streak_of (history w') /\
     days_processed w' = Z.of_nat (length (history w')) /\
     forall later earlier,
       history w' = later ++ earlier -> later <> [] ->
       streak_of earlier < threshold).
Proof.
  intros Hthr. split.
  - intros w s w1 s1 Hcur Hday Hreached.
    rewrite walk_unfold, Hday.
    replace (cur w <? stop_before) with false
      by (symmetry; apply Z.ltb_ge; lia).
    replace (empty_streak w1 >=? threshold) with true
      by (symmetry; rewrite Z.geb_leb; apply Z.leb_le; lia).
    reflexivity.
  - intros s w' s' Hrun.
    unfold walk in Hrun.
    eapply walk_fuel_stops; [|exact Hrun].
    repeat split. intros later earlier Heq. cbn [initial_walk history] in Heq.
    symmetry in Heq. apply app_eq_nil in Heq as [_ ->]. cbn. lia.
Qed.

End BackwardWalk.

(** ** What the walk asks of the API *)

Section Traces.

Context {P : Platform}.

Lemma emits_ret {A} Q (a : A) : emits Q (ret a).
Proof. intros s. exists []. rewrite app_nil_r. split; [reflexivity|constructor]. Qed.

Lemma emits_lift {A} Q (r : Res A) : emits Q (lift r).
Proof. intros s. exists []. rewrite app_nil_r. split; [reflexivity|constructor]. Qed.

Lemma emits_emit Q e : Q e -> emits Q (emit e).
Proof. intros He s. exists [e]. split; [reflexivity|]. repeat constructor. exact He. Qed.

Lemma emits_call {A} Q (f : World -> A * World) : emits Q (call f).
Proof.
  intros s. exists []. rewrite app_nil_r. unfold call.
  destruct (f (world s)). split; [reflexivity|constructor].
Qed.

Lemma emits_pass Q (f : World -> World) : emits Q (pass f).
Proof. intros s. exists []. rewrite app_nil_r. split; [reflexivity|constructor]. Qed.

Lemma emits_bind {A B} Q (m : M A) (k : A -> M B) :
  emits Q m -> (forall a, emits Q (k a)) -> emits Q (bind m k).
Proof.
  intros Hm Hk s. unfold bind. destruct (Hm s) as (evs & Htr & Hq).
  destruct (m s) as [[a|e] s1]; cbn [snd] in *.
  - destruct (Hk a s1) as (evs' & Htr' & Hq').
    exists (evs ++ evs'). rewrite Htr', Htr, app_assoc.
    split; [reflexivity|]. apply Forall_app; auto.
  - exists evs. auto.
Qed.

Lemma emits_if {A} Q (b : bool) (m1 m2 : M A) :
  emits Q m1 -> emits Q m2 -> emits Q (if b then m1 else m2).
Proof. destruct b; auto. Qed.

Lemma rows_loop_emits Q loc base limit items : forall i rows,
  emits Q (rows_loop loc base limit i items rows).
Proof.
  induction items as [|item rest IH]; intros i rows; cbn [rows_loop].
  - apply emits_ret.
  - apply emits_bind; [apply emits_lift|intros ts_sgt].
    apply emits_bind; [apply emits_lift|intros ts_utc].
    apply emits_if; [apply IH|].
    apply emits_bind; [apply emits_call|intros created]. apply IH.
Qed.

Lemma build_rows_emits api_base lo hi loc day :
  lo <= day <= hi ->
  emits (fetches_within api_base lo hi) (build_rows api_base loc day).
Proof.
  intros Hday. unfold build_rows.
  apply emits_bind; [apply emits_emit; cbn; eauto|intros _].
  apply emits_bind; [apply emits_call|intros [e|raw]].
  - apply emits_bind; [apply emits_emit; exact I|intros _]. apply emits_ret.
  - apply emits_if; [apply emits_ret|].
    apply emits_bind; [apply emits_call|intros now].
    apply emits_bind; [apply emits_lift|intros limit].
    apply emits_bind; [apply emits_lift|intros items].
    apply rows_loop_emits.
Qed.

Lemma collect_day_emits api_base lo hi day locs : forall day_rows,
  lo <= day <= hi ->
  emits (fetches_within api_base lo hi)
    (collect_day api_base locs day day_rows).
Proof.
  induction locs as [|loc rest IH]; intros day_rows Hday; cbn [collect_day].
  - apply emits_ret.
  - apply emits_bind; [apply build_rows_emits; exact Hday|intros rows].
    apply emits_bind; [apply emits_emit; exact I|intros _].
    apply emits_bind; [apply emits_pass|intros _].
    apply IH. exact Hday.
Qed.

Lemma upsert_rows_emits api_base lo hi supabase table rows :
  emits (fetches_within api_base lo hi) (upsert_rows supabase table rows).
Proof.
  unfold upsert_rows. destruct rows as [|r rows]; [apply emits_ret|].
  generalize (py_range_step (length (r :: rows)) CHUNK) 0.
  generalize (r :: rows). intros all starts.
  induction starts as [|i rest IH]; intros inserted; cbn [upsert_loop].
  - apply emits_ret.
  - apply emits_bind; [apply emits_emit; exact I|intros _].
    apply emits_bind; [apply emits_call|intros [e|data]].
    + apply emits_lift.
    + apply IH.
Qed.

Lemma walk_day_emits api_base table supabase threshold lo hi w :
  lo <= cur w <= hi ->
  emits (fetches_within api_base lo hi)
    (walk_day api_base table supabase threshold w).
Proof.
  intros Hcur. unfold walk_day.
  apply emits_bind; [apply collect_day_emits; exact Hcur|intros rows].
  apply emits_bind; [apply upsert_rows_emits|intros affected].
  apply emits_bind; [apply emits_emit; exact I|intros _]. apply emits_ret.
Qed.

Lemma emits_bind_run {A B} Q (m : M A) (k : A -> M B) :
  emits Q m ->
  (forall a s s1, m s = (Ok a, s1) ->
     exists evs, trace (snd (k a s1)) = trace s1 ++ evs /\ Forall Q evs) ->
  emits Q (bind m k).
Proof.
  intros Hm Hk s. unfold bind. destruct (Hm s) as (evs & Htr & Hq).
  destruct (m s) as [[a|e] s1] eqn:Hrun; cbn [snd] in *.
  - destruct (Hk a s s1 Hrun) as (evs' & Htr' & Hq').
    exists (evs ++ evs'). rewrite Htr', Htr, app_assoc.
    split; [reflexivity|]. apply Forall_app; auto.
  - exists evs. auto.
Qed.

Lemma emits_bind_lift {A B} Q (r : Res A) (k : A -> M B) :
  (forall a, r = Ok a -> emits Q (k a)) -> emits Q (bind (lift r) k).
Proof.
  intros Hk. destruct r as [a|e].
  - intros s. rewrite bind_lift_Ok. apply Hk. reflexivity.
  - intros s. rewrite bind_lift_Raise. exists []. rewrite app_nil_r.
    split; [reflexivity|constructor].
Qed.

Lemma walk_fuel_emits api_base table supabase threshold stop_before hi fuel :
  forall w,
    cur w <= hi ->
    emits (fetches_within api_base stop_before hi)
      (walk_fuel fuel api_base table supabase threshold stop_before w).
Proof.
  induction fuel as [|fuel IH]; intros w Hcur; cbn [walk_fuel].
  - apply emits_if; apply emits_ret.
  - destruct (cur w <? stop_before) eqn:Hstop; [apply emits_ret|].
    apply Z.ltb_ge in Hstop.
    apply emits_bind_run; [apply walk_day_emits; lia|].
    intros w1 s s1 Hday.
    destruct (walk_day_result _ _ _ _ _ _ _ _ Hday) as (a & Hc & _).
    revert s1 Hday. intros s1 _. revert s1.
    apply emits_if.
    + apply emits_bind; [apply emits_emit; exact I|intros _]. apply emits_ret.
    + apply emits_bind_lift. intros prev Hprev. apply IH. cbn [cur].
      unfold date_sub in Hprev.
      destruct (valid_ordinal (cur w1 - 1)); [|discriminate].
      injection Hprev as <-. lia.
Qed.

End Traces.

(** ** Years of 365 days and calendar years *)

Section Years.

Lemma days_before_year_succ y :
  _days_before_year (y + 1)
  = _days_before_year y + 365 + (if _is_leap y then 1 else 0).
Proof.
  unfold _days_before_year, _is_leap. cbv zeta.
  replace (y + 1 - 1) with y by lia.
  destruct (y mod 4 =? 0) eqn:H4; destruct (y mod 100 =? 0) eqn:H100;
    destruct (y mod 400 =? 0) eqn:H400; cbn [negb andb orb];
    rewrite ?Z.eqb_eq, ?Z.eqb_neq in *;
    Z.div_mod_to_equations; lia.
Qed.

Lemma days_before_year_back y (n : nat) :
  (1 <= n)%nat ->
  _days_before_year (y - Z.of_nat n) + 365 * Z.of_nat n
  + (if _is_leap (y - Z.of_nat n) then 1 else 0)
  <= _days_before_year y.
Proof.
  induction n as [|n IH]; intros Hn; [lia|].
  pose proof (days_before_year_succ (y - Z.of_nat (S n))) as Hstep.
  replace (y - Z.of_nat (S n) + 1) with (y - Z.of_nat n) in Hstep by lia.
  destruct n as [|n].
  - replace (y - Z.of_nat 0) with y in Hstep by lia. lia.
  - specialize (IH ltac:(lia)).
    destruct (_is_leap (y - Z.of_nat (S n))); lia.
Qed.

(** The day [n] years of 365 days before a date is not earlier than the
    same day of the same month [n] calendar years before it. *)
Lemma calendar_years_back y m d n :
  1 <= n ->
  _ymd2ord (y - n) m d <= _ymd2ord y m d - 365 * n.
Proof.
  intros Hn. unfold _ymd2ord, _days_before_month.
  pose proof (days_before_year_back y (Z.to_nat n) ltac:(lia)) as H.
  rewrite Z2Nat.id in H by lia.
  destruct (_is_leap (y - n)), (_is_leap y), (m >? 2); cbn [andb]; lia.
Qed.

End Years.

(** ** The horizon of the walk and the configuration *)

Section Horizon.

Context {P : Platform}.

Lemma walk_fuel_horizon api_base table supabase threshold stop_before hi fuel :
  forall w s w' s',
    cur w <= hi ->
    walk_fuel fuel api_base table supabase threshold stop_before w s
      = (Ok w', s') ->
    (forall p, p ∈ history w' ->
       p ∈ history w \/ stop_before <= fst p <= hi) /\
    days_processed w' - Z.of_nat (length (history w'))
      = days_processed w - Z.of_nat (length (history w)) /\
    days_processed w <= days_processed w'
      <= days_processed w + Z.max 0 (cur w - stop_before + 1).
Proof.
  induction fuel as [|fuel IH]; intros w s w' s' Hcur Hrun;
    cbn [walk_fuel] in Hrun.
  - destruct (cur w <? stop_before); injection Hrun as <- _;
      (split; [auto|split; lia]).
  - destruct (cur w <? stop_before) eqn:Hstop.
    { injection Hrun as <- _. split; [auto|split; lia]. }
    apply Z.ltb_ge in Hstop. unfold bind at 1 in Hrun.
    destruct (walk_day api_base table supabase threshold w s)
      as [[w1|e] s1] eqn:Hday; [|discriminate].
    destruct (walk_day_result _ _ _ _ _ _ _ _ Hday)
      as (a & Hc & _ & _ & Hdays & Hhist).
    destruct (empty_streak w1 >=? threshold).
    + rewrite bind_emit in Hrun. injection Hrun as <- _.
      rewrite Hhist, Hdays. cbn [length]. split; [|split; lia].
      intros p Hp. apply elem_of_cons in Hp as [->|Hp]; [right; cbn; lia|auto].
    + unfold date_sub in Hrun.
      destruct (valid_ordinal (cur w1 - 1)); [|discriminate].
      rewrite bind_lift_Ok in Hrun.
      apply IH in Hrun; [|cbn [cur]; lia].
      cbn [cur history days_processed] in Hrun.
      destruct Hrun as (Hh & Hd & Hn).
      rewrite Hhist, Hdays in *. cbn [length] in Hd.
      split; [|split; lia].
      intros p Hp. destruct (Hh p Hp) as [Hin|Hin]; [|auto].
      apply elem_of_cons in Hin as [->|Hin]; [right; cbn; lia|auto].
Qed.

Lemma configured_cases env k default v :
  configured env k default = Ok v ->
  1 <= v /\
  (forall x n, env !! k = Some x -> py_int x = Some n -> v = Z.max 1 n) /\
  (forall n, env !! k = None -> py_int default = Some n -> v = Z.max 1 n).
Proof.
  unfold configured, int_of, getenv. intros H.
  destruct (env !! k) as [x|].
  - destruct (py_int x) as [n|] eqn:Hpx; [|discriminate]. injection H as <-.
    split; [lia|]. split; [|discriminate].
    intros x' n' Hx Hn. injection Hx as <-. congruence.
  - destruct (py_int default) as [n|] eqn:Hpd; [|discriminate].
    injection H as <-.
    split; [lia|]. split; [discriminate|]. intros n' _ Hn. congruence.
Qed.

(** What [setup] has computed when it returns. *)
Lemma setup_result env s c s0 :
  setup env s = (Ok c, s0) ->
  configured env "EMPTY_CHUNKS_TO_STOP" "2" = Ok (threshold_of c) /\
  configured env "BACKFILL_MAX_YEARS" "5" = Ok (max_years_of c) /\
  stop_before_of c = today_of c - 365 * max_years_of c.
Proof.
  unfold setup. intros H.
  destruct (configured env "EMPTY_CHUNKS_TO_STOP" "2") as [thr|e];
    [rewrite bind_lift_Ok in H|discriminate].
  destruct (configured env "BACKFILL_MAX_YEARS" "5") as [yrs|e];
    [rewrite bind_lift_Ok in H|discriminate].
  destruct (environ env "SUPABASE_URL") as [url|e];
    [rewrite bind_lift_Ok in H|discriminate].
  destruct (environ env "SUPABASE_ANON_KEY") as [key|e];
    [rewrite bind_lift_Ok in H|discriminate].
  destruct (create_client url key) as [client|e];
    [rewrite bind_lift_Ok in H|discriminate].
  unfold yesterday_sgt, now_sgt_date in H.
  rewrite bind_assoc, bind_call, bind_assoc in H.
  destruct (SGT.fromutc _) as [today|e];
    [rewrite bind_lift_Ok, bind_ret in H|discriminate].
  rewrite !bind_assoc, bind_call, bind_assoc in H.
  destruct (SGT.fromutc _) as [local|e];
    [rewrite bind_lift_Ok, bind_ret in H|discriminate].
  destruct (date_sub _ 1) as [end_day|e];
    [rewrite bind_lift_Ok in H|discriminate].
  unfold timedelta_days in H.
  destruct (Z.abs (365 * yrs) <=? 999999999);
    [rewrite bind_lift_Ok in H|discriminate].
  unfold date_sub in H.
  destruct (valid_ordinal _); [rewrite bind_lift_Ok in H|discriminate].
  rewrite bind_emit in H. injection H as <- _. cbn. auto.
Qed.

(** C10. The two parameters of the backfill are clamped at startup: a
    value of the environment that [int()] reads as [n] gives [max(1, n)]
    as threshold, respectively as number of years (2 and 5 when unset), so
    that the walk starts with a threshold of at least 1 and a horizon of
    at least 365 days before today. *)
Theorem backfill_clamps env :
  (forall k default v n,
     env !! k = Some v -> py_int v = Some n ->
     configured env k default = Ok (Z.max 1 n)) /\
  (forall s c s0,
     setup env s = (Ok c, s0) ->
     (forall v n, env !! "EMPTY_CHUNKS_TO_STOP" = Some v ->
        py_int v = Some n -> threshold_of c = Z.max 1 n) /\
     (forall v n, env !! "BACKFILL_MAX_YEARS" = Some v ->
        py_int v = Some n -> max_years_of c = Z.max 1 n) /\
     (env !! "EMPTY_CHUNKS_TO_STOP" = None -> threshold_of c = 2) /\
     (env !! "BACKFILL_MAX_YEARS" = None -> max_years_of c = 5) /\
     1 <= threshold_of c /\
     1 <= max_years_of c /\
     stop_before_of c = today_of c - 365 * max_years_of c /\
     stop_before_of c <= today_of c - 365).
Proof.
  split.
  - intros k default v n Hv Hn. unfold configured, int_of, getenv.
    rewrite Hv, Hn. reflexivity.
  - intros s c s0 Hsetup.
    destruct (setup_result env s c s0 Hsetup) as (Hthr & Hyrs & Hstop).
    apply configured_cases in Hthr as (Ht1 & Ht2 & Ht3).
    apply configured_cases in Hyrs as (Hy1 & Hy2 & Hy3).
    repeat split; auto; try lia.
    + intros Hnone. apply (Ht3 2 Hnone). reflexivity.
    + intros Hnone. apply (Hy3 5 Hnone). reflexivity.
Qed.

(** C2. Whatever the threshold and the streak: the walk returns or raises
    after at most as many days as lie between its first day and the horizon
    [today - 365 * max_years]; every request of the walk is for a day at or
    after the horizon, and so is every day it has processed.  The horizon
    counts a year as 365 days, and so is not earlier than the date
    [max_years] calendar years before today. *)
Theorem walk_horizon env s c s0 :
  setup env s = (Ok c, s0) ->
  let horizon := today_of c - 365 * max_years_of c in
  let run := walk (api_base_of c) (table_of c) (client_of c) (threshold_of c)
               (stop_before_of c) (initial_walk (end_of c)) s0 in
  stop_before_of c = horizon /\
  (forall y m d,
     today_of c = _ymd2ord y m d ->
     _ymd2ord (y - max_years_of c) m d <= horizon) /\
  (exists evs,
     trace (snd run) = trace s0 ++ evs /\
     Forall (fetches_within (api_base_of c) horizon (end_of c)) evs) /\
  (forall w', fst run = Ok w' ->
     (forall day affected, (day, affected) ∈ history w' ->
        horizon <= day <= end_of c) /\
     days_processed w' = Z.of_nat (length (history w')) /\
     days_processed w' <= Z.max 0 (end_of c - horizon + 1)).
Proof.
  intros Hsetup horizon run.
  destruct (setup_result env s c s0 Hsetup) as (_ & Hyears & Hstop).
  apply configured_cases in Hyears as (Hyears & _).
  fold horizon in Hstop. split; [exact Hstop|]. split; [|split].
  - intros y m d Htoday. subst horizon. rewrite Htoday.
    apply calendar_years_back. exact Hyears.
  - subst run. rewrite Hstop. apply walk_fuel_emits. cbn. lia.
  - intros w' Hrun. subst run.
    destruct (walk _ _ _ _ _ _ s0) as [r s'] eqn:Hwalk.
    cbn [fst] in Hrun. subst r. unfold walk in Hwalk.
    apply (walk_fuel_horizon _ _ _ _ _ (end_of c)) in Hwalk; [|cbn; lia].
    cbn [initial_walk history days_processed cur length] in Hwalk.
    destruct Hwalk as (Hh & Hd & Hn). rewrite Hstop in *.
    split; [|split; lia].
    intros day affected Hin. destruct (Hh _ Hin) as [Hnil|Hok]; [|exact Hok].
    apply elem_of_nil in Hnil. contradiction.
Qed.

End Horizon.

Import ScenarioBackfill.

Lemma walk_stops_at_threshold_witness :
  @walk Sim.platform API_DEFAULT "meter_readings" (client_of config) 2
    (first_day + 1 - 365) before_third started
  = (Ok final,
     {| world := world after_third;
        trace := trace after_third ++ [EvLog INFO LOGGER msg_stopping] |}) /\
  streak_of [(first_day - 1, 0); (first_day, 5)] < 2.
Proof.
  destruct (@walk_stops_at_threshold Sim.platform API_DEFAULT "meter_readings"
              (client_of config) 2 (first_day + 1 - 365) first_day)
    as [Hstop Hhist]; [lia|].
  split.
  - assert (H1 : first_day + 1 - 365 <= cur before_third)
      by (vm_compute; discriminate).
    assert (H2 : @walk_day Sim.platform API_DEFAULT "meter_readings"
                   (client_of config) 2 before_third started
                 = (Ok final, after_third))
      by (vm_compute; reflexivity).
    assert (H3 : 2 <= empty_streak final) by (vm_compute; discriminate).
    exact (Hstop before_third started final after_third H1 H2 H3).
  - destruct (Hhist started final finished) as (_ & _ & Hbefore);
      [vm_compute; reflexivity|].
    apply (Hbefore [(first_day - 2, 0)]); [reflexivity|discriminate].
Defined.

Lemma walk_horizon_witness :
  stop_before_of config = today_of config - 365 * max_years_of config.
Proof.
  destruct (@walk_horizon Sim.platform env boot config started) as [H _];
    [vm_compute; reflexivity|].
  exact H.
Defined.

Lemma backfill_clamps_witness :
  @configured env_low "EMPTY_CHUNKS_TO_STOP" "2" = Ok 1 /\
  @configured env_low "BACKFILL_MAX_YEARS" "5" = Ok 1 /\
  threshold_of config_low = Z.max 1 0.
Proof.
  destruct (@backfill_clamps Sim.platform env_low) as [Hconf Hsetup].
  split; [|split].
  - apply (Hconf "EMPTY_CHUNKS_TO_STOP" "2" "0" 0); vm_compute; reflexivity.
  - apply (Hconf "BACKFILL_MAX_YEARS" "5" "-3" (-3)); vm_compute; reflexivity.
  - destruct (Hsetup boot config_low started_low) as [H _];
      [vm_compute; reflexivity|].
    apply (H "0" 0); vm_compute; reflexivity.
Defined.

(** The walk over the counts 5, 0, 0, 3 with threshold 2: three days are
    processed, and the day with count 3 is never asked for. *)
Example backfill_5_0_0_3 :
  @main Sim.platform env boot
  = (Ok final,
     {| world := world finished;
        trace := trace finished
                 ++ [EvLog INFO LOGGER
                       "Backfill complete. Days processed=3, total rows affected=5"] |})
  /\ asked_for (first_day - 2) (trace finished) = true
  /\ asked_for (first_day - 3) (trace finished) = false.
Proof. repeat split; vm_compute; reflexivity. Qed.

Section ThresholdBelowOne.

Context {P : Platform}.

(** Were the threshold not clamped: with a threshold of 0 or less the walk
    would process its first day and stop after it. *)
Remark walk_unclamped api_base table supabase threshold stop_before w s w1 s1 :
  threshold <= 0 ->
  0 <= empty_streak w ->
  stop_before <= cur w ->
  walk_day api_base table supabase threshold w s = (Ok w1, s1) ->
  walk api_base table supabase threshold stop_before w s
  = (Ok w1, {| world := world s1;
               trace := trace s1 ++ [EvLog INFO LOGGER msg_stopping] |}).
Proof.
  intros Hthr Hstreak Hcur Hday. rewrite walk_unfold, Hday.
  destruct (walk_day_result _ _ _ _ _ _ _ _ Hday) as (a & _ & Hs & _).
  replace (cur w <? stop_before) with false
    by (symmetry; apply Z.ltb_ge; lia).
  replace (empty_streak w1 >=? threshold) with true; [reflexivity|].
  symmetry. rewrite Z.geb_leb. apply Z.leb_le.
  destruct (a =? 0); lia.
Qed.

End ThresholdBelowOne.

(** * Further properties of the Row Builder *)

Section RowBuilderEdges.

Context {P : Platform}.

Lemma rows_loop_trace loc base limit items i rows s :
  trace (snd (rows_loop loc base limit i items rows s)) = trace s.
Proof.
  destruct (rows_loop_emits (fun _ => False) loc base limit items i rows s)
    as (evs & Htr & Hq).
  destruct evs as [|e evs]; [rewrite Htr; apply app_nil_r|].
  inversion Hq; contradiction.
Qed.

(** X1. A response that Python takes for false (null, an empty list, dict
    or string, zero, [false]) gives the empty list at once: the request
    is the only thing done, the clock is not read and nothing is logged. *)
Theorem build_rows_falsy_response api_base loc day s raw :
  response api_base loc day s = inr raw ->
  truthy raw = false ->
  build_rows api_base loc day s
  = (Ok [],
     {| world := snd (http_get_json (fetch_url api_base loc day) (world s));
        trace := trace s ++ [EvGet (fetch_url api_base loc day) 30] |}).
Proof.
  unfold response. intros Hresp Hfalse.
  unfold build_rows. rewrite bind_emit, bind_call. cbn [world trace].
  rewrite Hresp, Hfalse. reflexivity.
Qed.

(** X2. A response that is true but cannot be iterated (a number other
    than zero, [true]) is not absorbed like a failed fetch: [build_rows]
    raises [TypeError], after the request and one reading of the clock. *)
Theorem build_rows_not_iterable api_base loc day s raw :
  response api_base loc day s = inr raw ->
  truthy raw = true ->
  py_iter raw = Raise TypeError ->
  valid_datetime (build_time api_base loc day s + US_PER_HOUR) = true ->
  fst (build_rows api_base loc day s) = Raise TypeError /\
  trace (snd (build_rows api_base loc day s))
  = trace s ++ [EvGet (fetch_url api_base loc day) 30].
Proof.
  unfold response, build_time. intros Hresp Htrue Hiter Hnow.
  unfold build_rows. rewrite bind_emit, bind_call. cbn [world trace].
  rewrite Hresp, Htrue. cbn [negb]. rewrite bind_call. cbn [world trace].
  unfold datetime_add. rewrite Hnow, bind_lift_Ok, Hiter, bind_lift_Raise.
  split; reflexivity.
Qed.

Lemma enumerate_from_map {A B} (f : A -> B) (l : list A) : forall i,
  enumerate_from i (map f l)
  = map (fun p => (fst p, f (snd p))) (enumerate_from i l).
Proof.
  induction l as [|x l IH]; intros i; [reflexivity|].
  cbn [map enumerate_from fst snd]. rewrite IH. reflexivity.
Qed.

Lemma all_representable_map {A B} (f : A -> B) day (l : list A) i :
  all_representable day i (map f l) = all_representable day i l.
Proof.
  unfold all_representable. rewrite enumerate_from_map.
  generalize (enumerate_from i l). intros e.
  induction e as [|p e IH]; [reflexivity|]. cbn [map forallb fst].
  rewrite IH. reflexivity.
Qed.

Lemma future_count_map {A B} (f : A -> B) limit day (l : list A) i :
  length (List.filter (fun p => in_future limit day (fst p))
            (enumerate_from i (map f l)))
  = length (List.filter (fun p => in_future limit day (fst p))
              (enumerate_from i l)).
Proof.
  rewrite enumerate_from_map. generalize (enumerate_from i l). intros e.
  induction e as [|p e IH]; [reflexivity|]. cbn [map List.filter fst].
  destruct (in_future limit day (fst p)); cbn [length]; rewrite IH;
    reflexivity.
Qed.

Lemma kept_count {A} limit day (l : list (Z * A)) :
  (length (kept limit day l)
   + length (List.filter (fun p => in_future limit day (fst p)) l)
   = length l)%nat.
Proof.
  unfold kept. induction l as [|p l IH]; [reflexivity|].
  cbn [List.filter]. destruct (in_future limit day (fst p));
    cbn [negb length]; lia.
Qed.

(** X3. A response that is a non-empty JSON object (an error payload, say)
    is iterated over its keys: each key that passes the future-guard gives a
    record, for the minute of its position, with a null reading. *)
Theorem build_rows_object_response api_base loc day s fields :
  response api_base loc day s = inr (JDict fields) ->
  fields <> [] ->
  valid_datetime (build_time api_base loc day s + US_PER_HOUR) = true ->
  all_representable day 0 fields = true ->
  let limit := build_time api_base loc day s + US_PER_HOUR in
  exists out s',
    build_rows api_base loc day s = (Ok out, s') /\
    (length out
       + length (List.filter (fun p => in_future limit day (fst p))
                   (enumerate_from 0 fields)) = length fields)%nat /\
    Forall (fun r => reading_value r = None /\ row_from loc r) out.
Proof.
  intros Hresp Hne Hnow Hrep limit.
  set (keys := map (fun kv : string * JSON float => JStr (F:=float) (fst kv))
                 fields).
  destruct (build_rows_spec api_base loc day s (JDict fields) keys)
    as (out & s' & Hrun & _ & Hall); auto.
  { destruct fields; [congruence|reflexivity]. }
  { unfold keys. rewrite all_representable_map. exact Hrep. }
  fold limit in Hall. exists out, s'. split; [exact Hrun|]. split.
  - rewrite <- (Forall2_length _ _ _ Hall).
    rewrite <- (future_count_map (fun kv => JStr (F:=float) (fst kv))).
    fold keys. rewrite kept_count, enumerate_from_length.
    unfold keys. apply length_map.
  - apply Forall_forall. intros r Hr.
    apply rows_of_kept in Hall as [Hfrom _].
    destruct (Hfrom r Hr) as (k & item & Hk & _ & Hid & Hname & Hval & _).
    unfold keys in Hk. rewrite list_lookup_fmap in Hk.
    destruct (fields !! k); [|discriminate]. injection Hk as <-.
    repeat split; assumption.
Qed.

End RowBuilderEdges.

Section RowBuilderMore.

Context {P : Platform}.

(** After its request, [build_rows] adds at most the warning of a failed
    fetch. *)
Lemma build_rows_tail api_base loc day s :
  exists evs,
    trace (snd (build_rows api_base loc day s))
    = trace s ++ EvGet (fetch_url api_base loc day) 30 :: evs /\
    (evs = [] \/ exists msg, evs = [EvLog WARNING "supabase-common" msg]).
Proof.
  unfold build_rows. rewrite bind_emit, bind_call. cbn [world trace].
  destruct (fst (http_get_json _ _)) as [e|raw].
  - rewrite bind_emit. cbn. rewrite <- app_assoc. eauto.
  - exists []. split; [|left; reflexivity].
    destruct (truthy raw); cbn [negb]; [|reflexivity].
    rewrite bind_call. cbn [world trace].
    destruct (datetime_add _ US_PER_HOUR) as [limit|e];
      [rewrite bind_lift_Ok|reflexivity].
    destruct (py_iter raw) as [items|e]; [rewrite bind_lift_Ok|reflexivity].
    rewrite rows_loop_trace. reflexivity.
Qed.

(** X4. Whether it returns or raises, [build_rows] adds to the trace its
    one request and, exactly when the fetch has failed, the warning;
    nothing else: it never calls the store and never pauses. *)
Theorem build_rows_trace api_base loc day s :
  trace (snd (build_rows api_base loc day s))
  = trace s
    ++ EvGet (fetch_url api_base loc day) 30
       :: match response api_base loc day s with
          | inl e =>
              [EvLog WARNING "supabase-common" (fetch_failed_msg loc day e)]
          | inr _ => []
          end.
Proof.
  unfold response, build_rows. rewrite bind_emit, bind_call. cbn [world trace].
  destruct (fst (http_get_json _ _)) as [e|raw].
  - rewrite bind_emit. cbn. rewrite <- app_assoc. reflexivity.
  - destruct (truthy raw); cbn [negb]; [|reflexivity].
    rewrite bind_call. cbn [world trace].
    destruct (datetime_add _ US_PER_HOUR) as [limit|e];
      [rewrite bind_lift_Ok|reflexivity].
    destruct (py_iter raw) as [items|e]; [rewrite bind_lift_Ok|reflexivity].
    rewrite rows_loop_trace. reflexivity.
Qed.

Lemma rows_loop_overflow loc day limit items : forall i rows s,
  all_representable day i items = false ->
  fst (rows_loop loc (combine_midnight day) limit i items rows s)
  = Raise OverflowError.
Proof.
  induction items as [|item rest IH]; intros i rows s Hrep; [discriminate|].
  unfold all_representable in Hrep. cbn [enumerate_from forallb fst] in Hrep.
  cbn [rows_loop]. unfold datetime_add. fold (local_instant day i).
  unfold representable in Hrep.
  destruct (valid_datetime (local_instant day i)); [|reflexivity].
  rewrite bind_lift_Ok. unfold SGT.astimezone_utc. fold (utc_instant day i).
  destruct (valid_datetime (utc_instant day i)); [|reflexivity].
  rewrite bind_lift_Ok. cbn [andb] in Hrep.
  destruct (utc_instant day i >? limit).
  - apply IH. exact Hrep.
  - rewrite bind_call. apply IH. exact Hrep.
Qed.

(** X5. When some entry of the response falls outside the years 1 to 9999
    of [datetime], on the wall clock or in UTC, [build_rows] raises
    [OverflowError]: it returns no partial batch. *)
Theorem build_rows_out_of_range api_base loc day s raw items :
  response api_base loc day s = inr raw ->
  truthy raw = true ->
  py_iter raw = Ok items ->
  valid_datetime (build_time api_base loc day s + US_PER_HOUR) = true ->
  all_representable day 0 items = false ->
  fst (build_rows api_base loc day s) = Raise OverflowError.
Proof.
  unfold response, build_time. intros Hresp Htrue Hiter Hnow Hrep.
  unfold build_rows. rewrite bind_emit, bind_call. cbn [world trace].
  rewrite Hresp, Htrue. cbn [negb]. rewrite bind_call. cbn [world trace].
  unfold datetime_add at 1. rewrite Hnow, bind_lift_Ok, Hiter, bind_lift_Ok.
  apply rows_loop_overflow. exact Hrep.
Qed.

Lemma stored_fields_of_entries loc day l out :
  Forall2 (is_row_of loc day) l out ->
  map stored_fields out
  = map (fun p => (ID loc, Name loc, reading_of (snd p),
                   utc_isoformat (utc_instant day (fst p)))) l.
Proof.
  induction 1 as [|p r l out (Hid & Hname & Hval & Hts) _ IH];
    [reflexivity|].
  cbn [map]. rewrite IH. unfold stored_fields.
  rewrite Hid, Hname, Hval, Hts. reflexivity.
Qed.

Lemma kept_all {A} limit day (l : list (Z * A)) :
  (forall p, In p l -> utc_instant day (fst p) <= limit) ->
  kept limit day l = l.
Proof.
  unfold kept. induction l as [|p l IH]; intros H; [reflexivity|].
  cbn [List.filter]. unfold in_future at 1.
  replace (utc_instant day (fst p) >? limit) with false.
  - cbn [negb]. f_equal. apply IH. intros q Hq. apply H. right. exact Hq.
  - symmetry. rewrite Z.gtb_ltb. apply Z.ltb_ge. apply H. left. reflexivity.
Qed.

(** X6. Building the rows of a device and day a second time, from the same
    response and with every entry at or before the limit of the guard in
    both runs, gives the same records but for [created_at]: same keys, same
    values, same order.  A re-run overwrites and adds nothing. *)
Theorem build_rows_rerun api_base loc day s1 s2 items :
  response api_base loc day s1 = inr (JList items) ->
  response api_base loc day s2 = inr (JList items) ->
  items <> [] ->
  valid_datetime (build_time api_base loc day s1 + US_PER_HOUR) = true ->
  valid_datetime (build_time api_base loc day s2 + US_PER_HOUR) = true ->
  all_representable day 0 items = true ->
  (forall i, (i < length items)%nat ->
     utc_instant day (Z.of_nat i) <= build_time api_base loc day s1 + US_PER_HOUR /\
     utc_instant day (Z.of_nat i) <= build_time api_base loc day s2 + US_PER_HOUR) ->
  exists out1 out2 s1' s2',
    build_rows api_base loc day s1 = (Ok out1, s1') /\
    build_rows api_base loc day s2 = (Ok out2, s2') /\
    length out1 = length items /\
    map stored_fields out1 = map stored_fields out2.
Proof.
  intros Hr1 Hr2 Hne Hn1 Hn2 Hrep Hpast.
  destruct (build_rows_spec api_base loc day s1 (JList items) items)
    as (out1 & s1' & Hrun1 & _ & Hall1); auto using truthy_nonempty_list.
  destruct (build_rows_spec api_base loc day s2 (JList items) items)
    as (out2 & s2' & Hrun2 & _ & Hall2); auto using truthy_nonempty_list.
  assert (Hin : forall p, In p (enumerate_from 0 items) ->
            (Z.to_nat (fst p) < length items)%nat /\ 0 <= fst p).
  { intros [j x] Hp.
    apply list_elem_of_In, elem_of_enumerate_from in Hp as (k & Hk & ->).
    apply lookup_lt_Some in Hk. cbn [fst]. lia. }
  rewrite kept_all in Hall1, Hall2.
  - exists out1, out2, s1', s2'. repeat split; try assumption.
    + rewrite <- (Forall2_length _ _ _ Hall1). apply enumerate_from_length.
    + rewrite (stored_fields_of_entries _ _ _ _ Hall1),
        (stored_fields_of_entries _ _ _ _ Hall2). reflexivity.
  - intros p Hp. destruct (Hin p Hp) as [Hlt Hpos].
    destruct (Hpast _ Hlt) as [_ H]. rewrite Z2Nat.id in H by lia. exact H.
  - intros p Hp. destruct (Hin p Hp) as [Hlt Hpos].
    destruct (Hpast _ Hlt) as [H _]. rewrite Z2Nat.id in H by lia. exact H.
Qed.

End RowBuilderMore.

Lemma build_rows_falsy_response_witness :
  outcome (@build_rows Sim.platform API_DEFAULT Scenario.school
             Scenario.day_2024_03_10 ScenarioOddBodies.no_data) = Some [].
Proof.
  rewrite (@build_rows_falsy_response Sim.platform API_DEFAULT Scenario.school
             Scenario.day_2024_03_10 ScenarioOddBodies.no_data (JList []));
    [reflexivity|vm_compute; reflexivity|reflexivity].
Defined.

Lemma build_rows_not_iterable_witness :
  fst (@build_rows Sim.platform API_DEFAULT Scenario.school
         Scenario.day_2024_03_10 ScenarioOddBodies.number) = Raise TypeError.
Proof.
  apply (@build_rows_not_iterable Sim.platform API_DEFAULT Scenario.school
           Scenario.day_2024_03_10 ScenarioOddBodies.number (JInt 5));
    vm_compute; reflexivity.
Defined.

Lemma build_rows_object_response_witness :
  exists out s',
    @build_rows Sim.platform API_DEFAULT Scenario.school
      Scenario.day_2024_03_10 ScenarioOddBodies.object = (Ok out, s') /\
    Forall (fun r => reading_value r = None) out.
Proof.
  destruct (@build_rows_object_response Sim.platform API_DEFAULT
              Scenario.school Scenario.day_2024_03_10
              ScenarioOddBodies.object ScenarioOddBodies.error_object)
    as (out & s' & Hrun & _ & Hall);
    [vm_compute; reflexivity|discriminate|vm_compute; reflexivity
    |vm_compute; reflexivity|].
  exists out, s'. split; [exact Hrun|].
  eapply Forall_impl; [exact Hall|]. intros r [H _]. exact H.
Defined.

Lemma build_rows_out_of_range_witness :
  fst (@build_rows Sim.platform API_DEFAULT Scenario.school 1
         ScenarioYearOne.state) = Raise OverflowError.
Proof.
  apply (@build_rows_out_of_range Sim.platform API_DEFAULT Scenario.school 1
           ScenarioYearOne.state (JList [JDict [("reading", JInt 60)]])
           [JDict [("reading", JInt 60)]]);
    vm_compute; reflexivity.
Defined.

Lemma build_rows_rerun_witness :
  exists out1 out2,
    outcome (@build_rows Sim.platform API_DEFAULT Scenario.school
               Scenario.day_2024_03_10 Scenario.day_after) = Some out1 /\
    outcome (@build_rows Sim.platform API_DEFAULT Scenario.school
               Scenario.day_2024_03_10 ScenarioOddBodies.later) = Some out2 /\
    map (@stored_fields Sim.platform) out1
    = map (@stored_fields Sim.platform) out2.
Proof.
  destruct (@build_rows_rerun Sim.platform API_DEFAULT Scenario.school
              Scenario.day_2024_03_10 Scenario.day_after
              ScenarioOddBodies.later Scenario.minutes91)
    as (out1 & out2 & s1' & s2' & Hrun1 & Hrun2 & _ & Heq);
    [vm_compute; reflexivity|vm_compute; reflexivity|discriminate
    |vm_compute; reflexivity|vm_compute; reflexivity|vm_compute; reflexivity|
    |].
  - intros i Hi.
    assert (Hmono : utc_instant Scenario.day_2024_03_10 (Z.of_nat i)
                    <= utc_instant Scenario.day_2024_03_10 90).
    { rewrite !utc_instant_fixed by first [lia | vm_compute; discriminate].
      change (length Scenario.minutes91) with 91%nat in Hi.
      unfold US_PER_MINUTE, US_PER_SECOND. lia. }
    split; (eapply Z.le_trans; [exact Hmono|vm_compute; discriminate]).
  - exists out1, out2. unfold outcome. rewrite Hrun1, Hrun2.
    repeat split. exact Heq.
Defined.

(** * Further properties of the Upsert Writer *)

Section UpsertMore.

Context {P : Platform}.

Lemma upserts_app (a b : list (Event float)) :
  upserts (a ++ b) = upserts a ++ upserts b.
Proof.
  induction a as [|ev a IH]; [reflexivity|].
  destruct ev; cbn; rewrite IH; reflexivity.
Qed.

Lemma upserts_sent table (cs : list (list (Row float))) :
  upserts (map (fun c => EvUpsert table c ON_CONFLICT) cs) = cs.
Proof. induction cs as [|c cs IH]; cbn; [|rewrite IH]; reflexivity. Qed.

Lemma upsert_loop_failure supabase table rows : forall starts inserted s k e,
  fst (replies supabase table
         (map (fun i => take CHUNK (drop i rows)) starts) (world s)) !! k
    = Some (inl e) ->
  forallb succeeded
    (take k (fst (replies supabase table
                    (map (fun i => take CHUNK (drop i rows)) starts)
                    (world s)))) = true ->
  fst (upsert_loop supabase table rows starts inserted s)
    = Raise (StoreError e) /\
  trace (snd (upsert_loop supabase table rows starts inserted s))
    = trace s
      ++ map (fun c => EvUpsert table c ON_CONFLICT)
           (take (S k) (map (fun i => take CHUNK (drop i rows)) starts)).
Proof.
  induction starts as [|i rest IH]; intros inserted s k e Hk Hbefore.
  - cbn in Hk. discriminate.
  - cbn [map replies] in Hk, Hbefore.
    cbn [upsert_loop]. rewrite bind_emit, bind_call. cbn [world trace].
    destruct (execute_upsert supabase table (take CHUNK (drop i rows))
                ON_CONFLICT (world s)) as [r w1] eqn:Hexec.
    destruct (replies supabase table
                (map (fun i => take CHUNK (drop i rows)) rest) w1)
      as [rs w2] eqn:Hrest.
    cbn [fst snd] in *.
    destruct k as [|k].
    + cbn in Hk. injection Hk as ->. unfold lift.
      cbn [fst snd trace take map]. split; reflexivity.
    + cbn [lookup list_lookup take forallb] in Hk, Hbefore.
      apply andb_true_iff in Hbefore as [Hr Hbefore].
      destruct r as [e'|data]; [discriminate|].
      specialize (IH (match data with
                      | Some l => inserted + Z.of_nat (length l)
                      | None => inserted
                      end)
                    {| world := w1;
                       trace := trace s
                                ++ [EvUpsert table (take CHUNK (drop i rows))
                                      ON_CONFLICT] |} k e).
      cbn [world trace] in IH. rewrite Hrest in IH.
      destruct (IH Hk Hbefore) as [Hres Htr].
      split; [exact Hres|]. rewrite Htr, <- app_assoc. reflexivity.
Qed.

(** X7. A store call that raises is fatal: when call [k] (from 0) is the
    first to fail, [upsert_rows] raises its error, having sent the chunks
    0 to [k] and none after. *)
Theorem upsert_rows_store_failure supabase table rows s k e :
  fst (replies supabase table (chunks_of rows) (world s)) !! k
    = Some (inl e) ->
  forallb succeeded
    (take k (fst (replies supabase table (chunks_of rows) (world s)))) = true ->
  fst (upsert_rows supabase table rows s) = Raise (StoreError e) /\
  upserts (trace (snd (upsert_rows supabase table rows s)))
    = upserts (trace s) ++ take (S k) (chunks_of rows).
Proof.
  intros Hk Hbefore. unfold upsert_rows.
  destruct rows as [|r rows]; [cbn in Hk; discriminate|].
  destruct (upsert_loop_failure supabase table (r :: rows)
              (py_range_step (length (r :: rows)) CHUNK) 0 s k e Hk Hbefore)
    as [Hres Htr].
  split; [exact Hres|]. rewrite Htr. fold (chunks_of (r :: rows)).
  rewrite upserts_app, upserts_sent. reflexivity.
Qed.

Lemma sum_affected_reported (chunks : list (list (Row float))) rs :
  Forall2 (fun c r => exists l, r = inr (Some l) /\ length l = length c)
    chunks rs ->
  forallb succeeded rs = true /\
  sum_affected rs = Z.of_nat (length (concat chunks)).
Proof.
  induction 1 as [|c r chunks rs (l & -> & Hl) _ [IH1 IH2]].
  - split; reflexivity.
  - split; [exact IH1|].
    change (sum_affected (inr (Some l) :: rs))
      with (Z.of_nat (length l) + sum_affected rs).
    cbn [concat]. rewrite length_app, IH2, Hl. lia.
Qed.

(** X8. When the store answers every call with as many rows as it was
    sent, the count returned is the size of the batch. *)
Theorem upsert_rows_all_reported supabase table rows s :
  rows <> [] ->
  Forall2 (fun c r => exists l, r = inr (Some l) /\ length l = length c)
    (chunks_of rows)
    (fst (replies supabase table (chunks_of rows) (world s))) ->
  fst (upsert_rows supabase table rows s) = Ok (Z.of_nat (length rows)).
Proof.
  intros Hne Hall. apply sum_affected_reported in Hall as [Hok Hsum].
  rewrite chunks_concat in Hsum. unfold upsert_rows.
  destruct rows as [|r rows]; [congruence|].
  erewrite upsert_loop_spec; [|apply surjective_pairing|exact Hok].
  cbn [fst]. fold (chunks_of (r :: rows)). rewrite Hsum. reflexivity.
Qed.

Lemma sum_affected_unreported rs :
  Forall (fun r => r = inr None) rs ->
  forallb succeeded rs = true /\ sum_affected rs = 0.
Proof.
  induction 1 as [|r rs -> _ [IH1 IH2]]; [split; reflexivity|].
  split; [exact IH1|].
  change (sum_affected (inr None :: rs)) with (0 + sum_affected rs). lia.
Qed.

(** X9. When the answers of the store carry no list of rows, the batch is
    sent in full and counted as 0: to the caller the day looks empty. *)
Theorem upsert_rows_unreported supabase table rows s :
  Forall (fun r => r = inr None)
    (fst (replies supabase table (chunks_of rows) (world s))) ->
  fst (upsert_rows supabase table rows s) = Ok 0 /\
  upserts (trace (snd (upsert_rows supabase table rows s)))
    = upserts (trace s) ++ chunks_of rows.
Proof.
  intros Hall. apply sum_affected_unreported in Hall as [Hok Hsum].
  unfold upsert_rows. destruct rows as [|r rows].
  - cbn. rewrite app_nil_r. split; reflexivity.
  - erewrite upsert_loop_spec; [|apply surjective_pairing|exact Hok].
    cbn [fst snd trace]. fold (chunks_of (r :: rows)). rewrite Hsum.
    split; [reflexivity|]. rewrite upserts_app, upserts_sent. reflexivity.
Qed.

End UpsertMore.

Lemma upsert_rows_store_failure_witness :
  fst (@upsert_rows Sim.platform ("url", "key") "meter_readings"
         ScenarioStore.three ScenarioStore.down)
  = Raise (StoreError "store unavailable").
Proof.
  apply (@upsert_rows_store_failure Sim.platform ("url", "key")
           "meter_readings" ScenarioStore.three ScenarioStore.down 0%nat);
    vm_compute; reflexivity.
Defined.

Lemma upsert_rows_all_reported_witness :
  fst (@upsert_rows Sim.platform ("url", "key") "meter_readings"
         ScenarioStore.three (Sim.start 0 [])) = Ok 3.
Proof.
  apply (@upsert_rows_all_reported Sim.platform ("url", "key")
           "meter_readings" ScenarioStore.three (Sim.start 0 []));
    [discriminate|].
  vm_compute. constructor; [|constructor]. eexists. split; reflexivity.
Defined.

Lemma upsert_rows_unreported_witness :
  fst (@upsert_rows SimQuiet.platform ("url", "key") "meter_readings"
         ScenarioStore.three (Sim.start 0 [])) = Ok 0.
Proof.
  apply (@upsert_rows_unreported SimQuiet.platform ("url", "key")
           "meter_readings" ScenarioStore.three (Sim.start 0 [])).
  vm_compute. constructor; [reflexivity|constructor].
Defined.

(** * Further properties of a day of the Day Walker *)

Section CollectDay.

Context {P : Platform}.

Lemma requests_app (a b : list (Event float)) :
  requests (a ++ b) = requests a ++ requests b.
Proof.
  induction a as [|ev a IH]; [reflexivity|].
  destruct ev; cbn; rewrite IH; reflexivity.
Qed.

Lemma build_rows_requests api_base loc day s :
  requests (trace (snd (build_rows api_base loc day s)))
    = requests (trace s) ++ [fetch_url api_base loc day] /\
  upserts (trace (snd (build_rows api_base loc day s))) = upserts (trace s).
Proof.
  destruct (build_rows_tail api_base loc day s) as (evs & -> & Hevs).
  rewrite requests_app, upserts_app.
  destruct Hevs as [->|[msg ->]]; cbn; rewrite ?app_nil_r; split; reflexivity.
Qed.

Lemma rows_loop_rows loc base limit items : forall i rows s r s',
  rows_loop loc base limit i items rows s = (Ok r, s') ->
  exists out, r = rows ++ out /\ Forall (row_from loc) out.
Proof.
  induction items as [|item rest IH]; intros i rows s r s' Hrun;
    cbn [rows_loop] in Hrun.
  - injection Hrun as <- _. exists []. rewrite app_nil_r. split; constructor.
  - destruct (datetime_add base (i * US_PER_MINUTE)) as [ts|e];
      [rewrite bind_lift_Ok in Hrun|discriminate].
    destruct (SGT.astimezone_utc ts) as [utc|e];
      [rewrite bind_lift_Ok in Hrun|discriminate].
    destruct (utc >? limit).
    + eapply IH. exact Hrun.
    + rewrite bind_call in Hrun. apply IH in Hrun as (out & -> & Hall).
      eexists (_ :: out). rewrite <- app_assoc. split; [reflexivity|].
      constructor; [split; reflexivity|exact Hall].
Qed.

Lemma build_rows_rows api_base loc day s rows s' :
  build_rows api_base loc day s = (Ok rows, s') ->
  Forall (row_from loc) rows.
Proof.
  unfold build_rows. rewrite bind_emit, bind_call. cbn [world trace].
  destruct (fst (http_get_json _ _)) as [e|raw].
  - rewrite bind_emit. intros H. injection H as <- _. constructor.
  - destruct (truthy raw); cbn [negb].
    + rewrite bind_call. cbn [world trace].
      destruct (datetime_add _ US_PER_HOUR) as [limit|e];
        [rewrite bind_lift_Ok|discriminate].
      destruct (py_iter raw) as [items|e]; [rewrite bind_lift_Ok|discriminate].
      intros H. apply rows_loop_rows in H as (out & -> & Hall). exact Hall.
    + intros H. injection H as <- _. constructor.
Qed.

(** The state in which [collect_day] goes on after a device. *)
Lemma collect_day_step api_base loc rest day day_rows s :
  collect_day api_base (loc :: rest) day day_rows s =
  match build_rows api_base loc day s with
  | (Ok rows, s1) =>
      collect_day api_base rest day (day_rows ++ rows)
        {| world := sleep (world s1); trace := trace s1 ++ [EvSleep 50] |}
  | (Raise e, s1) => (Raise e, s1)
  end.
Proof.
  cbn [collect_day]. unfold bind at 1.
  destruct (build_rows api_base loc day s) as [[rows|e] s1]; reflexivity.
Qed.

(** The requests of a day's collection that returns. *)
Lemma collect_day_requests api_base day locs : forall day_rows s rows s',
  collect_day api_base locs day day_rows s = (Ok rows, s') ->
  requests (trace s')
    = requests (trace s) ++ map (fun loc => fetch_url api_base loc day) locs /\
  upserts (trace s') = upserts (trace s).
Proof.
  induction locs as [|loc rest IH]; intros day_rows s rows s' Hrun.
  - cbn in Hrun. injection Hrun as _ <-. rewrite app_nil_r. split; reflexivity.
  - rewrite collect_day_step in Hrun.
    destruct (build_rows_requests api_base loc day s) as [Hreq Hups].
    destruct (build_rows api_base loc day s) as [[got|e] s1]; [|discriminate].
    cbn [snd] in Hreq, Hups. apply IH in Hrun as (Hreq' & Hups').
    cbn [trace] in Hreq', Hups'.
    rewrite requests_app, Hreq in Hreq'. rewrite upserts_app, Hups in Hups'.
    cbn in Hreq', Hups'. rewrite app_nil_r in Hreq', Hups'.
    split; [rewrite Hreq', <- app_assoc; reflexivity|exact Hups'].
Qed.

(** Its batch. *)
Lemma collect_day_rows api_base day locs : forall day_rows s rows s',
  collect_day api_base locs day day_rows s = (Ok rows, s') ->
  exists new,
    rows = day_rows ++ new /\
    Forall (fun r => exists loc, loc ∈ locs /\ row_from loc r) new.
Proof.
  induction locs as [|loc rest IH]; intros day_rows s rows s' Hrun.
  - cbn in Hrun. injection Hrun as <- _. exists []. rewrite app_nil_r.
    split; constructor.
  - rewrite collect_day_step in Hrun.
    destruct (build_rows api_base loc day s) as [[got|e] s1] eqn:Hbuild;
      [|discriminate].
    apply build_rows_rows in Hbuild.
    apply IH in Hrun as (new & -> & Hnew).
    exists (got ++ new). rewrite app_assoc. split; [reflexivity|].
    apply Forall_app. split.
    + eapply Forall_impl; [exact Hbuild|]. intros r Hr. exists loc.
      split; [apply elem_of_cons; left; reflexivity|exact Hr].
    + eapply Forall_impl; [exact Hnew|]. intros r (l & Hl & Hr). exists l.
      split; [apply elem_of_cons; right; exact Hl|exact Hr].
Qed.

(** X10. When the loop over the devices of a day returns, it has asked
    for every device once, in the order of the list, and sent nothing to
    the store; the batch is the rows it was given followed by rows that
    each bear the id and name of one of the devices. *)
Theorem collect_day_returns api_base day locs : forall day_rows s rows s',
  collect_day api_base locs day day_rows s = (Ok rows, s') ->
  requests (trace s')
    = requests (trace s) ++ map (fun loc => fetch_url api_base loc day) locs /\
  upserts (trace s') = upserts (trace s) /\
  exists new,
    rows = day_rows ++ new /\
    Forall (fun r => exists loc, loc ∈ locs /\ row_from loc r) new.
Proof.
  intros day_rows s rows s' Hrun.
  destruct (collect_day_requests _ _ _ _ _ _ _ Hrun) as [Hreq Hups].
  destruct (collect_day_rows _ _ _ _ _ _ _ Hrun) as (new & Hrows & Hnew).
  split; [exact Hreq|]. split; [exact Hups|].
  exists new. split; assumption.
Qed.

(** X11. Only a failed fetch is absorbed.  When building the rows of a
    device raises, the loop over the devices raises the same exception:
    the devices after it in the list are not asked. *)
Theorem collect_day_raises api_base day locs : forall day_rows s e,
  fst (collect_day api_base locs day day_rows s) = Raise e ->
  exists k loc,
    locs !! k = Some loc /\
    requests (trace (snd (collect_day api_base locs day day_rows s)))
      = requests (trace s)
        ++ map (fun loc => fetch_url api_base loc day) (take (S k) locs).
Proof.
  induction locs as [|loc rest IH]; intros day_rows s e Hrun.
  - cbn in Hrun. discriminate.
  - rewrite collect_day_step in Hrun |- *.
    destruct (build_rows_requests api_base loc day s) as [Hreq _].
    destruct (build_rows api_base loc day s) as [[got|e'] s1] eqn:Hbuild;
      cbn [snd] in Hreq.
    + destruct (IH _ _ _ Hrun) as (k & l & Hk & Hreq').
      exists (S k), l. split; [exact Hk|].
      rewrite Hreq'. cbn [trace]. rewrite requests_app, Hreq. cbn.
      rewrite app_nil_r, <- app_assoc. reflexivity.
    + exists 0%nat, loc. split; [reflexivity|]. cbn [snd]. rewrite Hreq.
      reflexivity.
Qed.

End CollectDay.

Lemma collect_day_returns_witness :
  exists rows s',
    @collect_day Sim.platform API_DEFAULT LOCATIONS Scenario.day_2024_03_10 []
      Scenario.day_after = (Ok rows, s') /\
    length (@requests Sim.platform (trace s')) = 13%nat.
Proof.
  destruct (@collect_day Sim.platform API_DEFAULT LOCATIONS
              Scenario.day_2024_03_10 [] Scenario.day_after)
    as [[rows|e] s'] eqn:Hrun.
  - exists rows, s'. split; [reflexivity|].
    destruct (@collect_day_returns Sim.platform API_DEFAULT
                Scenario.day_2024_03_10 LOCATIONS [] Scenario.day_after
                rows s' Hrun) as [Hreq _].
    rewrite Hreq. reflexivity.
  - exfalso. apply (f_equal fst) in Hrun. vm_compute in Hrun. discriminate.
Defined.

Lemma collect_day_raises_witness :
  exists k loc,
    LOCATIONS !! k = Some loc /\
    @requests Sim.platform
      (trace (snd (@collect_day Sim.platform API_DEFAULT LOCATIONS
                     Scenario.day_2024_03_10 [] ScenarioAbort.state)))
    = @requests Sim.platform (trace ScenarioAbort.state)
      ++ map (fun loc => fetch_url API_DEFAULT loc Scenario.day_2024_03_10)
           (take (S k) LOCATIONS).
Proof.
  apply (@collect_day_raises Sim.platform API_DEFAULT
           Scenario.day_2024_03_10 LOCATIONS [] ScenarioAbort.state
           TypeError).
  vm_compute; reflexivity.
Defined.

(** * Further properties of the backward walk *)

Section WalkMore.

Context {P : Platform}.

Variables (api_base table : string) (supabase : Client).
Variables (threshold stop_before : Z).

Local Notation "'day_step'" :=
  (walk_day api_base table supabase threshold).
Local Notation "'loop'" :=
  (walk api_base table supabase threshold stop_before).

(** Induction over the iterations of a walk that returns. *)
Lemma walk_returns_ind (Inv Post : Walk -> Prop) :
  (forall w, Inv w -> cur w < stop_before -> Post w) ->
  (forall w s w1 s1,
     Inv w -> stop_before <= cur w -> day_step w s = (Ok w1, s1) ->
     threshold <= empty_streak w1 -> Post w1) ->
  (forall w s w1 s1,
     Inv w -> stop_before <= cur w -> day_step w s = (Ok w1, s1) ->
     empty_streak w1 < threshold ->
     Inv (moved_back w1 (cur w1 - 1))) ->
  forall w s w' s', Inv w -> loop w s = (Ok w', s') -> Post w'.
Proof.
  intros Hhead Hstop Hnext w.
  remember (Z.to_nat (cur w - stop_before + 1)) as n eqn:Hn.
  revert w Hn. induction n as [|n IH]; intros w Hn s w' s' Hinv Hrun;
    rewrite walk_unfold in Hrun.
  - replace (cur w <? stop_before) with true in Hrun
      by (symmetry; apply Z.ltb_lt; lia).
    injection Hrun as <- _. apply Hhead; [exact Hinv|lia].
  - replace (cur w <? stop_before) with false in Hrun
      by (symmetry; apply Z.ltb_ge; lia).
    destruct (day_step w s) as [[w1|e] s1] eqn:Hday; [|discriminate].
    destruct (walk_day_result _ _ _ _ _ _ _ _ Hday) as (a & Hc & _).
    destruct (empty_streak w1 >=? threshold) eqn:Hthr.
    + injection Hrun as <- _. rewrite Z.geb_leb in Hthr.
      apply Z.leb_le in Hthr. eapply Hstop; eauto. lia.
    + rewrite Z.geb_leb in Hthr. apply Z.leb_gt in Hthr.
      unfold date_sub in Hrun.
      destruct (valid_ordinal (cur w1 - 1)); [|discriminate].
      eapply (IH (moved_back w1 (cur w1 - 1))); [cbn; lia| |exact Hrun].
      eapply Hnext; eauto. lia.
Qed.

Lemma rev_lookup_snoc {A} (h : list A) (x : A) k p :
  rev (x :: h) !! k = Some p ->
  (rev h !! k = Some p) \/ (k = length h /\ p = x).
Proof.
  cbn [rev]. intros H. destruct (decide (k < length (rev h))%nat) as [Hlt|Hge].
  - left. rewrite lookup_app_l in H by exact Hlt. exact H.
  - right. rewrite lookup_app_r in H by lia. rewrite length_rev in *.
    destruct (k - length h)%nat eqn:E; [|destruct n; discriminate].
    cbn in H. injection H as <-. split; [lia|reflexivity].
Qed.

(** X12. The books of a walk that returns: it has counted its days and
    summed their affected counts, and the days are consecutive calendar
    days going back from the first, none skipped and none repeated. *)
Theorem walk_accounts end_day s w' s' :
  loop (initial_walk end_day) s = (Ok w', s') ->
  days_processed w' = Z.of_nat (length (history w')) /\
  total_affected w' = sum_counts (history w') /\
  walked_back_from end_day (history w').
Proof.
  apply (walk_returns_ind
           (fun w => days_processed w = Z.of_nat (length (history w)) /\
                     total_affected w = sum_counts (history w) /\
                     walked_back_from end_day (history w) /\
                     cur w = end_day - Z.of_nat (length (history w)))
           (fun w => days_processed w = Z.of_nat (length (history w)) /\
                     total_affected w = sum_counts (history w) /\
                     walked_back_from end_day (history w))).
  - intros w (H1 & H2 & H3 & _) _. auto.
  - intros w s0 w1 s1 (H1 & H2 & H3 & H4) _ Hday _.
    destruct (walk_day_result _ _ _ _ _ _ _ _ Hday)
      as (a & Hc & _ & Ht & Hd & Hh).
    rewrite Hh, Hd, Ht. cbn [length sum_counts fold_right snd].
    fold (sum_counts (history w)). repeat split; try lia.
    intros k p Hk. apply rev_lookup_snoc in Hk as [Hk|[-> ->]];
      [apply H3; exact Hk|cbn; lia].
  - intros w s0 w1 s1 (H1 & H2 & H3 & H4) _ Hday _.
    destruct (walk_day_result _ _ _ _ _ _ _ _ Hday)
      as (a & Hc & _ & Ht & Hd & Hh).
    cbn [moved_back days_processed total_affected history cur].
    rewrite Hh, Hd, Ht. cbn [length sum_counts fold_right snd].
    fold (sum_counts (history w)). repeat split; try lia.
    intros k p Hk. apply rev_lookup_snoc in Hk as [Hk|[-> ->]];
      [apply H3; exact Hk|cbn; lia].
  - cbn. repeat split; [|lia]. intros k p Hk. destruct k; discriminate.
Qed.

Lemma streak_zeros h : forall k p,
  Z.of_nat k < streak_of h -> h !! k = Some p -> snd p = 0.
Proof.
  induction h as [|[d a] h IH]; intros k p Hk Hp; [discriminate|].
  cbn [streak_of] in Hk. destruct (a =? 0) eqn:Ha; [|lia].
  destruct k as [|k].
  - cbn in Hp. injection Hp as <-. apply Z.eqb_eq in Ha. exact Ha.
  - cbn in Hp. eapply IH; [|exact Hp]. lia.
Qed.

Lemma streak_of_bounds h : 0 <= streak_of h <= Z.of_nat (length h).
Proof.
  induction h as [|[d a] h IH]; cbn [streak_of length]; [lia|].
  destruct (a =? 0); lia.
Qed.

(** X13. A walk returns for one of two reasons.  Either the streak has
    reached the threshold: then the latest [threshold] days processed all
    had zero affected rows.  Or the horizon is passed: then every day from
    the first down to [stop_before] has been processed. *)
Theorem walk_exits end_day s w' s' :
  loop (initial_walk end_day) s = (Ok w', s') ->
  (history w' <> [] /\
   threshold <= streak_of (history w') /\
   (forall k p, Z.of_nat k < threshold -> history w' !! k = Some p ->
      snd p = 0) /\
   stop_before <= cur w') \/
  (cur w' < stop_before /\
   Z.of_nat (length (history w')) = Z.max 0 (end_day - stop_before + 1)).
Proof.
  apply (walk_returns_ind
           (fun w => empty_streak w = streak_of (history w) /\
                     cur w = end_day - Z.of_nat (length (history w)) /\
                     (history w = [] \/ stop_before - 1 <= cur w))
           (fun w => (history w <> [] /\
                      threshold <= streak_of (history w) /\
                      (forall k p, Z.of_nat k < threshold ->
                         history w !! k = Some p -> snd p = 0) /\
                      stop_before <= cur w) \/
                     (cur w < stop_before /\
                      Z.of_nat (length (history w))
                      = Z.max 0 (end_day - stop_before + 1)))).
  - intros w (_ & Hcur & Hlow) Hstop. right. split; [exact Hstop|].
    destruct Hlow as [Hnil|Hlow]; [rewrite Hnil in *; cbn in *|]; lia.
  - intros w s0 w1 s1 (Hs & Hcur & _) Hstop Hday Hthr.
    destruct (walk_day_result _ _ _ _ _ _ _ _ Hday)
      as (a & Hc & Hs1 & _ & _ & Hh).
    assert (Hstreak : empty_streak w1 = streak_of (history w1)).
    { rewrite Hh, Hs1, Hs. cbn [streak_of]. reflexivity. }
    left. rewrite Hh at 1. split; [discriminate|].
    split; [lia|]. split; [|lia].
    intros k p Hk Hp. eapply streak_zeros; [|exact Hp]. lia.
  - intros w s0 w1 s1 (Hs & Hcur & _) Hstop Hday _.
    destruct (walk_day_result _ _ _ _ _ _ _ _ Hday)
      as (a & Hc & Hs1 & _ & _ & Hh).
    cbn [moved_back empty_streak history cur].
    rewrite Hh, Hs1, Hs. cbn [streak_of length]. repeat split; lia.
  - cbn. repeat split; [lia|]. left. reflexivity.
Qed.

(** X14. A store that fails is fatal to the walk: when the write of a day
    raises, the walk raises the same exception, with nothing done after the
    failed call: no log line, no further day. *)
Theorem walk_store_failure w s rows s1 e :
  stop_before <= cur w ->
  collect_day api_base LOCATIONS (cur w) [] s = (Ok rows, s1) ->
  fst (upsert_rows supabase table rows s1) = Raise e ->
  loop w s = (Raise e, snd (upsert_rows supabase table rows s1)).
Proof.
  intros Hcur Hrows Hfail. rewrite walk_unfold.
  replace (cur w <? stop_before) with false
    by (symmetry; apply Z.ltb_ge; lia).
  unfold walk_day, bind at 1. rewrite Hrows. unfold bind at 1.
  destruct (upsert_rows supabase table rows s1) as [[a|e'] s2];
    cbn [fst snd] in *; [discriminate|]. congruence.
Qed.

End WalkMore.

Section WalkMoreWitnesses.

Import ScenarioBackfill.

Lemma walk_accounts_witness :
  total_affected final = sum_counts (history final) /\
  walked_back_from first_day (history final).
Proof.
  destruct (@walk_accounts Sim.platform API_DEFAULT "meter_readings"
              (client_of config) 2 (first_day + 1 - 365) first_day
              started final finished) as (_ & Hsum & Hdays);
    [vm_compute; reflexivity|].
  split; assumption.
Defined.

Lemma walk_exits_witness :
  (history final <> [] /\
   2 <= streak_of (history final) /\
   (forall k p, Z.of_nat k < 2 -> history final !! k = Some p -> snd p = 0) /\
   first_day + 1 - 365 <= cur final) \/
  (cur final < first_day + 1 - 365 /\
   Z.of_nat (length (history final))
   = Z.max 0 (first_day - (first_day + 1 - 365) + 1)).
Proof.
  apply (@walk_exits Sim.platform API_DEFAULT "meter_readings"
           (client_of config) 2 (first_day + 1 - 365) first_day
           started final finished).
  vm_compute; reflexivity.
Defined.

Lemma walk_store_failure_witness :
  fst (@walk Sim.platform API_DEFAULT "meter_readings" (client_of config) 2
         (first_day - 365) (initial_walk first_day) ScenarioStoreDown.state)
  = Raise (StoreError "store unavailable").
Proof.
  rewrite (@walk_store_failure Sim.platform API_DEFAULT "meter_readings"
             (client_of config) 2 (first_day - 365) (initial_walk first_day)
             ScenarioStoreDown.state (fst ScenarioStoreDown.collected)
             (snd ScenarioStoreDown.collected)
             (StoreError "store unavailable"));
    [reflexivity|vm_compute; discriminate|vm_compute; reflexivity
    |vm_compute; reflexivity].
Defined.

End WalkMoreWitnesses.

(** * Startup, the daily job and yesterday's date *)

Section Startup.

Context {P : Platform}.

(** From 1982-01-01T00:00Z on, the local wall clock is eight hours ahead
    of UTC. *)
Lemma fromutc_fixed utc :
  combine_midnight SGT.FIXED_FROM <= utc ->
  SGT.fromutc utc = datetime_add utc (8 * US_PER_HOUR).
Proof.
  unfold combine_midnight, SGT.FIXED_FROM, US_PER_DAY. intros Hutc.
  unfold SGT.fromutc. f_equal. unfold SGT.utcoffset_of_utc.
  assert (Hs : (723546 - 1) * 86400 <= utc / US_PER_SECOND).
  { apply Z.div_le_lower_bound; unfold US_PER_SECOND in *; lia. }
  set (ts := utc / US_PER_SECOND - SGT.EPOCH_SECONDS).
  assert (Hts : 378691200 <= ts) by (unfold ts, SGT.EPOCH_SECONDS; lia).
  unfold SGT.transitions, SGT.utcoff_first. cbn [SGT.find_utc].
  repeat match goal with
         | |- context [?a <? ?b] =>
             replace (a <? b) with false by (symmetry; apply Z.ltb_ge; lia)
         end.
  reflexivity.
Qed.

Lemma yesterday_sgt_result s day s1 :
  yesterday_sgt s = (Ok day, s1) ->
  exists local,
    SGT.fromutc (fst (utcnow (world s))) = Ok local /\
    day = datetime_date local - 1 /\
    s1 = {| world := snd (utcnow (world s)); trace := trace s |}.
Proof.
  unfold yesterday_sgt, now_sgt_date.
  rewrite bind_assoc, bind_call, bind_assoc. intros H.
  destruct (SGT.fromutc _) as [local|e];
    [rewrite bind_lift_Ok, bind_ret in H|discriminate].
  unfold date_sub, lift in H.
  destruct (valid_ordinal _); [|discriminate].
  injection H as <- <-. exists local. repeat split.
Qed.

(** X18. The day that [yesterday_sgt] returns is over when it returns:
    with the clock at or after 1982-01-02T00:00Z, each of its 1440 minutes
    lies before the clock reading, so the future-guard of a later
    [build_rows] removes none of them. *)
Theorem yesterday_sgt_is_over s day s1 i later :
  yesterday_sgt s = (Ok day, s1) ->
  combine_midnight (SGT.FIXED_FROM + 1) <= fst (utcnow (world s)) ->
  0 <= i < 1440 ->
  fst (utcnow (world s)) <= later ->
  utc_instant day i < fst (utcnow (world s)) /\
  in_future (later + US_PER_HOUR) day i = false.
Proof.
  intros Hrun Hclock Hi Hlater.
  destruct (yesterday_sgt_result _ _ _ Hrun) as (local & Hlocal & -> & _).
  set (now := fst (utcnow (world s))) in *.
  rewrite fromutc_fixed in Hlocal
    by (unfold combine_midnight, SGT.FIXED_FROM, US_PER_DAY, US_PER_SECOND
          in *; lia).
  unfold datetime_add in Hlocal.
  destruct (valid_datetime _); [|discriminate]. injection Hlocal as <-.
  unfold datetime_date.
  assert (Hday : SGT.FIXED_FROM <= (now + 8 * US_PER_HOUR) / US_PER_DAY).
  { apply Z.div_le_lower_bound;
      unfold combine_midnight, SGT.FIXED_FROM, US_PER_DAY, US_PER_HOUR,
        US_PER_MINUTE, US_PER_SECOND in *; lia. }
  assert (Hfloor : (now + 8 * US_PER_HOUR) / US_PER_DAY * US_PER_DAY
                   <= now + 8 * US_PER_HOUR).
  { rewrite Z.mul_comm. apply Z.mul_div_le. unfold US_PER_DAY, US_PER_SECOND.
    lia. }
  assert (Hpast : utc_instant ((now + 8 * US_PER_HOUR) / US_PER_DAY + 1 - 1) i
                  < now).
  { rewrite utc_instant_fixed by lia. unfold combine_midnight.
    unfold US_PER_DAY, US_PER_HOUR, US_PER_MINUTE, US_PER_SECOND in *. lia. }
  split; [exact Hpast|].
  unfold in_future. rewrite Z.gtb_ltb. apply Z.ltb_ge.
  assert (Hhour : 0 <= US_PER_HOUR)
    by (unfold US_PER_HOUR, US_PER_SECOND; lia).
  lia.
Qed.

(** What the startup of the backfill has done when it returns: two readings
    of the clock and one log line. *)
Lemma setup_readings env s c s0 :
  setup env s = (Ok c, s0) ->
  exists local1 local2,
    SGT.fromutc (first_reading s) = Ok local1 /\
    SGT.fromutc (second_reading s) = Ok local2 /\
    today_of c = datetime_date local1 /\
    end_of c = datetime_date local2 - 1 /\
    world s0 = snd (utcnow (snd (utcnow (world s)))) /\
    trace s0 = trace s
               ++ [EvLog INFO LOGGER
                     (msg_starting (end_of c) (stop_before_of c)
                        (threshold_of c))].
Proof.
  unfold setup, first_reading, second_reading. intros H.
  destruct (configured env "EMPTY_CHUNKS_TO_STOP" "2") as [thr|e];
    [rewrite bind_lift_Ok in H|discriminate].
  destruct (configured env "BACKFILL_MAX_YEARS" "5") as [yrs|e];
    [rewrite bind_lift_Ok in H|discriminate].
  destruct (environ env "SUPABASE_URL") as [url|e];
    [rewrite bind_lift_Ok in H|discriminate].
  destruct (environ env "SUPABASE_ANON_KEY") as [key|e];
    [rewrite bind_lift_Ok in H|discriminate].
  destruct (create_client url key) as [client|e];
    [rewrite bind_lift_Ok in H|discriminate].
  unfold yesterday_sgt, now_sgt_date in H.
  rewrite bind_assoc, bind_call, bind_assoc in H.
  destruct (SGT.fromutc (fst (utcnow (world s)))) as [today|e];
    [rewrite bind_lift_Ok, bind_ret in H|discriminate].
  rewrite !bind_assoc, bind_call, bind_assoc in H. cbn [world trace] in H.
  destruct (SGT.fromutc (fst (utcnow (snd (utcnow (world s))))))
    as [local|e]; [rewrite bind_lift_Ok, bind_ret in H|discriminate].
  unfold date_sub at 1 in H.
  destruct (valid_ordinal (datetime_date local - 1));
    [rewrite bind_lift_Ok in H|discriminate].
  unfold timedelta_days in H.
  destruct (Z.abs (365 * yrs) <=? 999999999);
    [rewrite bind_lift_Ok in H|discriminate].
  unfold date_sub in H.
  destruct (valid_ordinal _); [rewrite bind_lift_Ok in H|discriminate].
  rewrite bind_emit in H. injection H as <- <-.
  exists today, local. cbn. repeat split.
Qed.

(** X19. The backfill takes today's date from a first reading of the clock
    and its first day from a second one.  With a clock since 1982 that does
    not go back and readings less than a day apart, the first day is
    yesterday, or today when midnight in Singapore falls between the two
    readings; and the startup has done nothing but read the clock twice
    and log one line. *)
Theorem setup_first_day env s c s0 :
  setup env s = (Ok c, s0) ->
  combine_midnight SGT.FIXED_FROM <= first_reading s ->
  first_reading s <= second_reading s < first_reading s + US_PER_DAY ->
  today_of c - 1 <= end_of c <= today_of c /\
  (end_of c = today_of c <->
   datetime_date (first_reading s + 8 * US_PER_HOUR)
   < datetime_date (second_reading s + 8 * US_PER_HOUR)) /\
  requests (trace s0) = requests (trace s) /\
  upserts (trace s0) = upserts (trace s).
Proof.
  intros Hsetup Hclock Hnext.
  destruct (setup_readings _ _ _ _ Hsetup)
    as (l1 & l2 & H1 & H2 & -> & -> & _ & Htrace).
  rewrite fromutc_fixed in H1 by exact Hclock.
  rewrite fromutc_fixed in H2 by lia.
  unfold datetime_add in H1, H2.
  destruct (valid_datetime (first_reading s + _)); [|discriminate].
  destruct (valid_datetime (second_reading s + _)); [|discriminate].
  injection H1 as <-. injection H2 as <-.
  unfold datetime_date.
  assert (Hday : 0 < US_PER_DAY) by (unfold US_PER_DAY, US_PER_SECOND; lia).
  assert (Hlo : (first_reading s + 8 * US_PER_HOUR) / US_PER_DAY
                <= (second_reading s + 8 * US_PER_HOUR) / US_PER_DAY)
    by (apply Z.div_le_mono; lia).
  assert (Hhi : (second_reading s + 8 * US_PER_HOUR) / US_PER_DAY
                <= (first_reading s + 8 * US_PER_HOUR) / US_PER_DAY + 1).
  { transitivity ((first_reading s + 8 * US_PER_HOUR + 1 * US_PER_DAY)
                  / US_PER_DAY).
    - apply Z.div_le_mono; lia.
    - rewrite Z.div_add by lia. lia. }
  rewrite Htrace, requests_app, upserts_app. cbn. rewrite !app_nil_r.
  repeat split; lia.
Qed.

(** X15. A value of [EMPTY_CHUNKS_TO_STOP] that [int] does not accept makes
    the backfill raise [ValueError] at startup, and so does one of
    [BACKFILL_MAX_YEARS] when the threshold has been read: before the
    credentials are looked up, and with nothing requested, written, logged
    or read from the clock.  The value is ASCII text, where [py_int v = None]
    says that [int(v)] raises: [v] is not blanks, an optional sign and
    digits separated by single underscores, or it has more than 4300
    digits. *)
Theorem main_bad_integer env s v :
  env !! "EMPTY_CHUNKS_TO_STOP" = Some v \/
  (env !! "BACKFILL_MAX_YEARS" = Some v /\
   exists n, py_int (getenv env "EMPTY_CHUNKS_TO_STOP" "2") = Some n) ->
  ascii_text v = true ->
  py_int v = None ->
  main env s = (Raise (ValueError v), s).
Proof.
  intros Hv _ Hbad.
  assert (Hraise : forall k default,
            env !! k = Some v ->
            configured env k default = Raise (ValueError v)).
  { intros k default Hk. unfold configured, int_of, getenv.
    rewrite Hk, Hbad. reflexivity. }
  unfold main, setup. rewrite bind_assoc.
  destruct Hv as [Hv|[Hv [n Hn]]].
  - rewrite (Hraise _ _ Hv). reflexivity.
  - assert (Hthr : configured env "EMPTY_CHUNKS_TO_STOP" "2"
                   = Ok (Z.max 1 n))
      by (unfold configured, int_of; rewrite Hn; reflexivity).
    rewrite Hthr, bind_lift_Ok, bind_assoc, (Hraise _ _ Hv). reflexivity.
Qed.

(** X16. Without [SUPABASE_URL], or with it and without
    [SUPABASE_ANON_KEY], both jobs raise [KeyError] for the missing
    variable at startup (the backfill once its two integers are read), with
    nothing requested, written, logged or read from the clock. *)
Theorem main_missing_credentials env s k :
  (k = "SUPABASE_URL" /\ env !! "SUPABASE_URL" = None) \/
  (k = "SUPABASE_ANON_KEY" /\ env !! "SUPABASE_ANON_KEY" = None /\
   exists url, env !! "SUPABASE_URL" = Some url) ->
  main_daily env s = (Raise (KeyError k), s) /\
  (forall t y,
     configured env "EMPTY_CHUNKS_TO_STOP" "2" = Ok t ->
     configured env "BACKFILL_MAX_YEARS" "5" = Ok y ->
     main env s = (Raise (KeyError k), s)).
Proof.
  intros Hk. split.
  - unfold main_daily, environ.
    destruct Hk as [[-> Hurl]|(-> & Hkey & url & Hurl)]; rewrite Hurl.
    + reflexivity.
    + rewrite bind_lift_Ok, Hkey. reflexivity.
  - intros t y Ht Hy. unfold main, setup, environ. rewrite bind_assoc, Ht.
    rewrite bind_lift_Ok, bind_assoc, Hy, bind_lift_Ok, bind_assoc.
    destruct Hk as [[-> Hurl]|(-> & Hkey & url & Hurl)]; rewrite Hurl.
    + reflexivity.
    + rewrite bind_lift_Ok, bind_assoc, Hkey. reflexivity.
Qed.

Lemma requests_upserts table (cs : list (list (Row float))) :
  requests (map (fun c => EvUpsert table c ON_CONFLICT) cs) = [].
Proof. induction cs as [|c cs IH]; [reflexivity|exact IH]. Qed.

Lemma upsert_loop_ok supabase table rows : forall starts inserted s a s',
  upsert_loop supabase table rows starts inserted s = (Ok a, s') ->
  trace s' = trace s
             ++ map (fun c => EvUpsert table c ON_CONFLICT)
                  (map (fun i => take CHUNK (drop i rows)) starts).
Proof.
  induction starts as [|i rest IH]; intros inserted s a s' Hrun.
  - cbn in Hrun. injection Hrun as _ <-. cbn. rewrite app_nil_r. reflexivity.
  - cbn [upsert_loop] in Hrun. rewrite bind_emit, bind_call in Hrun.
    cbn [world trace] in Hrun.
    destruct (fst (execute_upsert _ _ _ _ _)) as [e|data]; [discriminate|].
    apply IH in Hrun. cbn [trace] in Hrun. rewrite Hrun, <- app_assoc.
    reflexivity.
Qed.

Lemma upsert_rows_ok supabase table rows s a s' :
  upsert_rows supabase table rows s = (Ok a, s') ->
  trace s' = trace s
             ++ map (fun c => EvUpsert table c ON_CONFLICT) (chunks_of rows).
Proof.
  unfold upsert_rows, chunks_of. destruct rows as [|r rows].
  - intros H. injection H as _ <-. cbn. rewrite app_nil_r. reflexivity.
  - apply upsert_loop_ok.
Qed.

(** X17. When the daily job returns, it has asked once for each of the 13
    devices, in their order, for one day: the date in Singapore of its
    reading of the clock, minus one.  What it has sent to the store, in
    chunks, are records of these devices, and its last act is the log line
    with the count it got back. *)
Theorem main_daily_returns env s affected s' :
  main_daily env s = (Ok affected, s') ->
  exists local rows,
    let day := datetime_date local - 1 in
    SGT.fromutc (fst (utcnow (world s))) = Ok local /\
    requests (trace s')
    = requests (trace s)
      ++ map (fun loc =>
                fetch_url (rstrip "/" (getenv env "API_BASE_URL" API_DEFAULT))
                  loc day) LOCATIONS /\
    upserts (trace s') = upserts (trace s) ++ chunks_of rows /\
    Forall (fun r => exists loc, loc ∈ LOCATIONS /\ row_from loc r) rows /\
    last (trace s')
    = Some (EvLog INFO "supabase-daily"
              ("Inserted/updated " +:+ str_of_Z affected +:+ " rows for "
               +:+ date_isoformat day)).
Proof.
  unfold main_daily. intros H.
  destruct (environ env "SUPABASE_URL") as [url|e];
    [rewrite bind_lift_Ok in H|discriminate].
  destruct (environ env "SUPABASE_ANON_KEY") as [key|e];
    [rewrite bind_lift_Ok in H|discriminate].
  destruct (create_client url key) as [client|e];
    [rewrite bind_lift_Ok in H|discriminate].
  unfold bind at 1 in H.
  destruct (yesterday_sgt s) as [[day|e] s1] eqn:Hday; [|discriminate].
  destruct (yesterday_sgt_result _ _ _ Hday) as (local & Hlocal & -> & ->).
  unfold bind at 1 in H.
  destruct (collect_day _ LOCATIONS _ [] _) as [[rows|e] s2] eqn:Hrows;
    [|discriminate].
  destruct (collect_day_requests _ _ _ _ _ _ _ Hrows) as [Hreq Hups].
  apply collect_day_rows in Hrows as (new & -> & Hnew).
  cbn [trace app] in Hreq, Hups, H.
  unfold bind at 1 in H.
  destruct (upsert_rows client _ new s2) as [[a|e] s3] eqn:Hup;
    [|discriminate].
  apply upsert_rows_ok in Hup. rewrite bind_emit in H.
  injection H as <- <-. cbn [trace].
  exists local, new. cbn zeta.
  split; [exact Hlocal|].
  rewrite requests_app, upserts_app, Hup, requests_app, upserts_app.
  rewrite requests_upserts, upserts_sent, Hreq, Hups. cbn [requests upserts].
  rewrite !app_nil_r.
  repeat split; [exact Hnew|]. apply last_snoc.
Qed.

End Startup.

Section StartupWitnesses.

Import ScenarioBackfill ScenarioStartup.

Lemma yesterday_sgt_is_over_witness :
  in_future (combine_midnight (first_day + 1) + US_PER_HOUR) first_day 1439
  = false.
Proof.
  destruct (@yesterday_sgt_is_over Sim.platform boot first_day
              (snd (@yesterday_sgt Sim.platform boot)) 1439
              (combine_midnight (first_day + 1))) as [_ Hguard];
    [vm_compute; reflexivity|vm_compute; discriminate|lia
    |vm_compute; discriminate|].
  exact Hguard.
Defined.

Lemma setup_first_day_witness :
  today_of config - 1 <= end_of config <= today_of config.
Proof.
  destruct (@setup_first_day Sim.platform env boot config started)
    as [Hday _];
    [vm_compute; reflexivity|vm_compute; discriminate
    |split; vm_compute; [discriminate|reflexivity]|].
  exact Hday.
Defined.

Lemma main_bad_integer_witness :
  @main Sim.platform env_bad boot = (Raise (ValueError (String FS "2")), boot).
Proof.
  apply (@main_bad_integer Sim.platform env_bad boot (String FS "2"));
    [left; reflexivity|reflexivity|reflexivity].
Defined.

Lemma main_missing_credentials_witness :
  @main_daily Sim.platform env_no_key boot
  = (Raise (KeyError "SUPABASE_ANON_KEY"), boot).
Proof.
  destruct (@main_missing_credentials Sim.platform env_no_key boot
              "SUPABASE_ANON_KEY") as [Hdaily _]; [|exact Hdaily].
  right. split; [reflexivity|]. split; [reflexivity|].
  eexists. reflexivity.
Defined.

Lemma main_daily_returns_witness :
  exists affected s',
    @main_daily Sim.platform env boot = (Ok affected, s') /\
    length (@requests Sim.platform (trace s')) = 13%nat.
Proof.
  destruct (@main_daily Sim.platform env boot) as [[affected|e] s'] eqn:Hrun.
  - exists affected, s'. split; [reflexivity|].
    destruct (@main_daily_returns Sim.platform env boot affected s' Hrun)
      as (local & rows & _ & Hreq & _).
    rewrite Hreq. reflexivity.
  - exfalso. apply (f_equal fst) in Hrun. vm_compute in Hrun. discriminate.
Defined.

End StartupWitnesses.

(** * The keys of a day's batch *)

Section BatchKeys.

Context {P : Platform}.

(** When [build_rows] returns, either it returns no record or the response
    was iterated to the end. *)
Lemma build_rows_ok_cases api_base loc day s out s' :
  build_rows api_base loc day s = (Ok out, s') ->
  out = [] \/
  exists raw items,
    response api_base loc day s = inr raw /\
    truthy raw = true /\
    py_iter raw = Ok items /\
    valid_datetime (build_time api_base loc day s + US_PER_HOUR) = true /\
    all_representable day 0 items = true.
Proof.
  unfold response, build_time, build_rows.
  rewrite bind_emit, bind_call. cbn [world trace].
  destruct (fst (http_get_json _ _)) as [e|raw].
  { rewrite bind_emit. intros H. injection H as <- _. left. reflexivity. }
  destruct (truthy raw) eqn:Htruthy; cbn [negb].
  2:{ intros H. injection H as <- _. left. reflexivity. }
  rewrite bind_call. cbn [world trace]. unfold datetime_add at 1.
  destruct (valid_datetime _) eqn:Hnow; [rewrite bind_lift_Ok|discriminate].
  destruct (py_iter raw) as [items|e] eqn:Hiter;
    [rewrite bind_lift_Ok|discriminate].
  intros Hrun. right. exists raw, items. repeat split; try assumption.
  destruct (all_representable day 0 items) eqn:Hrep; [reflexivity|].
  eapply rows_loop_overflow in Hrep. rewrite Hrun in Hrep. discriminate Hrep.
Qed.

Lemma rows_distinct_keys loc day (l : list (JSON float)) out :
  SGT.FIXED_FROM <= day ->
  (forall k x, l !! k = Some x ->
     valid_datetime (utc_instant day (Z.of_nat k)) = true) ->
  Forall2 (is_row_of loc day) (enumerate_from 0 l) out ->
  NoDup (key_of <$> out).
Proof.
  intros Hday Hvalid Hall.
  assert (Hts : forall j r, out !! j = Some r ->
            valid_datetime (utc_instant day (Z.of_nat j)) = true /\
            reading_datetime r = utc_isoformat (utc_instant day (Z.of_nat j))).
  { intros j r Hj.
    destruct (Forall2_lookup_r _ _ _ _ _ Hall Hj) as ([i x] & Hp & Hrow).
    rewrite enumerate_from_lookup in Hp.
    destruct (l !! j) as [y|] eqn:Hy; [|discriminate].
    cbn in Hp. injection Hp as <- <-.
    destruct Hrow as (_ & _ & _ & Hrd). cbn [fst] in Hrd.
    split; [eapply Hvalid; eauto|]. rewrite Hrd. f_equal. }
  apply NoDup_alt. intros i j x Hi Hj.
  rewrite list_lookup_fmap in Hi, Hj.
  destruct (out !! i) as [ri|] eqn:Ei; [|discriminate].
  destruct (out !! j) as [rj|] eqn:Ej; [|discriminate].
  cbn in Hi, Hj. injection Hi as <-. unfold key_of in Hj.
  injection Hj as _ Hrd.
  destruct (Hts i ri Ei) as [Hvi Hi], (Hts j rj Ej) as [Hvj Hj].
  rewrite Hi, Hj in Hrd. apply utc_isoformat_inj in Hrd; try assumption.
  rewrite !utc_instant_fixed in Hrd by lia.
  unfold US_PER_MINUTE, US_PER_SECOND in Hrd. lia.
Qed.

Lemma build_rows_keys api_base loc day s out s' :
  SGT.FIXED_FROM <= day ->
  build_rows api_base loc day s = (Ok out, s') ->
  NoDup (key_of <$> out).
Proof.
  intros Hday Hrun.
  destruct (build_rows_ok_cases _ _ _ _ _ _ Hrun)
    as [->|(raw & items & Hresp & Htruthy & Hiter & Hnow & Hrep)];
    [constructor|].
  destruct (build_rows_spec api_base loc day s raw items)
    as (out' & s'' & Hrun' & _ & Hall); auto.
  rewrite Hrun in Hrun'. injection Hrun' as <- _.
  destruct (kept_prefix (build_time api_base loc day s + US_PER_HOUR) day
              items 0) as (k & Hk & Hpre).
  { intros a b Hab. rewrite !utc_instant_fixed by lia.
    unfold US_PER_MINUTE, US_PER_SECOND. lia. }
  rewrite Hpre in Hall.
  eapply rows_distinct_keys; [exact Hday| |exact Hall].
  intros j x Hj. apply lookup_take_Some in Hj as [Hj _].
  eapply all_representable_lookup; eauto.
Qed.

Lemma collect_day_keys api_base day locs : forall day_rows s rows s',
  SGT.FIXED_FROM <= day ->
  collect_day api_base locs day day_rows s = (Ok rows, s') ->
  NoDup (ID <$> locs) ->
  NoDup (key_of <$> day_rows) ->
  (forall r, r ∈ day_rows -> location_id r ∉ ID <$> locs) ->
  NoDup (key_of <$> rows).
Proof.
  induction locs as [|loc rest IH];
    intros day_rows s rows s' Hday Hrun Hids Hkeys Hother.
  - cbn in Hrun. injection Hrun as <- _. exact Hkeys.
  - rewrite collect_day_step in Hrun.
    destruct (build_rows api_base loc day s) as [[got|e] s1] eqn:Hbuild;
      [|discriminate].
    pose proof (build_rows_keys _ _ _ _ _ _ Hday Hbuild) as Hgot.
    apply build_rows_rows in Hbuild.
    cbn [fmap list_fmap] in Hids. apply NoDup_cons in Hids as [Hloc Hrest].
    eapply IH; [exact Hday|exact Hrun|exact Hrest| |].
    + rewrite fmap_app. apply NoDup_app. split; [exact Hkeys|].
      split; [|exact Hgot].
      intros key Hk1 Hk2.
      apply list_elem_of_fmap in Hk1 as (r1 & -> & Hr1).
      apply list_elem_of_fmap in Hk2 as (r2 & Heq & Hr2).
      apply (Hother r1 Hr1). cbn [fmap list_fmap]. apply elem_of_cons. left.
      unfold key_of in Heq. injection Heq as -> _.
      rewrite Forall_forall in Hbuild. apply (Hbuild r2 Hr2).
    + intros r Hr. apply elem_of_app in Hr as [Hr|Hr].
      * intros Hin. apply (Hother r Hr). cbn [fmap list_fmap].
        apply elem_of_cons. right. exact Hin.
      * rewrite Forall_forall in Hbuild.
        destruct (Hbuild r Hr) as [-> _]. exact Hloc.
Qed.

Lemma LOCATIONS_distinct : NoDup (ID <$> LOCATIONS).
Proof. apply (bool_decide_unpack _). vm_compute. reflexivity. Qed.

(** X20. For a day from 1982-01-01 on, the batch that the loop over the
    devices collects, and that goes to the store as one day's upsert, holds
    no two records with the same key [(location_id, reading_datetime)],
    whatever the API has answered. *)
Theorem collect_day_distinct_keys api_base day s rows s' :
  SGT.FIXED_FROM <= day ->
  collect_day api_base LOCATIONS day [] s = (Ok rows, s') ->
  NoDup (key_of <$> rows).
Proof.
  intros Hday Hrun.
  eapply collect_day_keys; [exact Hday|exact Hrun|exact LOCATIONS_distinct| |].
  - constructor.
  - intros r Hr. apply elem_of_nil in Hr. contradiction.
Qed.

End BatchKeys.

Lemma collect_day_distinct_keys_witness :
  exists rows s',
    @collect_day Sim.platform API_DEFAULT LOCATIONS Scenario.day_2024_03_10 []
      Scenario.day_after = (Ok rows, s') /\
    NoDup (@key_of Sim.platform <$> rows).
Proof.
  destruct (@collect_day Sim.platform API_DEFAULT LOCATIONS
              Scenario.day_2024_03_10 [] Scenario.day_after)
    as [[rows|e] s'] eqn:Hrun.
  - exists rows, s'. split; [reflexivity|].
    apply (@collect_day_distinct_keys Sim.platform API_DEFAULT
             Scenario.day_2024_03_10 Scenario.day_after rows s');
      [vm_compute; discriminate|exact Hrun].
  - exfalso. apply (f_equal fst) in Hrun. vm_compute in Hrun. discriminate.
Defined.
